(** * polymarket_api: the live order-book stream (live_orderbook.py)

    A shallow embedding of the streaming ingestion path of
    [src/polymarket_api/live_orderbook.py]: numeric decoding ([_to_decimal],
    [_price_key]), the per-instrument book mutations ([_apply_book_snapshot],
    [_apply_price_change]), the level accessors ([_levels_desc], [_levels_asc])
    and what [_build_outcome_panel] makes of them, and the reconnect loop of
    [stream_market_orderbook].

    Modelling conventions.
    - Python exceptions are an error monad ([result]); a raised exception
      that no handler of the modelled code catches ends the run.
    - [decimal.Decimal] is modelled with its sign, coefficient and exponent,
      its infinities and its NaNs, under the default context (28 digits,
      ROUND_HALF_EVEN, InvalidOperation and Overflow trapped); the
      constructor reads a numeral exactly, within the limits of the 64-bit
      build.
    - A string is the sequence of its characters, each a code point below
      256; text with other characters is outside the model.
    - A Python float is carried by its [repr] (only [str] and truthiness are
      ever applied to one); an int is one that [json.loads] yields; a text
      frame is carried by what [json.loads] makes of it.
    - The display is not part of the state: the status text is not kept,
      and a frame that is applied leaves the coroutine in [ws.recv].  An
      exception of [_timestamp_text] or of [live.update(_render_dashboard
      (...))], which are inside the [try], acts as a failure of the next
      [ws.recv] does: it is the event [Failed] after the frame (or, when
      [_timestamp_text] raises before the last item of a frame, after the
      frame of the items applied so far).

    The command line is covered as far as it is pure: the depth of
    [_fit_depth_to_terminal] as a function of the number of rows of the
    terminal, [_event_slug_from_url], [_select_market], the labels that
    [main] gives the tokens, and the book lookups of [_render_dashboard]. *)

From Stdlib Require Import ZArith NArith String Ascii List Lia Bool Sorted Permutation.
From Stdlib Require OrderedTypeEx.
From stdpp Require Import base option gmap strings list.
Import ListNotations.

Local Open Scope Z_scope.

(** ** Exceptions *)

(** The exception classes that occur in the modelled code.  [JSONDecodeError]
    is a subclass of [ValueError]; [InvalidOperation] and [Overflow] are
    the signals of [decimal] that the default context traps, subclasses of
    [ArithmeticError]. *)
Inductive exn :=
| ConnectionClosed
| OSError
| TimeoutError
| ValueError
| JSONDecodeError
| InvalidOperation
| Overflow
| TypeError.

Inductive result (A : Type) :=
| Ok (a : A)
| Raise (e : exn).
Arguments Ok {A} a.
Arguments Raise {A} e.

Definition bind {A B} (r : result A) (k : A -> result B) : result B :=
  match r with
  | Ok a => k a
  | Raise e => Raise e
  end.

Notation "x <-- r ; k" := (bind r (fun x => k))
  (at level 100, r at next level, right associativity).

(** ** Characters and digit strings *)

Definition is_digit (c : ascii) : bool :=
  ((48 <=? N_of_ascii c) && (N_of_ascii c <=? 57))%N.

Definition digit_val (c : ascii) : N := (N_of_ascii c - 48)%N.

Definition digit_char (d : N) : ascii := ascii_of_N (48 + d).

(** [c.isspace()], the white space of [str.strip()] and of the [Decimal]
    constructor: TAB, LF, VT, FF, CR, FS, GS, RS, US, space, NEL (133) and
    the no-break space (160). *)
Definition is_space (c : ascii) : bool :=
  let n := N_of_ascii c in
  (((9 <=? n) && (n <=? 13)) || ((28 <=? n) && (n <=? 32))
   || (n =? 133) || (n =? 160))%N.

(** [c.lower()]: the letters A-Z, and the capital letters of Latin-1
    (192-222, but for the multiplication sign 215). *)
Definition lower (c : ascii) : ascii :=
  let n := N_of_ascii c in
  if (((65 <=? n) && (n <=? 90))
      || ((192 <=? n) && (n <=? 222) && negb (n =? 215)))%N
  then ascii_of_N (n + 32) else c.

Fixpoint lstrip (s : list ascii) : list ascii :=
  match s with
  | c :: r => if is_space c then lstrip r else s
  | [] => []
  end.

Definition strip (s : list ascii) : list ascii :=
  rev (lstrip (rev (lstrip s))).

Definition remove_underscores (s : list ascii) : list ascii :=
  List.filter (fun c => negb (Ascii.eqb c "_")) s.

(** The longest prefix of digits, and the rest. *)
Fixpoint span_digits (s : list ascii) : list ascii * list ascii :=
  match s with
  | c :: r =>
      if is_digit c then let '(ds, t) := span_digits r in (c :: ds, t)
      else ([], s)
  | [] => ([], [])
  end.

(** [int(ds)] for a string of digits. *)
Definition digits_to_N (ds : list ascii) : N :=
  fold_left (fun acc c => (10 * acc + digit_val c)%N) ds 0%N.

Fixpoint digits_aux (fuel : nat) (n : N) (acc : list ascii) : list ascii :=
  match fuel with
  | O => acc
  | S f =>
      let acc' := digit_char (n mod 10) :: acc in
      if (n <? 10)%N then acc' else digits_aux f (n / 10) acc'
  end.

(** [str(n)] for a non-negative integer: its decimal digits, no leading
    zero. *)
Definition N_digits (n : N) : list ascii :=
  digits_aux (S (N.to_nat (N.log2 n))) n [].

Definition zeros (k : nat) : list ascii := repeat "0"%char k.

(** [len(str(c))]: the number of digits of a coefficient. *)
Definition ndigits (c : N) : Z := Z.of_nat (length (N_digits c)).

(** ** decimal.Decimal *)

(** A Decimal is [(-1)^neg * coeff * 10^exp], an infinity, or a NaN
    (quiet or signaling, with its diagnostic payload). *)
Inductive Decimal :=
| Fin (neg : bool) (coeff : N) (exp : Z)
| Inf (neg : bool)
| NaN (neg : bool) (signaling : bool) (payload : N).

Definition Decimal_0 : Decimal := Fin false 0 0.

Definition is_nan (d : Decimal) : bool :=
  match d with NaN _ _ _ => true | _ => false end.

(** The exponent after [E]: an optional sign and at least one digit, up to
    the end of the string. *)
Definition parse_exponent (s : list ascii) : option Z :=
  let '(sg, r) :=
    match s with
    | "-"%char :: r => (true, r)
    | "+"%char :: r => (false, r)
    | _ => (false, s)
    end in
  match span_digits r with
  | ([], _) => None
  | (ds, []) =>
      Some (if sg then - Z.of_N (digits_to_N ds) else Z.of_N (digits_to_N ds))
  | _ => None
  end.

(** The limits of the constructor, which reads a numeral exactly or not
    at all (64-bit build): the greatest adjusted exponent, the least
    exponent, and the greatest number of digits. *)
Definition MAX_EMAX : Z := 999999999999999999.
Definition MIN_ETINY : Z := -1999999999999999997.
Definition MAX_PREC : Z := 999999999999999999.

(** A finite numeral with the coefficient [c] and the exponent [e], when
    it is within the limits. *)
Definition finite (neg : bool) (c : N) (e : Z) : option Decimal :=
  if (MIN_ETINY <=? e) && (e + ndigits c - 1 <=? MAX_EMAX)
     && (ndigits c <=? MAX_PREC)
  then Some (Fin neg c e) else None.

(** A NaN with the diagnostic payload [p]. *)
Definition nan (neg signaling : bool) (p : N) : option Decimal :=
  if ndigits p <=? MAX_PREC then Some (NaN neg signaling p) else None.

(** What follows the sign, already lower-cased: a number with at least one
    digit, an infinity, or a NaN. *)
Definition parse_unsigned (neg : bool) (s : list ascii) : option Decimal :=
  let '(ip, r1) := span_digits s in
  let '(fp, r2) :=
    match r1 with
    | "."%char :: r => span_digits r
    | _ => ([], r1)
    end in
  match ip ++ fp with
  | _ :: _ =>
      let c := digits_to_N (ip ++ fp) in
      let e := - Z.of_nat (length fp) in
      if MAX_PREC <? Z.of_nat (length fp) then None
      else
        match r2 with
        | [] => finite neg c e
        | "e"%char :: r3 =>
            match parse_exponent r3 with
            | Some x => finite neg c (x + e)
            | None => None
            end
        | _ => None
        end
  | [] =>
      match s with
      | ["i"; "n"; "f"]%char => Some (Inf neg)
      | ["i"; "n"; "f"; "i"; "n"; "i"; "t"; "y"]%char => Some (Inf neg)
      | "n"%char :: "a"%char :: "n"%char :: r =>
          match span_digits r with
          | (ds, []) => nan neg false (digits_to_N ds)
          | _ => None
          end
      | "s"%char :: "n"%char :: "a"%char :: "n"%char :: r =>
          match span_digits r with
          | (ds, []) => nan neg true (digits_to_N ds)
          | _ => None
          end
      | _ => None
      end
  end.

(** [Decimal(s)] for a string [s]: [None] stands for [InvalidOperation]
    (a conversion syntax error, or a numeral beyond the limits).  White
    space around the numeral is stripped, underscores are dropped, letters
    are matched without regard to case. *)
Definition Decimal_of_string (s : string) : option Decimal :=
  let t := map lower (remove_underscores (strip (list_ascii_of_string s))) in
  match t with
  | "-"%char :: r => parse_unsigned true r
  | "+"%char :: r => parse_unsigned false r
  | _ => parse_unsigned false t
  end.

(** Default context: precision, exponent range, and the smallest exponent
    of a subnormal ([Etiny = Emin - prec + 1]). *)
Definition prec : Z := 28.
Definition Emax : Z := 999999.
Definition Etiny : Z := -1000026.

Definition signed (neg : bool) (c : N) : Z :=
  if neg then - Z.of_N c else Z.of_N c.

(** [Decimal._cmp]: the numeric order of two operands that are not NaN. *)
Definition _cmp (a b : Decimal) : comparison :=
  match a, b with
  | Inf sa, Inf sb => if sa then (if sb then Eq else Lt) else (if sb then Gt else Eq)
  | Inf sa, _ => if sa then Lt else Gt
  | _, Inf sb => if sb then Gt else Lt
  | Fin sa ca ea, Fin sb cb eb =>
      let m := Z.min ea eb in
      signed sa ca * 10 ^ (ea - m) ?= signed sb cb * 10 ^ (eb - m)
  | _, _ => Eq
  end.

(** The ordering operators signal InvalidOperation on a NaN operand, and
    the default context traps it. *)
Definition ordering (test : comparison -> bool) (a b : Decimal) : result bool :=
  if is_nan a || is_nan b then Raise InvalidOperation
  else Ok (test (_cmp a b)).

Definition dec_lt : Decimal -> Decimal -> result bool :=
  ordering (fun c => match c with Lt => true | _ => false end).
Definition dec_gt : Decimal -> Decimal -> result bool :=
  ordering (fun c => match c with Gt => true | _ => false end).
Definition dec_ge : Decimal -> Decimal -> result bool :=
  ordering (fun c => match c with Lt => false | _ => true end).

(** [c / 10^k] rounded to an integer, ties to even. *)
Definition round_half_even (c k : N) : N :=
  let p := (10 ^ k)%N in
  let q := (c / p)%N in
  let r := (c mod p)%N in
  let half := (p / 2)%N in
  if (half <? r)%N || ((r =? half)%N && N.odd q) then (q + 1)%N else q.

(** [Decimal._rescale] of a non-zero finite value: its coefficient at the
    exponent [target]. *)
Definition _rescale (c : N) (e target : Z) : N :=
  if target <=? e then (c * 10 ^ Z.to_N (e - target))%N
  else round_half_even c (Z.to_N (target - e)).

(** [Decimal._fix_nan]: the payload keeps its last [prec] digits. *)
Definition _fix_nan (neg : bool) (payload : N) : Decimal :=
  NaN neg false (payload mod 10 ^ 28)%N.

(** [self.quantize(exp)] in the default context. *)
Definition quantize (self exp : Decimal) : result Decimal :=
  match self, exp with
  | NaN _ true _, _ => Raise InvalidOperation
  | _, NaN _ true _ => Raise InvalidOperation
  | NaN s false p, _ => Ok (_fix_nan s p)
  | _, NaN s false p => Ok (_fix_nan s p)
  | Inf s, Inf _ => Ok (Inf s)
  | Inf _, _ => Raise InvalidOperation
  | _, Inf _ => Raise InvalidOperation
  | Fin s c e, Fin _ _ t =>
      if negb ((Etiny <=? t) && (t <=? Emax)) then Raise InvalidOperation
      else if (c =? 0)%N then Ok (Fin s 0 t)
      else
        let adjusted := e + ndigits c - 1 in
        if Emax <? adjusted then Raise InvalidOperation
        else if prec <? adjusted - t + 1 then Raise InvalidOperation
        else
          let c' := _rescale c e t in
          if Emax <? t + ndigits c' - 1 then Raise InvalidOperation
          else if prec <? ndigits c' then Raise InvalidOperation
          else Ok (Fin s c' t)
  end.

Definition sign_text (neg : bool) : list ascii :=
  if neg then ["-"%char] else [].

(** [format(d, "f")]: no exponent, every digit of the coefficient. *)
Definition format_f (d : Decimal) : string :=
  string_of_list_ascii
    match d with
    | NaN s sig p =>
        sign_text s ++ (if sig then ["s"%char] else []) ++ ["N"; "a"; "N"]%char
          ++ (if (p =? 0)%N then [] else N_digits p)
    | Inf s => sign_text s ++ list_ascii_of_string "Infinity"
    | Fin s c e =>
        let e := if (c =? 0)%N && (0 <? e) then 0 else e in
        let ds := N_digits c in
        let len := Z.of_nat (length ds) in
        let dotplace := e + len in
        if dotplace <? 0 then
          sign_text s ++ ["0"; "."]%char ++ zeros (Z.to_nat (- dotplace)) ++ ds
        else if len <? dotplace then
          sign_text s ++ ds ++ zeros (Z.to_nat (dotplace - len))
        else
          let ip := firstn (Z.to_nat dotplace) ds in
          let fp := skipn (Z.to_nat dotplace) ds in
          sign_text s
            ++ (match ip with [] => ["0"%char] | _ => ip end)
            ++ (match fp with [] => [] | _ => "."%char :: fp end)
    end.

(** ** Python values *)

(** What [json.loads] produces. A dict is the list of its items, keys
    distinct, in insertion order.  An int is one that [str] turns into
    text (the interpreter refuses to convert, in either direction, an int
    of more digits than its limit, 4300 by default). *)
#[warnings="-register-all"]
Inductive value :=
| VNone
| VBool (b : bool)
| VInt (n : Z)
| VFloat (repr : string)
| VStr (s : string)
| VList (xs : list value)
| VDict (items : list (string * value)).

Definition dict := list (string * value).

(** [d.get(key)] *)
Fixpoint get (d : dict) (key : string) : value :=
  match d with
  | [] => VNone
  | (k, v) :: r => if String.eqb k key then v else get r key
  end.

(** [key in d] *)
Fixpoint contains (d : dict) (key : string) : bool :=
  match d with
  | [] => false
  | (k, _) :: r => String.eqb k key || contains r key
  end.

(** Truth value of an object. *)
Definition truthy (v : value) : bool :=
  match v with
  | VNone => false
  | VBool b => b
  | VInt n => negb (n =? 0)
  | VFloat r => negb (String.eqb r "0.0" || String.eqb r "-0.0")
  | VStr s => negb (String.eqb s "")
  | VList xs => match xs with [] => false | _ => true end
  | VDict kvs => match kvs with [] => false | _ => true end
  end.

(** [a or b] *)
Definition py_or (a b : value) : value := if truthy a then a else b.

Definition hex_digit (n : N) : ascii :=
  if (n <? 10)%N then ascii_of_N (48 + n) else ascii_of_N (87 + n).

(** One character of [repr(s)] inside the quote [q].  The characters that
    are not printable are escaped: the controls (0-31, 127-159), the
    no-break space (160) and the soft hyphen (173). *)
Definition repr_char (q c : ascii) : list ascii :=
  let n := N_of_ascii c in
  if Ascii.eqb c q || Ascii.eqb c "\" then ["\"%char; c]
  else if (n =? 9)%N then ["\"; "t"]%char
  else if (n =? 10)%N then ["\"; "n"]%char
  else if (n =? 13)%N then ["\"; "r"]%char
  else if (n <? 32)%N || ((127 <=? n) && (n <=? 160))%N || (n =? 173)%N then
    ["\"; "x"]%char ++ [hex_digit (n / 16); hex_digit (n mod 16)]
  else [c].

(** The double quote character (code 34). *)
Definition dquote : ascii := ascii_of_N 34.

(** [repr(s)] of a string: single quotes, unless the string has a single
    quote and no double quote. *)
Definition str_repr (s : string) : list ascii :=
  let cs := list_ascii_of_string s in
  let q :=
    if existsb (Ascii.eqb "'") cs && negb (existsb (Ascii.eqb dquote) cs)
    then dquote else "'"%char in
  q :: concat (map (repr_char q) cs) ++ [q].

(** [str(n)] of an int. *)
Definition int_str (n : Z) : list ascii :=
  (if n <? 0 then ["-"%char] else []) ++ N_digits (Z.abs_N n).

Fixpoint join (sep : list ascii) (parts : list (list ascii)) : list ascii :=
  match parts with
  | [] => []
  | [p] => p
  | p :: r => p ++ sep ++ join sep r
  end.

Fixpoint py_repr (v : value) : list ascii :=
  match v with
  | VNone => list_ascii_of_string "None"
  | VBool b => list_ascii_of_string (if b then "True" else "False")
  | VInt n => int_str n
  | VFloat r => list_ascii_of_string r
  | VStr s => str_repr s
  | VList xs => "["%char :: join [","; " "]%char (map py_repr xs) ++ ["]"%char]
  | VDict kvs =>
      "{"%char ::
        join [","; " "]%char
          (map (fun kv => str_repr (fst kv) ++ [":"; " "]%char ++ py_repr (snd kv)) kvs)
        ++ ["}"%char]
  end.

(** [str(v)] *)
Definition py_str (v : value) : string :=
  match v with
  | VStr s => s
  | _ => string_of_list_ascii (py_repr v)
  end.

(** ** Numeric decoding: [_to_decimal], [_price_key] *)

(** The argument of [_to_decimal] is a decoded value (or a dict key, a
    string) or, from [_price_key], a Decimal. *)
Inductive any :=
| OfValue (v : value)
| OfDecimal (d : Decimal).

(** [_to_decimal(value)] with the default ["0"].  [str] of a Decimal is
    its scientific string, which [Decimal] reads back as the same Decimal
    (sign, coefficient and exponent), so that case is the identity. *)
Definition _to_decimal (value : any) : Decimal :=
  match value with
  | OfDecimal d => d
  | OfValue v =>
      match Decimal_of_string (py_str v) with
      | Some d => d
      | None => Decimal_0
      end
  end.

(** The same function as it is written, with the exceptions of its parts.
    [Decimal(s)] raises InvalidOperation on a text that it does not read. *)
Definition Decimal_new (s : string) : result Decimal :=
  match Decimal_of_string s with
  | Some d => Ok d
  | None => Raise InvalidOperation
  end.

(** [Decimal(str(value))], line 90. *)
Definition Decimal_str (value : any) : result Decimal :=
  match value with
  | OfDecimal d => Ok d
  | OfValue v => Decimal_new (py_str v)
  end.

(** The [except] clause of line 91: InvalidOperation, ValueError (with its
    subclasses) and TypeError. *)
Definition decode_handled (e : exn) : bool :=
  match e with
  | InvalidOperation | ValueError | JSONDecodeError | TypeError => true
  | _ => false
  end.

(** The body of [_to_decimal] (lines 89-92), for the text [default]. *)
Definition _to_decimal_body (value : any) (default : string) : result Decimal :=
  match Decimal_str value with
  | Ok d => Ok d
  | Raise e => if decode_handled e then Decimal_new default else Raise e
  end.

(** [Decimal("0.0001")] *)
Definition Decimal_0_0001 : Decimal := Fin false 1 (-4).

Definition _price_key (value : any) : result string :=
  q <-- quantize (_to_decimal value) Decimal_0_0001;
  Ok (format_f q).

(** [size > 0] *)
Definition gt_0 (size : Decimal) : result bool := dec_gt size Decimal_0.

Definition is_dict (v : value) : option dict :=
  match v with VDict kvs => Some kvs | _ => None end.

Definition _iter_levels (levels : value) : list dict :=
  match levels with
  | VList xs => omap is_dict xs
  | _ => []
  end.

(** ** Side maps *)

(** A [dict[str, Decimal]]: its items in insertion order, keys distinct. *)
Definition side_map := list (string * Decimal).

(** [m[key] = v]: an existing key keeps its place. *)
Fixpoint setitem (m : side_map) (key : string) (v : Decimal) : side_map :=
  match m with
  | [] => [(key, v)]
  | (k, x) :: r =>
      if String.eqb k key then (k, v) :: r else (k, x) :: setitem r key v
  end.

(** [m.get(key)] *)
Fixpoint getitem (m : side_map) (key : string) : option Decimal :=
  match m with
  | [] => None
  | (k, x) :: r => if String.eqb k key then Some x else getitem r key
  end.

(** [max(xs)] and [min(xs)]: the first greatest (least) element, found
    with [>] (with [<]). *)
Fixpoint max_from (cur : Decimal) (rest : list Decimal) : result Decimal :=
  match rest with
  | [] => Ok cur
  | x :: r => b <-- dec_gt x cur; max_from (if b then x else cur) r
  end.

Fixpoint min_from (cur : Decimal) (rest : list Decimal) : result Decimal :=
  match rest with
  | [] => Ok cur
  | x :: r => b <-- dec_lt x cur; min_from (if b then x else cur) r
  end.

Definition py_max (xs : list Decimal) : result Decimal :=
  match xs with
  | [] => Raise ValueError
  | x :: r => max_from x r
  end.

Definition py_min (xs : list Decimal) : result Decimal :=
  match xs with
  | [] => Raise ValueError
  | x :: r => min_from x r
  end.

(** The prices of a side map: [_to_decimal(p) for p in m]. *)
Definition parsed_prices (m : side_map) : list Decimal :=
  map (fun kv => _to_decimal (OfValue (VStr (fst kv)))) m.

(** ** Level accessors: [_levels_desc], [_levels_asc] *)

Definition row := (Decimal * Decimal)%type.

(** [[(_to_decimal(price), size) for price, size in m.items() if size > 0]] *)
Fixpoint level_rows (m : side_map) : result (list row) :=
  match m with
  | [] => Ok []
  | (price, size) :: r =>
      b <-- gt_0 size;
      rows <-- level_rows r;
      Ok (if b then (_to_decimal (OfValue (VStr price)), size) :: rows else rows)
  end.

(** [list.sort] is stable and compares keys with [<] only; each element
    of a list of two or more is compared at least once. It is modelled by
    stable insertion. With [reverse=True] equal keys also keep their
    order. *)
Fixpoint insert_desc (x : row) (sorted : list row) : result (list row) :=
  match sorted with
  | [] => Ok [x]
  | y :: ys =>
      b <-- dec_lt (fst x) (fst y);
      if b then (r <-- insert_desc x ys; Ok (y :: r)) else Ok (x :: y :: ys)
  end.

Fixpoint sort_desc (rows : list row) : result (list row) :=
  match rows with
  | [] => Ok []
  | x :: r => s <-- sort_desc r; insert_desc x s
  end.

Fixpoint insert_asc (x : row) (sorted : list row) : result (list row) :=
  match sorted with
  | [] => Ok [x]
  | y :: ys =>
      b <-- dec_lt (fst y) (fst x);
      if b then (r <-- insert_asc x ys; Ok (y :: r)) else Ok (x :: y :: ys)
  end.

Fixpoint sort_asc (rows : list row) : result (list row) :=
  match rows with
  | [] => Ok []
  | x :: r => s <-- sort_asc r; insert_asc x s
  end.

(** [rows[:depth]]: a negative [depth] counts from the end. *)
Definition slice_to {A} (rows : list A) (depth : Z) : list A :=
  if 0 <=? depth then firstn (Z.to_nat depth) rows
  else firstn (Z.to_nat (Z.of_nat (length rows) + depth)) rows.

Definition _levels_desc (level_map : side_map) (depth : Z) : result (list row) :=
  rows <-- level_rows level_map;
  rows <-- sort_desc rows;
  Ok (slice_to rows depth).

Definition _levels_asc (level_map : side_map) (depth : Z) : result (list row) :=
  rows <-- level_rows level_map;
  rows <-- sort_asc rows;
  Ok (slice_to rows depth).

(** ** Order-book state *)

(** The per-instrument dict [{"asks", "bids", "best_bid", "best_ask"}]. *)
Record book_state := {
  asks : side_map;
  bids : side_map;
  best_bid : option Decimal;
  best_ask : option Decimal
}.

Definition empty_state : book_state :=
  {| asks := []; bids := []; best_bid := None; best_ask := None |}.

(** One loop of [_apply_book_snapshot]: the fresh map of one side. *)
Fixpoint build_side (lvls : list dict) (m : side_map) : result side_map :=
  match lvls with
  | [] => Ok m
  | lvl :: rest =>
      let price := _to_decimal (OfValue (get lvl "price")) in
      let size := _to_decimal (OfValue (get lvl "size")) in
      b <-- gt_0 size;
      if b then (k <-- _price_key (OfDecimal price); build_side rest (setitem m k size))
      else build_side rest m
  end.

Definition _apply_book_snapshot (state : book_state) (msg : dict) : result book_state :=
  bids_map <-- build_side (_iter_levels (py_or (get msg "bids") (get msg "buys"))) [];
  asks_map <-- build_side (_iter_levels (py_or (get msg "asks") (get msg "sells"))) [];
  bb <-- match bids_map with
         | [] => Ok (best_bid state)
         | _ => m <-- py_max (parsed_prices bids_map); Ok (Some m)
         end;
  ba <-- match asks_map with
         | [] => Ok (best_ask state)
         | _ => m <-- py_min (parsed_prices asks_map); Ok (Some m)
         end;
  Ok {| asks := asks_map; bids := bids_map; best_bid := bb; best_ask := ba |}.

(** The tracked instruments: token id to state. *)
Abbreviation books_t := (gmap string book_state).

(** [str(item.get(key) or "")] *)
Definition str_field (d : dict) (key : string) : string :=
  py_str (py_or (get d key) (VStr "")).

Definition is_None (v : value) : bool :=
  match v with VNone => true | _ => false end.

(** The body of the loop of [_apply_price_change], for one change record. *)
Definition price_change_item (acc : books_t * bool) (item : dict) : books_t * bool :=
  let '(books, changed) := acc in
  let token_id := str_field item "asset_id" in
  match books !! token_id with
  | None => (books, changed)
  | Some state =>
      let best_bid_raw := get item "best_bid" in
      let best_ask_raw := get item "best_ask" in
      let state1 :=
        if is_None best_bid_raw then state
        else {| asks := asks state; bids := bids state;
                best_bid := Some (_to_decimal (OfValue best_bid_raw));
                best_ask := best_ask state |} in
      let state2 :=
        if is_None best_ask_raw then state1
        else {| asks := asks state1; bids := bids state1;
                best_bid := best_bid state1;
                best_ask := Some (_to_decimal (OfValue best_ask_raw)) |} in
      (<[token_id := state2]> books,
       changed || negb (is_None best_bid_raw) || negb (is_None best_ask_raw))
  end.

Definition _apply_price_change (books : books_t) (msg : dict) : books_t * bool :=
  fold_left price_change_item (_iter_levels (get msg "price_changes")) (books, false).

(** ** The read side: [_build_outcome_panel] *)

(** The condition of line 197: [best_bid is not None and best_ask is not
    None and best_ask >= best_bid]. *)
Definition spread_guard (state : book_state) : result bool :=
  match best_bid state, best_ask state with
  | Some bb, Some ba => dec_ge ba bb
  | _, _ => Ok false
  end.

(** What the panel of one instrument is built from.  [spread_mid] is what
    lines 198-201 leave, [None] when they are not run and both texts stay
    ["-"]; [side_table] is the table of line 213. *)
Record panel (T S : Type) := {
  panel_asks : list row;
  panel_bids : list row;
  panel_best_bid : option Decimal;
  panel_best_ask : option Decimal;
  spread_mid : option T;
  side_table : S
}.
Arguments panel_asks {T S} p.
Arguments panel_bids {T S} p.
Arguments panel_best_bid {T S} p.
Arguments panel_best_ask {T S} p.
Arguments spread_mid {T S} p.
Arguments side_table {T S} p.

(** [_build_outcome_panel] (lines 190-216).  Two of its parts are
    parameters, each a function that returns or raises:
    [spread_mid_texts best_ask best_bid] stands for the statements of
    lines 198-201 (the arithmetic of spread and mid, [quantize] and the
    texts), and [build_side_table outcome asks bids best_bid best_ask] for
    the call of line 213.  The subtitle (the one place where [token_id]
    is used), the title and the widgets around them are constructors. *)
Definition _build_outcome_panel {T S : Type}
    (spread_mid_texts : Decimal -> Decimal -> result T)
    (build_side_table :
       string -> list row -> list row -> option Decimal -> option Decimal -> result S)
    (outcome : string) (state : book_state) (depth : Z) : result (panel T S) :=
  asc <-- _levels_asc (asks state) depth;
  desc <-- _levels_desc (bids state) depth;
  guard <-- spread_guard state;
  derived <-- match guard, best_bid state, best_ask state with
              | true, Some bb, Some ba =>
                  texts <-- spread_mid_texts ba bb; Ok (Some texts)
              | _, _, _ => Ok None
              end;
  table <-- build_side_table outcome (rev asc) desc (best_bid state) (best_ask state);
  Ok {| panel_asks := rev asc; panel_bids := desc;
        panel_best_bid := best_bid state; panel_best_ask := best_ask state;
        spread_mid := derived; side_table := table |}.

(** ** The stream: [stream_market_orderbook] *)

(** The test of line 360. *)
Definition is_book (msg : dict) : bool :=
  String.eqb (str_field msg "event_type") "book"
  || (contains msg "asset_id" && (contains msg "bids" || contains msg "asks")).

(** The body of the loop over the items of a frame (lines 358-368), with
    the running [changed] flag. *)
Definition process_msg (acc : books_t * bool) (msg : dict) : result (books_t * bool) :=
  let '(books, changed) := acc in
  if is_book msg then
    let token_id := str_field msg "asset_id" in
    match books !! token_id with
    | Some state =>
        state' <-- _apply_book_snapshot state msg;
        Ok (<[token_id := state']> books, true)
    | None => Ok (books, changed)
    end
  else if String.eqb (str_field msg "event_type") "price_change" then
    let '(books', c) := _apply_price_change books msg in
    Ok (books', changed || c)
  else Ok (books, changed).

Fixpoint process_items (acc : books_t * bool) (items : list dict) : result (books_t * bool) :=
  match items with
  | [] => Ok acc
  | msg :: rest => acc' <-- process_msg acc msg; process_items acc' rest
  end.

(** A decoded payload (lines 349-368): the new books and whether anything
    changed. *)
Definition process_payload (books : books_t) (payload : value) : result (books_t * bool) :=
  match payload with
  | VList xs => process_items (books, false) (omap is_dict xs)
  | VDict msg => process_items (books, false) [msg]
  | _ => Ok (books, false)
  end.

(** A text frame, as [json.loads] sees it. *)
Inductive frame :=
| Malformed
| Json (payload : value).

(** [json.loads(raw)] followed by the processing of the payload. *)
Definition process_frame (books : books_t) (raw : frame) : result (books_t * bool) :=
  match raw with
  | Malformed => Raise JSONDecodeError
  | Json payload => process_payload books payload
  end.

(** Where the coroutine is suspended: in [websockets.connect], in
    [ws.send], in [ws.recv], or in [asyncio.sleep]. *)
Inductive phase :=
| Connecting
| Subscribing
| Streaming
| Backoff.

(** The local state of the running coroutine. [reconnect_delay] only ever
    holds 1.0, 2.0, 4.0, 8.0, 16.0 or 30.0, which floats represent
    exactly; it is counted in seconds. [sleeps] records the delays slept
    so far, oldest first. *)
Record running := {
  at_ : phase;
  reconnect_delay : Z;
  books : books_t;
  sleeps : list Z
}.

(** A session is running, or has ended with an exception. *)
Inductive session :=
| Running (st : running)
| Terminated (e : exn).

(** What the awaited operation does.  [Failed e]: it raises [e]; in the
    streaming phase this is also the display raising [e] after a frame. *)
Inductive event :=
| Connected
| Sent
| Received (raw : frame)
| Failed (e : exn)
| Woke.

(** The [except] clause of line 384. *)
Definition caught (e : exn) : bool :=
  match e with
  | ConnectionClosed | OSError | TimeoutError => true
  | _ => false
  end.

(** An exception inside the [try]: the handler goes to sleep for
    [reconnect_delay], or the exception leaves the coroutine. *)
Definition on_exception (st : running) (e : exn) : session :=
  if caught e then
    Running {| at_ := Backoff; reconnect_delay := reconnect_delay st;
               books := books st; sleeps := sleeps st ++ [reconnect_delay st] |}
  else Terminated e.

Definition step (st : running) (ev : event) : option session :=
  match at_ st, ev with
  | Connecting, Connected =>
      Some (Running {| at_ := Subscribing; reconnect_delay := reconnect_delay st;
                       books := books st; sleeps := sleeps st |})
  | Subscribing, Sent =>
      Some (Running {| at_ := Streaming; reconnect_delay := 1;
                       books := books st; sleeps := sleeps st |})
  | Streaming, Received raw =>
      match process_frame (books st) raw with
      | Ok (books', _) =>
          Some (Running {| at_ := Streaming; reconnect_delay := reconnect_delay st;
                           books := books'; sleeps := sleeps st |})
      | Raise e => Some (on_exception st e)
      end
  | Connecting, Failed e | Subscribing, Failed e | Streaming, Failed e =>
      Some (on_exception st e)
  | Backoff, Woke =>
      Some (Running {| at_ := Connecting;
                       reconnect_delay := Z.min 30 (reconnect_delay st * 2);
                       books := books st; sleeps := sleeps st |})
  | _, _ => None
  end.

(** A run over a list of events; [None] when an event does not answer
    the operation the coroutine is waiting for, or comes after its end. *)
Fixpoint run (s : session) (evs : list event) : option session :=
  match evs with
  | [] => Some s
  | ev :: rest =>
      match s with
      | Running st =>
          match step st ev with
          | Some s' => run s' rest
          | None => None
          end
      | Terminated _ => None
      end
  end.

(** The state at line 338: every token with an empty book. *)
Definition start (token_ids : list string) : session :=
  Running {| at_ := Connecting; reconnect_delay := 1;
             books := list_to_map (map (fun t => (t, empty_state)) token_ids);
             sleeps := [] |}.

(** The coroutine, run against the answers [evs] of its awaited
    operations. *)
Definition stream_market_orderbook (token_ids : list string) (evs : list event)
  : option session :=
  run (start token_ids) evs.

Definition reachable (s : session) : Prop :=
  exists token_ids evs, stream_market_orderbook token_ids evs = Some s.

(** ** Vocabulary of the properties *)

Inductive side := Bid | Ask.

Definition other (s : side) : side :=
  match s with Bid => Ask | Ask => Bid end.

(** The side list a snapshot reads for a side, and whether the frame
    carries a field for it. *)
Definition side_list (msg : dict) (s : side) : value :=
  match s with
  | Bid => py_or (get msg "bids") (get msg "buys")
  | Ask => py_or (get msg "asks") (get msg "sells")
  end.

Definition side_present (msg : dict) (s : side) : bool :=
  match s with
  | Bid => contains msg "bids" || contains msg "buys"
  | Ask => contains msg "asks" || contains msg "sells"
  end.

Definition levels_of (st : book_state) (s : side) : side_map :=
  match s with Bid => bids st | Ask => asks st end.

Definition best_of (st : book_state) (s : side) : option Decimal :=
  match s with Bid => best_bid st | Ask => best_ask st end.

(** A value that [Decimal(str(value))] rejects. *)
Definition unparsable (v : value) : Prop :=
  Decimal_of_string (py_str v) = None.

(** [m] is a greatest (least) element of [xs]: it occurs in [xs] and no
    element of [xs] tests greater (less) than it. *)
Definition is_max (m : Decimal) (xs : list Decimal) : Prop :=
  In m xs /\ forall x, In x xs -> dec_gt x m <> Ok true.

Definition is_min (m : Decimal) (xs : list Decimal) : Prop :=
  In m xs /\ forall x, In x xs -> dec_lt x m <> Ok true.

(** Every size stored in a side map, in a book, is greater than 0. *)
Definition sizes_positive (m : side_map) : Prop :=
  Forall (fun kv => gt_0 (snd kv) = Ok true) m.

Definition books_positive (bs : books_t) : Prop :=
  forall token_id st, bs !! token_id = Some st ->
    sizes_positive (bids st) /\ sizes_positive (asks st).

Definition session_positive (s : session) : Prop :=
  match s with
  | Running st => books_positive (books st)
  | Terminated _ => True
  end.

(** Numeric equality of two Decimals, neither a NaN (Python's [==]). *)
Definition num_eq (a b : Decimal) : Prop :=
  is_nan a = false /\ is_nan b = false /\ _cmp a b = Eq.

Definition sign_of (d : Decimal) : bool :=
  match d with
  | Fin s _ _ => s
  | Inf s => s
  | NaN s _ _ => s
  end.

(** The price and size of a level entry, as the snapshot decodes them. *)
Definition level_price (lvl : dict) : Decimal := _to_decimal (OfValue (get lvl "price")).
Definition level_size (lvl : dict) : Decimal := _to_decimal (OfValue (get lvl "size")).

(** No two prices of the list are numerically equal. *)
Inductive no_ties : list Decimal -> Prop :=
| no_ties_nil : no_ties []
| no_ties_cons x l :
    (forall y, In y l -> _cmp x y <> Eq) -> no_ties l -> no_ties (x :: l).

(** Rows in descending (ascending) price order: no row is less (greater)
    than a later one; strictly: every row is greater (less) than every
    later one. *)
Definition ge_price (x y : row) : Prop := dec_lt (fst x) (fst y) = Ok false.
Definition le_price (x y : row) : Prop := dec_lt (fst y) (fst x) = Ok false.
Definition gt_price (x y : row) : Prop := dec_gt (fst x) (fst y) = Ok true.
Definition lt_price (x y : row) : Prop := dec_lt (fst x) (fst y) = Ok true.

(** The levels of a side map that have a size greater than 0, in the
    order of the map, each with its parsed price. *)
Definition is_positive (d : Decimal) : bool :=
  match gt_0 d with Ok true => true | _ => false end.

Definition positive_levels (m : side_map) : list row :=
  map (fun kv => (_to_decimal (OfValue (VStr (fst kv))), snd kv))
      (List.filter (fun kv => is_positive (snd kv)) m).

(** A state none of whose keys, sizes and best prices is a NaN. *)
Definition nan_free_map (m : side_map) : Prop :=
  Forall (fun kv => is_nan (_to_decimal (OfValue (VStr (fst kv)))) = false
                    /\ is_nan (snd kv) = false) m.

Definition nan_free_best (b : option Decimal) : Prop :=
  match b with Some d => is_nan d = false | None => True end.

(** Consecutive failures after the stream was up: [ws.recv] fails, then
    each reconnect attempt fails in [connect] ([false]) or, once
    connected, in [send] ([true]); the handler sleeps after each. *)
Definition attempt (a : bool * exn) : list event :=
  (if fst a then [Connected] else []) ++ [Failed (snd a); Woke].

Definition failures (e : exn) (attempts : list (bool * exn)) : list event :=
  Failed e :: Woke :: concat (map attempt attempts).

(** The delay slept at the [k]-th consecutive failure, counted from 0. *)
Definition backoff (k : nat) : Z := Z.min 30 (2 ^ Z.of_nat k).

(** What the loop maintains about its delay: it lies between 1 and 30,
    so did every delay slept, and it is 1 while the stream is up. *)
Definition delay_ok (s : session) : Prop :=
  match s with
  | Running st =>
      1 <= reconnect_delay st <= 30
      /\ Forall (fun d => 1 <= d <= 30) (sleeps st)
      /\ (at_ st = Streaming -> reconnect_delay st = 1)
  | Terminated _ => True
  end.

(** The state after [n] further failed attempts, back in [connect]. *)
Definition after_failures (st : running) (n : nat) : running :=
  {| at_ := Connecting;
     reconnect_delay := backoff (S n);
     books := books st;
     sleeps := sleeps st ++ map backoff (seq 0 (S n)) |}.

(** ** Sample frames and states *)

Definition level_entry (price size : string) : dict :=
  [("price"%string, VStr price); ("size"%string, VStr size)].

Definition level (price size : string) : value := VDict (level_entry price size).

(** [{"event_type": "book", "asset_id": "X", "bids": [0.45 x 10, 0.40 x 0],
    "asks": [0.55 x 5]}] *)
Definition book_frame : dict :=
  [("event_type"%string, VStr "book"); ("asset_id"%string, VStr "X");
   ("bids"%string, VList [level "0.45" "10"; level "0.40" "0"]);
   ("asks"%string, VList [level "0.55" "5"])].

(** The state that [book_frame] leaves. *)
Definition book_state_1 : book_state :=
  {| asks := [("0.5500"%string, Fin false 5 0)];
     bids := [("0.4500"%string, Fin false 10 0)];
     best_bid := Some (Fin false 4500 (-4));
     best_ask := Some (Fin false 5500 (-4)) |}.

(** A snapshot with a bids list and nothing for the asks. *)
Definition bids_only_frame : dict :=
  [("event_type"%string, VStr "book"); ("asset_id"%string, VStr "X");
   ("bids"%string, VList [level "0.46" "7"])].

(** No event type; the side list is under ["buys"]. *)
Definition buys_only_frame : dict :=
  [("asset_id"%string, VStr "X"); ("buys"%string, VList [level "0.45" "10"])].

(** Two bids, at the prices 0 and -0. *)
Definition zero_prices_frame : dict :=
  [("event_type"%string, VStr "book"); ("asset_id"%string, VStr "X");
   ("bids"%string, VList [level "0" "1"; level "-0" "2"])].

Definition zero_prices_state : book_state :=
  {| asks := [];
     bids := [("0.0000"%string, Fin false 1 0); ("-0.0000"%string, Fin false 2 0)];
     best_bid := Some (Fin false 0 (-4));
     best_ask := None |}.

(** [{"event_type": "price_change", "price_changes": [{"asset_id": "X",
    "best_bid": "0.46"}]}] *)
Definition price_change_frame : dict :=
  [("event_type"%string, VStr "price_change");
   ("price_changes"%string,
    VList [VDict [("asset_id"%string, VStr "X"); ("best_bid"%string, VStr "0.46")]])].

(** A price change that carries a NaN as best bid. *)
Definition nan_price_change_frame : dict :=
  [("event_type"%string, VStr "price_change");
   ("price_changes"%string,
    VList [VDict [("asset_id"%string, VStr "X"); ("best_bid"%string, VStr "NaN");
                  ("best_ask"%string, VStr "0.5")]])].

Definition nan_best_state : book_state :=
  {| asks := []; bids := [];
     best_bid := Some (NaN false false 0);
     best_ask := Some (Fin false 5 (-1)) |}.

Definition streaming_X (bs : book_state) : running :=
  {| at_ := Streaming; reconnect_delay := 1;
     books := {[ "X"%string := bs ]}; sleeps := [] |}.

(** ** The command line: [_fit_depth_to_terminal], [_event_slug_from_url],
    [_select_market] *)

(** [rows] is the number of lines that [shutil.get_terminal_size] reports. *)
Definition _fit_depth_to_terminal (rows requested_depth : Z) : Z :=
  let max_per_side := Z.max 4 ((rows - 14) / 2) in
  Z.max 1 (Z.min requested_depth max_per_side).

(** The depth that [main] hands to the stream (line 450), for the value
    of [--depth]. *)
Definition main_depth (rows depth_arg : Z) : Z :=
  _fit_depth_to_terminal rows (Z.max 1 depth_arg).

Fixpoint starts_with (p s : list ascii) : bool :=
  match p, s with
  | [], _ => true
  | a :: p', b :: s' => Ascii.eqb a b && starts_with p' s'
  | _ :: _, [] => false
  end.

(** [s.split(sep, 1)]: what follows the first occurrence of [sep], if
    there is one. *)
Fixpoint after_first (sep s : list ascii) : option (list ascii) :=
  match s with
  | [] => if starts_with sep [] then Some [] else None
  | _ :: r =>
      if starts_with sep s then Some (skipn (length sep) s)
      else after_first sep r
  end.

Fixpoint lstrip_char (c : ascii) (s : list ascii) : list ascii :=
  match s with
  | x :: r => if Ascii.eqb x c then lstrip_char c r else s
  | [] => []
  end.

(** [s.strip(c)] for a single character [c]. *)
Definition strip_char (c : ascii) (s : list ascii) : list ascii :=
  rev (lstrip_char c (rev (lstrip_char c s))).

(** [s.split(c)[0]]: what comes before the first [c]. *)
Fixpoint before_char (c : ascii) (s : list ascii) : list ascii :=
  match s with
  | [] => []
  | x :: r => if Ascii.eqb x c then [] else x :: before_char c r
  end.

Definition _event_slug_from_url (url : string) : string :=
  let s := list_ascii_of_string url in
  let part :=
    match after_first (list_ascii_of_string "/event/") s with
    | Some r => r
    | None => s
    end in
  string_of_list_ascii (before_char "?" (strip_char "/" part)).

(** [s.lower()] and [s.strip()]. *)
Definition py_lower (s : string) : string :=
  string_of_list_ascii (map lower (list_ascii_of_string s)).

Definition py_strip (s : string) : string :=
  string_of_list_ascii (strip (list_ascii_of_string s)).

(** [needle in s] *)
Fixpoint contains_sub (needle s : list ascii) : bool :=
  match s with
  | [] => starts_with needle []
  | _ :: r => starts_with needle s || contains_sub needle r
  end.

(** What [_select_market] does: it returns a market, raises one of its
    four ValueErrors, or fails on an event of another shape (a market that
    is no dict has no [get]: AttributeError; a [markets] value that cannot
    be iterated or indexed: TypeError, KeyError). *)
Inductive selection :=
| Selected (market : value)
| NoMarketsFound
| NoMarketForSlug
| NoMarketForDate
| MultipleMarkets
| OtherError.

(** The loop of lines 55-58. *)
Fixpoint first_with_slug (needle_slug : string) (markets : list value) : selection :=
  match markets with
  | [] => NoMarketForSlug
  | VDict market :: rest =>
      if String.eqb (py_lower (str_field market "slug")) needle_slug
      then Selected (VDict market)
      else first_with_slug needle_slug rest
  | _ :: _ => OtherError
  end.

(** The loop of lines 63-66. *)
Fixpoint first_with_question (needle : string) (markets : list value) : selection :=
  match markets with
  | [] => NoMarketForDate
  | VDict market :: rest =>
      if contains_sub (list_ascii_of_string needle)
           (list_ascii_of_string (py_lower (str_field market "question")))
      then Selected (VDict market)
      else first_with_question needle rest
  | _ :: _ => OtherError
  end.

(** An optional string that is given and not empty. *)
Definition given (s : option string) : option string :=
  match s with
  | Some x => if String.eqb x "" then None else Some x
  | None => None
  end.

Definition is_VDict (v : value) : bool :=
  match v with VDict _ => true | _ => false end.

Definition _select_market (event : dict) (date_text market_slug : option string)
  : selection :=
  let markets := py_or (get event "markets") (VList []) in
  if negb (truthy markets) then NoMarketsFound
  else
    match given market_slug with
    | Some ms =>
        match markets with
        | VList xs => first_with_slug (py_lower (py_strip ms)) xs
        | _ => OtherError
        end
    | None =>
        match given date_text with
        | Some dt =>
            match markets with
            | VList xs => first_with_question (py_lower dt) xs
            | _ => OtherError
            end
        | None =>
            match markets with
            | VList [m] => Selected m
            | VList xs =>
                if forallb is_VDict (firstn 8 xs) then MultipleMarkets
                else OtherError
            | VStr s =>
                if (String.length s =? 1)%nat then Selected (VStr s)
                else OtherError
            | _ => OtherError
            end
        end
    end.

(** ** The dashboard: the labels of [main] and the lookups of
    [_render_dashboard] *)

(** A [dict[str, str]]: its items in insertion order. *)
Definition outcome_map := list (string * string).

(** [m[key] = v]: an existing key keeps its place. *)
Fixpoint set_outcome (m : outcome_map) (key v : string) : outcome_map :=
  match m with
  | [] => [(key, v)]
  | (k, x) :: r =>
      if String.eqb k key then (k, v) :: r else (k, x) :: set_outcome r key v
  end.

(** [outcomes[i] if i < len(outcomes) else f"token_{i}"] *)
Definition label_at (outcomes : list string) (i : nat) : string :=
  match nth_error outcomes i with
  | Some o => o
  | None => String.append "token_" (string_of_list_ascii (N_digits (N.of_nat i)))
  end.

(** The loop of lines 440-442, from index [i] on. *)
Fixpoint label_tokens (i : nat) (token_ids outcomes : list string)
    (acc : outcome_map) : outcome_map :=
  match token_ids with
  | [] => acc
  | token_id :: rest =>
      label_tokens (S i) rest outcomes (set_outcome acc token_id (label_at outcomes i))
  end.

(** The [token_to_outcome] that [main] hands to the stream, from the token
    ids and the outcomes of the market. *)
Definition token_to_outcome (token_ids outcomes : list string) : outcome_map :=
  label_tokens 0 token_ids outcomes [].

(** [sorted(token_to_outcome.items(), key=lambda kv: kv[1].lower())]:
    stable, the keys compared with [<]. *)
Fixpoint insert_by_outcome (x : string * string) (sorted : list (string * string))
  : list (string * string) :=
  match sorted with
  | [] => [x]
  | y :: ys =>
      if String.ltb (py_lower (snd y)) (py_lower (snd x))
      then y :: insert_by_outcome x ys
      else x :: y :: ys
  end.

Fixpoint sorted_by_outcome (items : list (string * string)) : list (string * string) :=
  match items with
  | [] => []
  | x :: r => insert_by_outcome x (sorted_by_outcome r)
  end.

(** The lookups [books[token_id]] of the loop of lines 236-238: the outcome
    and the state that each panel is built from, in the order of the
    panels, or the first token whose lookup raises KeyError (the panels
    themselves, built in between, are left out here). *)
Inductive lookups :=
| Found (states : list (string * book_state))
| KeyError (token_id : string).

Fixpoint lookup_states (books : books_t) (ordered_tokens : list (string * string))
  : lookups :=
  match ordered_tokens with
  | [] => Found []
  | (token_id, outcome) :: rest =>
      match books !! token_id with
      | None => KeyError token_id
      | Some state =>
          match lookup_states books rest with
          | Found states => Found ((outcome, state) :: states)
          | KeyError t => KeyError t
          end
      end
  end.

Definition dashboard_states (books : books_t) (token_to_outcome : outcome_map)
  : lookups :=
  lookup_states books (sorted_by_outcome token_to_outcome).

(** ** A sample event *)

Definition sample_market (slug question : string) : value :=
  VDict [("slug"%string, VStr slug); ("question"%string, VStr question)].

(** An event with two markets. *)
Definition sample_event : dict :=
  [("title"%string, VStr "Strikes");
   ("markets"%string,
    VList [sample_market "Strikes-by-June-5" "Strikes by June 5?";
           sample_market "strikes-by-june-15" "Strikes by June 15?"])].

(** ** Vocabulary of the revised properties *)

(** [v] is a change record that names the token [t] and carries the field
    [f] (with a value that is not null). *)
Definition carries (f t : string) (v : value) : bool :=
  match v with
  | VDict item =>
      String.eqb (str_field item "asset_id") t && negb (is_None (get item f))
  | _ => false
  end.

(** A character with which no numeral begins. *)
Definition opens_no_numeral (c : ascii) : bool :=
  negb (is_digit c || is_space c
        || existsb (Ascii.eqb c) (list_ascii_of_string "+-._iInNsS")).

(** The order of the panels: the lowercased outcome of [a] is not after
    that of [b]. *)
Definition outcome_le (a b : string * string) : Prop :=
  String.ltb (py_lower (snd b)) (py_lower (snd a)) = false.

(** The items of [l] whose lowercased outcome is that of [x], in their
    order. *)
Definition same_outcome (x : string * string) (l : list (string * string))
  : list (string * string) :=
  List.filter (fun y => String.eqb (py_lower (snd y)) (py_lower (snd x))) l.

(** ** Further vocabulary *)

(** A character that [strip] and the removal of underscores leave alone. *)
Definition quiet (c : ascii) : bool :=
  negb (is_space c) && negb (Ascii.eqb c "_").

(** The text [ip.fp] (or [ip] alone when [fp] is empty). *)
Definition fixed_text (neg : bool) (ip fp : list ascii) : list ascii :=
  sign_text neg ++ ip ++ match fp with [] => [] | _ => "."%char :: fp end.

(** A side map whose keys are pairwise distinct and canonical: each is
    the key of its own parsed price. *)
Definition canonical_keys (m : side_map) : Prop :=
  NoDup (map fst m)
  /\ Forall (fun kv => _price_key (OfValue (VStr (fst kv))) = Ok (fst kv)) m.

(** A property of every side map of every instrument. *)
Definition books_all (P : side_map -> Prop) (bs : books_t) : Prop :=
  forall token_id st, bs !! token_id = Some st -> P (bids st) /\ P (asks st).

(** An event that is not a received frame. *)
Definition connection_event (ev : event) : Prop :=
  match ev with Received _ => False | _ => True end.

Definition session_all (P : side_map -> Prop) (s : session) : Prop :=
  match s with
  | Running st => books_all P (books st)
  | Terminated _ => True
  end.

(** The instruments of a running session are the given tokens. *)
Definition session_tracks (token_ids : list string) (s : session) : Prop :=
  match s with
  | Running st => forall t, is_Some (books st !! t) <-> In t token_ids
  | Terminated _ => True
  end.

(** ** Basic facts *)

Lemma bind_Ok {A B} (r : result A) (k : A -> result B) (b : B) :
  bind r k = Ok b -> exists a, r = Ok a /\ k a = Ok b.
Proof. destruct r as [a|e]; simpl; [eauto | discriminate]. Qed.

Ltac inv_bind H :=
  let a := fresh "a" in
  let E := fresh "E" in
  apply bind_Ok in H; destruct H as (a & E & H).

Lemma get_absent (d : dict) (key : string) :
  contains d key = false -> get d key = VNone.
Proof.
  induction d as [|[k v] r IH]; simpl; [reflexivity|].
  destruct (String.eqb k key); simpl; [discriminate | exact IH].
Qed.

Lemma side_list_absent (msg : dict) (s : side) :
  side_present msg s = false -> _iter_levels (side_list msg s) = [].
Proof.
  destruct s; simpl; intros H; apply orb_false_elim in H as [H1 H2];
    rewrite (get_absent _ _ H1), (get_absent _ _ H2); reflexivity.
Qed.

(** What a successful [_apply_book_snapshot] leaves in the state. *)
Lemma apply_snapshot_inv (state : book_state) (msg : dict) (state' : book_state) :
  _apply_book_snapshot state msg = Ok state' ->
  build_side (_iter_levels (side_list msg Bid)) [] = Ok (bids state') /\
  build_side (_iter_levels (side_list msg Ask)) [] = Ok (asks state') /\
  match bids state' with
  | [] => best_bid state' = best_bid state
  | _ => exists m, py_max (parsed_prices (bids state')) = Ok m /\ best_bid state' = Some m
  end /\
  match asks state' with
  | [] => best_ask state' = best_ask state
  | _ => exists m, py_min (parsed_prices (asks state')) = Ok m /\ best_ask state' = Some m
  end.
Proof.
  unfold _apply_book_snapshot. intros H.
  inv_bind H. inv_bind H. inv_bind H. inv_bind H.
  injection H as <-. simpl.
  repeat split; try assumption.
  - destruct a as [|kv r]; [injection E1 as <-; reflexivity|].
    inv_bind E1. injection E1 as <-. eauto.
  - destruct a0 as [|kv r]; [injection E2 as <-; reflexivity|].
    inv_bind E2. injection E2 as <-. eauto.
Qed.

(** ** The numeric order of Decimals *)

Lemma fin_cmp_scale sa ca ea sb cb eb m :
  m <= ea -> m <= eb ->
  _cmp (Fin sa ca ea) (Fin sb cb eb)
  = (signed sa ca * 10 ^ (ea - m) ?= signed sb cb * 10 ^ (eb - m)).
Proof.
  intros Ha Hb. simpl. set (k := Z.min ea eb).
  assert (Hk : m <= k) by (unfold k; lia).
  assert (Hka : k <= ea) by (unfold k; lia).
  assert (Hkb : k <= eb) by (unfold k; lia).
  replace (ea - m) with ((ea - k) + (k - m)) by lia.
  replace (eb - m) with ((eb - k) + (k - m)) by lia.
  rewrite !Z.pow_add_r by lia. rewrite !Z.mul_assoc.
  apply Zmult_compare_compat_r.
  apply Z.lt_gt, Z.pow_pos_nonneg; lia.
Qed.

Lemma cmp_refl a : _cmp a a = Eq.
Proof.
  destruct a as [s c e|[]|]; simpl; try reflexivity. apply Z.compare_refl.
Qed.

Lemma cmp_antisym a b : _cmp b a = CompOpp (_cmp a b).
Proof.
  destruct a as [sa ca ea|[]|], b as [sb cb eb|[]|]; simpl; try reflexivity;
    try (destruct sa; reflexivity); try (destruct sb; reflexivity).
  rewrite (Z.min_comm eb ea). apply Z.compare_antisym.
Qed.

Lemma cmp_le_trans a b c :
  is_nan a = false -> is_nan b = false -> is_nan c = false ->
  _cmp a b <> Gt -> _cmp b c <> Gt -> _cmp a c <> Gt.
Proof.
  destruct a as [sa ca ea|sa|], b as [sb cb eb|sb|], c as [sc cc ec|sc|];
    try discriminate; intros _ _ _;
    try (simpl; repeat match goal with s : bool |- _ => destruct s end;
         simpl; congruence).
  set (m := Z.min ea (Z.min eb ec)).
  rewrite (fin_cmp_scale sa ca ea sb cb eb m) by (unfold m; lia).
  rewrite (fin_cmp_scale sb cb eb sc cc ec m) by (unfold m; lia).
  rewrite (fin_cmp_scale sa ca ea sc cc ec m) by (unfold m; lia).
  rewrite !Z.compare_le_iff. lia.
Qed.

Lemma ordering_Ok test a b r :
  ordering test a b = Ok r ->
  is_nan a = false /\ is_nan b = false /\ r = test (_cmp a b).
Proof.
  unfold ordering. destruct (is_nan a), (is_nan b); simpl; try discriminate.
  intros [= <-]. auto.
Qed.

Lemma ordering_not_nan test a b :
  is_nan a = false -> is_nan b = false -> ordering test a b = Ok (test (_cmp a b)).
Proof. unfold ordering. intros -> ->. reflexivity. Qed.

Lemma dec_gt_Ok a b r :
  dec_gt a b = Ok r ->
  is_nan a = false /\ is_nan b = false /\ (r = true <-> _cmp a b = Gt).
Proof.
  intros H. apply ordering_Ok in H as (Ha & Hb & ->).
  repeat split; trivial; destruct (_cmp a b); congruence.
Qed.

Lemma dec_lt_Ok a b r :
  dec_lt a b = Ok r ->
  is_nan a = false /\ is_nan b = false /\ (r = true <-> _cmp a b = Lt).
Proof.
  intros H. apply ordering_Ok in H as (Ha & Hb & ->).
  repeat split; trivial; destruct (_cmp a b); congruence.
Qed.

Lemma dec_gt_lt a b : dec_gt a b = dec_lt b a.
Proof.
  unfold dec_gt, dec_lt, ordering. rewrite (orb_comm (is_nan b)).
  destruct (is_nan a || is_nan b); [reflexivity|].
  rewrite (cmp_antisym a b). destruct (_cmp a b); reflexivity.
Qed.

(** ** [max] and [min] *)

Lemma cmp_Gt_le a b : _cmp a b = Gt -> _cmp b a <> Gt.
Proof. intros H. rewrite cmp_antisym, H. discriminate. Qed.

Lemma max_from_spec rest : forall cur m,
  max_from cur rest = Ok m -> is_max m (cur :: rest).
Proof.
  induction rest as [|x r IH]; simpl; intros cur m H.
  - injection H as <-. split; [left; reflexivity|].
    intros x [<-|[]] Hx. apply dec_gt_Ok in Hx as (_ & _ & Hx).
    rewrite cmp_refl in Hx. destruct Hx as [Hx _]. discriminate (Hx eq_refl).
  - inv_bind H. rename a into b.
    destruct (IH _ _ H) as [Hin Hub].
    apply dec_gt_Ok in E as (Hx & Hcur & Hb).
    split.
    + destruct Hin as [<-|Hin]; [destruct b|]; simpl; auto.
    + intros y Hy Hgt. apply dec_gt_Ok in Hgt as (Hny & Hm & Hgt).
      destruct Hgt as [Hgt _]. specialize (Hgt eq_refl).
      assert (Hle : forall z, In z ((if b then x else cur) :: r) ->
                              is_nan z = false -> _cmp z m <> Gt).
      { intros z Hz Hnz Hg. apply (Hub z Hz).
        unfold dec_gt. rewrite ordering_not_nan, Hg by assumption. reflexivity. }
      assert (Hc : _cmp (if b then x else cur) m <> Gt).
      { apply Hle; [left; reflexivity | destruct b; assumption]. }
      destruct Hy as [Hy|[Hy|Hy]].
      * subst y. destruct b; [|exact (Hc Hgt)].
        apply (cmp_le_trans cur x m Hcur Hx Hm); trivial.
        apply cmp_Gt_le, Hb. reflexivity.
      * subst y. destruct b; [exact (Hc Hgt)|].
        apply (cmp_le_trans x cur m Hx Hcur Hm); trivial.
        intros Hg. apply Hb in Hg. discriminate.
      * exact (Hle y (or_intror Hy) Hny Hgt).
Qed.

Lemma min_from_spec rest : forall cur m,
  min_from cur rest = Ok m -> is_min m (cur :: rest).
Proof.
  induction rest as [|x r IH]; simpl; intros cur m H.
  - injection H as <-. split; [left; reflexivity|].
    intros x [<-|[]] Hx. apply dec_lt_Ok in Hx as (_ & _ & Hx).
    rewrite cmp_refl in Hx. destruct Hx as [Hx _]. discriminate (Hx eq_refl).
  - inv_bind H. rename a into b.
    destruct (IH _ _ H) as [Hin Hlb].
    apply dec_lt_Ok in E as (Hx & Hcur & Hb).
    split.
    + destruct Hin as [<-|Hin]; [destruct b|]; simpl; auto.
    + intros y Hy Hlt. apply dec_lt_Ok in Hlt as (Hny & Hm & Hlt).
      destruct Hlt as [Hlt _]. specialize (Hlt eq_refl).
      assert (Hgoal : _cmp m y <> Gt);
        [|apply Hgoal; rewrite cmp_antisym, Hlt; reflexivity].
      assert (Hle : forall z, In z ((if b then x else cur) :: r) ->
                              is_nan z = false -> _cmp m z <> Gt).
      { intros z Hz Hnz Hg. apply (Hlb z Hz).
        unfold dec_lt. rewrite ordering_not_nan by assumption.
        rewrite (cmp_antisym m z), Hg. reflexivity. }
      assert (Hc : _cmp m (if b then x else cur) <> Gt).
      { apply Hle; [left; reflexivity | destruct b; assumption]. }
      destruct Hy as [Hy|[Hy|Hy]].
      * subst y. destruct b; [|exact Hc].
        apply (cmp_le_trans m x cur Hm Hx Hcur); trivial.
        destruct Hb as [Hb _]. rewrite (Hb eq_refl). discriminate.
      * subst y. destruct b; [exact Hc|].
        apply (cmp_le_trans m cur x Hm Hcur Hx); trivial.
        rewrite cmp_antisym. destruct (_cmp x cur) eqn:Ex; simpl; try discriminate.
        destruct Hb as [_ Hb]. discriminate (Hb eq_refl).
      * exact (Hle y (or_intror Hy) Hny).
Qed.

(** ** Malformed frames *)

(** C1 (the code departs from the claim): a frame that [json.loads]
    rejects is not discarded. [JSONDecodeError] is not among the exceptions
    of the [except] clause, so from the streaming state the coroutine ends
    with that exception; there is no next frame. *)
Theorem malformed_frame_ends_stream (st : running) :
  at_ st = Streaming ->
  step st (Received Malformed) = Some (Terminated JSONDecodeError)
  /\ run (Running st) [Received Malformed; Received Malformed] = None.
Proof.
  intros H. unfold run, step. rewrite H. simpl. split; reflexivity.
Qed.

(** The state reached from the start by a connect and a send. *)
Lemma malformed_frame_ends_stream_witness :
  run (start ["X"%string]) [Connected; Sent] = Some (Running (streaming_X empty_state))
  /\ step (streaming_X empty_state) (Received Malformed)
     = Some (Terminated JSONDecodeError).
Proof.
  split; [reflexivity|].
  exact (proj1 (malformed_frame_ends_stream (streaming_X empty_state) eq_refl)).
Defined.

(** ** Snapshots *)

(** C2 (as amended): a snapshot always assigns both side maps. When the
    frame carries no field for one side, the side that is present is
    replaced by the freshly built map, the other side map becomes empty,
    and the best price of that other side is kept. *)
Theorem snapshot_one_side (s : side) (state : book_state) (msg : dict) (state' : book_state) :
  side_present msg (other s) = false ->
  _apply_book_snapshot state msg = Ok state' ->
  build_side (_iter_levels (side_list msg s)) [] = Ok (levels_of state' s)
  /\ levels_of state' (other s) = []
  /\ best_of state' (other s) = best_of state (other s).
Proof.
  intros Habs H. apply apply_snapshot_inv in H as (Hb & Ha & Hbb & Hba).
  pose proof (side_list_absent _ _ Habs) as Hnil.
  destruct s; simpl in *.
  - rewrite Hnil in Ha. simpl in Ha. injection Ha as Ha.
    rewrite <- Ha in *. auto.
  - rewrite Hnil in Hb. simpl in Hb. injection Hb as Hb.
    rewrite <- Hb in *. auto.
Qed.

(** C3: after a snapshot has been applied, the best bid is a greatest
    parsed price of the new bids map when that map is not empty, and is the
    previous best bid when it is empty; the best ask is a least parsed
    price of the new asks map, or the previous best ask. *)
Theorem snapshot_best_prices (state : book_state) (msg : dict) (state' : book_state) :
  _apply_book_snapshot state msg = Ok state' ->
  build_side (_iter_levels (side_list msg Bid)) [] = Ok (bids state')
  /\ build_side (_iter_levels (side_list msg Ask)) [] = Ok (asks state')
  /\ (bids state' <> [] ->
      exists m, best_bid state' = Some m /\ is_max m (parsed_prices (bids state')))
  /\ (bids state' = [] -> best_bid state' = best_bid state)
  /\ (asks state' <> [] ->
      exists m, best_ask state' = Some m /\ is_min m (parsed_prices (asks state')))
  /\ (asks state' = [] -> best_ask state' = best_ask state).
Proof.
  intros H. apply apply_snapshot_inv in H as (Hb & Ha & Hbb & Hba).
  repeat split; trivial.
  - intros Hne. destruct (bids state') as [|kv r]; [contradiction|].
    destruct Hbb as (m & Hm & ->). exists m. split; [reflexivity|].
    simpl in Hm. apply max_from_spec in Hm. exact Hm.
  - intros Hnil. rewrite Hnil in Hbb. exact Hbb.
  - intros Hne. destruct (asks state') as [|kv r]; [contradiction|].
    destruct Hba as (m & Hm & ->). exists m. split; [reflexivity|].
    simpl in Hm. apply min_from_spec in Hm. exact Hm.
  - intros Hnil. rewrite Hnil in Hba. exact Hba.
Qed.

Lemma snapshot_one_side_witness :
  side_present bids_only_frame Bid = true
  /\ build_side (_iter_levels (side_list bids_only_frame Bid)) []
     = Ok [("0.4600"%string, Fin false 7 0)]
  /\ levels_of {| asks := []; bids := [("0.4600"%string, Fin false 7 0)];
                  best_bid := Some (Fin false 4600 (-4));
                  best_ask := Some (Fin false 5500 (-4)) |} Ask = []
  /\ Some (Fin false 5500 (-4)) = best_of book_state_1 Ask.
Proof.
  split; [reflexivity|].
  apply (snapshot_one_side Bid book_state_1 bids_only_frame
           {| asks := []; bids := [("0.4600"%string, Fin false 7 0)];
              best_bid := Some (Fin false 4600 (-4));
              best_ask := Some (Fin false 5500 (-4)) |});
    vm_compute; reflexivity.
Defined.

(** C2, as stated, fails: a snapshot with bids only, applied to a state
    that holds an ask level, leaves an empty asks map. *)
Lemma one_sided_snapshot_empties_other_side :
  side_present bids_only_frame Bid = true
  /\ side_present bids_only_frame Ask = false
  /\ exists state', _apply_book_snapshot book_state_1 bids_only_frame = Ok state'
       /\ asks book_state_1 = [("0.5500"%string, Fin false 5 0)]
       /\ asks state' = []
       /\ asks state' <> asks book_state_1.
Proof.
  split; [reflexivity|]. split; [reflexivity|].
  eexists. split; [vm_compute; reflexivity|].
  split; [reflexivity|]. split; [reflexivity|]. discriminate.
Qed.

Lemma snapshot_best_prices_witness :
  _apply_book_snapshot empty_state book_frame = Ok book_state_1
  /\ exists m, best_bid book_state_1 = Some m
       /\ is_max m (parsed_prices (bids book_state_1)).
Proof.
  assert (H : _apply_book_snapshot empty_state book_frame = Ok book_state_1)
    by (vm_compute; reflexivity).
  split; [exact H|].
  apply (snapshot_best_prices empty_state book_frame book_state_1 H).
  discriminate.
Defined.

(** ** Classification *)

(** C4 (the code departs from the claim): line 360 tests for the keys
    ["bids"] and ["asks"] only. An object with an [asset_id] and a ["buys"]
    list, and no event type, is not taken as a snapshot: processing it
    changes nothing, although [_apply_book_snapshot] itself reads ["buys"]
    and would store the level. *)
Theorem buys_only_not_classified :
  contains buys_only_frame "asset_id" = true
  /\ contains buys_only_frame "buys" = true
  /\ is_book buys_only_frame = false
  /\ process_payload {[ "X"%string := empty_state ]} (VDict buys_only_frame)
     = Ok ({[ "X"%string := empty_state ]}, false)
  /\ _apply_book_snapshot empty_state buys_only_frame
     = Ok {| asks := []; bids := [("0.4500"%string, Fin false 10 0)];
             best_bid := Some (Fin false 4500 (-4)); best_ask := None |}.
Proof. repeat split; vm_compute; reflexivity. Qed.

(** ** Price changes *)

Lemma price_change_item_cases (bs : books_t) (changed : bool) (item : dict) :
  match bs !! str_field item "asset_id" with
  | None => price_change_item (bs, changed) item = (bs, changed)
  | Some st =>
      exists st',
        fst (price_change_item (bs, changed) item)
        = <[str_field item "asset_id" := st']> bs
        /\ best_bid st' = (if is_None (get item "best_bid") then best_bid st
                           else Some (_to_decimal (OfValue (get item "best_bid"))))
        /\ best_ask st' = (if is_None (get item "best_ask") then best_ask st
                           else Some (_to_decimal (OfValue (get item "best_ask"))))
        /\ bids st' = bids st /\ asks st' = asks st
  end.
Proof.
  unfold price_change_item.
  destruct (bs !! str_field item "asset_id") as [st|]; [|reflexivity].
  eexists. split; [reflexivity|].
  destruct (is_None (get item "best_bid")), (is_None (get item "best_ask"));
    simpl; auto.
Qed.

Lemma price_change_item_maps (acc : books_t * bool) (item : dict) (t : string) :
  bids <$> (fst (price_change_item acc item) !! t) = bids <$> (fst acc !! t)
  /\ asks <$> (fst (price_change_item acc item) !! t) = asks <$> (fst acc !! t).
Proof.
  destruct acc as [bs changed].
  pose proof (price_change_item_cases bs changed item) as H.
  destruct (bs !! str_field item "asset_id") as [st|] eqn:E.
  - destruct H as (st' & -> & _ & _ & Hb & Ha). simpl.
    destruct (decide (str_field item "asset_id" = t)) as [<-|Hne].
    + rewrite lookup_insert_eq, E. simpl. rewrite Hb, Ha. auto.
    + rewrite lookup_insert_ne by assumption. auto.
  - rewrite H. auto.
Qed.

Lemma price_change_fold_maps (items : list dict) : forall (acc : books_t * bool) (t : string),
  bids <$> (fst (fold_left price_change_item items acc) !! t) = bids <$> (fst acc !! t)
  /\ asks <$> (fst (fold_left price_change_item items acc) !! t) = asks <$> (fst acc !! t).
Proof.
  induction items as [|item r IH]; simpl; intros acc t; [auto|].
  destruct (IH (price_change_item acc item) t) as [-> ->].
  apply price_change_item_maps.
Qed.

(** One record, seen from a tracked token. *)
Lemma price_change_item_tracked (bs : books_t) (ch : bool) (item : dict)
    (t : string) (st : book_state) :
  bs !! t = Some st ->
  exists st',
    fst (price_change_item (bs, ch) item) !! t = Some st'
    /\ bids st' = bids st /\ asks st' = asks st
    /\ best_bid st' = (if carries "best_bid" t (VDict item)
                       then Some (_to_decimal (OfValue (get item "best_bid")))
                       else best_bid st)
    /\ best_ask st' = (if carries "best_ask" t (VDict item)
                       then Some (_to_decimal (OfValue (get item "best_ask")))
                       else best_ask st).
Proof.
  intros Ht. pose proof (price_change_item_cases bs ch item) as H.
  unfold carries.
  destruct (String.eqb_spec (str_field item "asset_id") t) as [Heq|Hne].
  - rewrite Heq, Ht in H. destruct H as (st' & -> & Hb & Ha & Hbids & Hasks).
    exists st'. rewrite lookup_insert_eq. cbn [andb].
    split; [reflexivity|]. split; [exact Hbids|]. split; [exact Hasks|].
    split.
    + rewrite Hb. destruct (is_None (get item "best_bid")); reflexivity.
    + rewrite Ha. destruct (is_None (get item "best_ask")); reflexivity.
  - exists st. cbn [andb].
    destruct (bs !! str_field item "asset_id") as [sa|].
    + destruct H as (st' & -> & _). rewrite lookup_insert_ne by exact Hne. auto.
    + rewrite H. auto.
Qed.

Lemma price_change_item_untracked (bs : books_t) (ch : bool) (item : dict)
    (t : string) :
  bs !! t = None -> fst (price_change_item (bs, ch) item) !! t = None.
Proof.
  intros Ht. pose proof (price_change_item_cases bs ch item) as H.
  destruct (bs !! str_field item "asset_id") as [sa|] eqn:E.
  - destruct H as (st' & -> & _). rewrite lookup_insert_ne; [exact Ht|].
    intros Heq. rewrite Heq, Ht in E. discriminate.
  - rewrite H. exact Ht.
Qed.

(** The records of a list: its dict elements, in order. *)
Lemma records_cons (v : value) (xs : list value) :
  omap is_dict (v :: xs)
  = match v with VDict item => item :: omap is_dict xs | _ => omap is_dict xs end.
Proof. destruct v; reflexivity. Qed.

Lemma price_change_fold_tracked (xs : list value) :
  forall (bs : books_t) (ch : bool) (t : string) (st : book_state),
    bs !! t = Some st ->
    exists st',
      fst (fold_left price_change_item (omap is_dict xs) (bs, ch)) !! t = Some st'
      /\ bids st' = bids st /\ asks st' = asks st
      /\ (Forall (fun v => carries "best_bid" t v = false) xs ->
          best_bid st' = best_bid st)
      /\ (Forall (fun v => carries "best_ask" t v = false) xs ->
          best_ask st' = best_ask st).
Proof.
  induction xs as [|v r IH]; intros bs ch t st Ht.
  - exists st. simpl. auto.
  - rewrite records_cons.
    assert (Hskip : forall P : value -> Prop, Forall P (v :: r) -> P v /\ Forall P r)
      by (intros P HP; inversion HP; auto).
    destruct v as [| | | | | |item];
      try (destruct (IH bs ch t st Ht) as (st' & H1 & H2 & H3 & H4 & H5);
           exists st'; repeat split; trivial;
           intros HF; apply Hskip in HF as [_ HF]; auto).
    cbn [fold_left].
    destruct (price_change_item_tracked bs ch item t st Ht)
      as (st1 & H1 & Hb1 & Ha1 & Hbb1 & Hba1).
    destruct (price_change_item (bs, ch) item) as [bs1 ch1]. simpl in H1.
    destruct (IH bs1 ch1 t st1 H1) as (st' & H2 & Hb & Ha & Hbb & Hba).
    exists st'. split; [exact H2|]. split; [congruence|]. split; [congruence|].
    split; intros HF; apply Hskip in HF as [Hv HF].
    + rewrite (Hbb HF), Hbb1, Hv. reflexivity.
    + rewrite (Hba HF), Hba1, Hv. reflexivity.
Qed.

Lemma price_change_fold_untracked (items : list dict) :
  forall (bs : books_t) (ch : bool) (t : string),
    bs !! t = None ->
    fst (fold_left price_change_item items (bs, ch)) !! t = None.
Proof.
  induction items as [|item r IH]; intros bs ch t Ht; [exact Ht|].
  cbn [fold_left].
  pose proof (price_change_item_untracked bs ch item t Ht) as H.
  destruct (price_change_item (bs, ch) item) as [bs1 ch1]. exact (IH _ _ _ H).
Qed.

(** The last record that carries a field decides it. *)
Lemma price_change_fold_last (pre post : list value) (item : dict)
    (bs : books_t) (ch : bool) (t : string) (st : book_state) :
  bs !! t = Some st ->
  exists st',
    fst (fold_left price_change_item (omap is_dict (pre ++ VDict item :: post))
           (bs, ch)) !! t = Some st'
    /\ (carries "best_bid" t (VDict item) = true ->
        Forall (fun v => carries "best_bid" t v = false) post ->
        best_bid st' = Some (_to_decimal (OfValue (get item "best_bid"))))
    /\ (carries "best_ask" t (VDict item) = true ->
        Forall (fun v => carries "best_ask" t v = false) post ->
        best_ask st' = Some (_to_decimal (OfValue (get item "best_ask")))).
Proof.
  intros Ht. rewrite omap_app, records_cons, fold_left_app. cbn [fold_left].
  destruct (price_change_fold_tracked pre bs ch t st Ht) as (st0 & H0 & _).
  destruct (fold_left price_change_item (omap is_dict pre) (bs, ch)) as [bs0 ch0].
  simpl in H0.
  destruct (price_change_item_tracked bs0 ch0 item t st0 H0)
    as (st1 & H1 & _ & _ & Hbb1 & Hba1).
  destruct (price_change_item (bs0, ch0) item) as [bs1 ch1]. simpl in H1.
  destruct (price_change_fold_tracked post bs1 ch1 t st1 H1)
    as (st' & H2 & _ & _ & Hbb & Hba).
  exists st'. split; [exact H2|]. split; intros Hc HF.
  - rewrite (Hbb HF), Hbb1, Hc. reflexivity.
  - rewrite (Hba HF), Hba1, Hc. reflexivity.
Qed.

(** When the flag is raised. *)
Lemma price_change_item_changed (bs : books_t) (ch : bool) (item : dict) :
  snd (price_change_item (bs, ch) item)
  = ch || (bool_decide (is_Some (bs !! str_field item "asset_id"))
           && (negb (is_None (get item "best_bid"))
               || negb (is_None (get item "best_ask")))).
Proof.
  unfold price_change_item.
  destruct (bs !! str_field item "asset_id") as [st|]; cbn [snd].
  - rewrite bool_decide_eq_true_2 by eauto. cbn [andb].
    rewrite orb_assoc. reflexivity.
  - rewrite bool_decide_eq_false_2 by (intros [? ?]; discriminate).
    cbn [andb]. rewrite orb_false_r. reflexivity.
Qed.

Lemma price_change_item_domain (bs : books_t) (ch : bool) (item : dict) (t : string) :
  is_Some (fst (price_change_item (bs, ch) item) !! t) <-> is_Some (bs !! t).
Proof.
  destruct (bs !! t) as [st|] eqn:E.
  - destruct (price_change_item_tracked bs ch item t st E) as (st' & -> & _).
    split; eauto.
  - rewrite (price_change_item_untracked bs ch item t E). tauto.
Qed.

Lemma price_change_fold_changed (xs : list value) :
  forall (bs : books_t) (ch : bool),
    snd (fold_left price_change_item (omap is_dict xs) (bs, ch)) = true <->
    ch = true
    \/ exists item,
         In (VDict item) xs
         /\ is_Some (bs !! str_field item "asset_id")
         /\ (is_None (get item "best_bid") = false
             \/ is_None (get item "best_ask") = false).
Proof.
  induction xs as [|v r IH]; intros bs ch.
  - simpl. split; [auto|]. intros [H|(item & [] & _)]. exact H.
  - rewrite records_cons.
    assert (Hother : (forall item, v <> VDict item) ->
              (snd (fold_left price_change_item (omap is_dict r) (bs, ch)) = true <->
               ch = true
               \/ (exists item : dict,
                     In (VDict item) (v :: r)
                     /\ is_Some (bs !! str_field item "asset_id")
                     /\ (is_None (get item "best_bid") = false
                         \/ is_None (get item "best_ask") = false)))).
    { intros Hv. rewrite IH. split.
      - intros [H|(item & Hin & H)]; [auto|]. right. exists item. simpl. auto.
      - intros [H|(item & [Hin|Hin] & H)]; [auto| |right; eauto].
        exfalso. exact (Hv item Hin). }
    destruct v as [| | | | | |item]; try (apply Hother; intros item; discriminate).
    clear Hother. cbn [fold_left].
    pose proof (price_change_item_changed bs ch item) as Hch.
    pose proof (price_change_item_domain bs ch item) as Hdom.
    destruct (price_change_item (bs, ch) item) as [bs1 ch1]. simpl in Hch, Hdom.
    rewrite IH. subst ch1. split.
    + intros [H|(it & Hin & Htr & Hf)].
      * apply orb_true_iff in H as [H|H]; [auto|].
        apply andb_true_iff in H as [H1 H2]. apply bool_decide_eq_true in H1.
        right. exists item. split; [left; reflexivity|]. split; [exact H1|].
        apply orb_true_iff in H2 as [H2|H2]; apply negb_true_iff in H2; auto.
      * right. exists it. split; [right; exact Hin|]. split; [|exact Hf].
        apply Hdom. exact Htr.
    + intros [H|(it & [Hin|Hin] & Htr & Hf)].
      * left. rewrite H. reflexivity.
      * injection Hin as <-. left.
        rewrite bool_decide_eq_true_2 by exact Htr. cbn [andb].
        destruct Hf as [-> | ->]; [|rewrite orb_true_r]; apply orb_true_r.
      * right. exists it. split; [exact Hin|]. split; [|exact Hf].
        apply Hdom. exact Htr.
Qed.

(** Records that name no tracked instrument change nothing. *)
Lemma price_change_fold_strangers (xs : list value) (bs : books_t) (ch : bool) :
  Forall (fun v => forall item, v = VDict item ->
                     bs !! str_field item "asset_id" = None) xs ->
  fold_left price_change_item (omap is_dict xs) (bs, ch) = (bs, ch).
Proof.
  induction 1 as [|v r Hv _ IH]; [reflexivity|].
  rewrite records_cons. destruct v as [| | | | | |item]; try exact IH.
  cbn [fold_left].
  pose proof (price_change_item_cases bs ch item) as H.
  rewrite (Hv item eq_refl) in H. rewrite H. exact IH.
Qed.

(** C5: for every price-change frame whose [price_changes] is a list.
    The records applied are the dict elements of that list, in order.
    For a tracked instrument the bids and asks maps are unmodified;
    [best_bid] ([best_ask]) is left untouched when no record names the
    instrument and carries that field, and otherwise takes the value
    decoded from the last record that does.  An untracked instrument
    stays untracked; the frame reports a change exactly when a record
    names a tracked instrument and carries one of the fields; and records
    that name untracked instruments only change nothing at all.  A frame
    without a list changes nothing. *)
Theorem price_change_effect (books : books_t) (msg : dict) :
  (forall xs, get msg "price_changes" = VList xs ->
     (forall t st, books !! t = Some st ->
        exists st',
          fst (_apply_price_change books msg) !! t = Some st'
          /\ bids st' = bids st /\ asks st' = asks st
          /\ (Forall (fun v => carries "best_bid" t v = false) xs ->
              best_bid st' = best_bid st)
          /\ (Forall (fun v => carries "best_ask" t v = false) xs ->
              best_ask st' = best_ask st)
          /\ (forall pre item post,
                xs = pre ++ VDict item :: post ->
                carries "best_bid" t (VDict item) = true ->
                Forall (fun v => carries "best_bid" t v = false) post ->
                best_bid st' = Some (_to_decimal (OfValue (get item "best_bid"))))
          /\ (forall pre item post,
                xs = pre ++ VDict item :: post ->
                carries "best_ask" t (VDict item) = true ->
                Forall (fun v => carries "best_ask" t v = false) post ->
                best_ask st' = Some (_to_decimal (OfValue (get item "best_ask")))))
     /\ (forall t, books !! t = None ->
           fst (_apply_price_change books msg) !! t = None)
     /\ (snd (_apply_price_change books msg) = true <->
         exists item,
           In (VDict item) xs
           /\ is_Some (books !! str_field item "asset_id")
           /\ (is_None (get item "best_bid") = false
               \/ is_None (get item "best_ask") = false))
     /\ (Forall (fun v => forall item, v = VDict item ->
                            books !! str_field item "asset_id" = None) xs ->
         _apply_price_change books msg = (books, false)))
  /\ ((forall xs, get msg "price_changes" <> VList xs) ->
      _apply_price_change books msg = (books, false)).
Proof.
  unfold _apply_price_change. split.
  - intros xs ->. cbn [_iter_levels]. split; [|split; [|split]].
    + intros t st Ht.
      destruct (price_change_fold_tracked xs books false t st Ht)
        as (st' & H1 & Hb & Ha & Hbb & Hba).
      exists st'. split; [exact H1|]. split; [exact Hb|]. split; [exact Ha|].
      split; [exact Hbb|]. split; [exact Hba|].
      split; intros pre item post -> Hc HF;
        destruct (price_change_fold_last pre post item books false t st Ht)
          as (st2 & H2 & Hlb & Hla);
        rewrite H1 in H2; injection H2 as <-; auto.
    + intros t Ht. apply price_change_fold_untracked. exact Ht.
    + rewrite price_change_fold_changed. split; [|auto].
      intros [H|H]; [discriminate | exact H].
    + apply price_change_fold_strangers.
  - intros H. destruct (get msg "price_changes") as [| | | | |xs|]; try reflexivity.
    exfalso. exact (H xs eq_refl).
Qed.

Lemma price_change_effect_witness :
  get price_change_frame "price_changes"
  = VList [VDict [("asset_id"%string, VStr "X"); ("best_bid"%string, VStr "0.46")]]
  /\ exists st',
       fst (_apply_price_change {[ "X"%string := book_state_1 ]} price_change_frame)
         !! "X"%string = Some st'
       /\ bids st' = bids book_state_1 /\ asks st' = asks book_state_1
       /\ best_bid st' = Some (Fin false 46 (-2))
       /\ best_ask st' = Some (Fin false 5500 (-4)).
Proof.
  split; [reflexivity|].
  destruct (proj1 (price_change_effect {[ "X"%string := book_state_1 ]}
                     price_change_frame) _ eq_refl) as (Htracked & _).
  destruct (Htracked "X"%string book_state_1 (lookup_singleton_eq _ _))
    as (st' & H & Hb & Ha & _ & Hask & Hbid & _).
  exists st'. split; [exact H|]. split; [exact Hb|]. split; [exact Ha|]. split.
  - apply (Hbid [] _ [] eq_refl); [reflexivity | constructor].
  - rewrite Hask; [reflexivity|]. repeat constructor.
Defined.

(** The example of the specification: after [book_frame], the delta
    [{asset_id: X, best_bid: "0.46"}] moves the best bid to 0.46 and leaves
    the maps and the best ask. *)
Example price_change_example :
  fst (_apply_price_change {[ "X"%string := book_state_1 ]} price_change_frame)
    !! "X"%string
  = Some {| asks := asks book_state_1; bids := bids book_state_1;
            best_bid := Some (Fin false 46 (-2));
            best_ask := best_ask book_state_1 |}.
Proof. vm_compute. reflexivity. Qed.

(** ** Stored sizes are positive *)

Lemma setitem_positive (m : side_map) (k : string) (v : Decimal) :
  sizes_positive m -> gt_0 v = Ok true -> sizes_positive (setitem m k v).
Proof.
  unfold sizes_positive. intros Hm Hv.
  induction Hm as [|[k' x] r Hx Hr IH]; simpl.
  - constructor; [exact Hv | constructor].
  - destruct (String.eqb k' k); constructor; auto.
Qed.

Lemma build_side_positive (lvls : list dict) : forall m m',
  sizes_positive m -> build_side lvls m = Ok m' -> sizes_positive m'.
Proof.
  induction lvls as [|lvl rest IH]; simpl; intros m m' Hm H.
  - injection H as <-. exact Hm.
  - inv_bind H. destruct a.
    + inv_bind H. eapply IH; [|exact H]. apply setitem_positive; assumption.
    + eapply IH; eassumption.
Qed.

Lemma apply_snapshot_positive (state : book_state) (msg : dict) (state' : book_state) :
  _apply_book_snapshot state msg = Ok state' ->
  sizes_positive (bids state') /\ sizes_positive (asks state').
Proof.
  intros H. apply apply_snapshot_inv in H as (Hb & Ha & _).
  split; eapply build_side_positive; try eassumption; constructor.
Qed.

Lemma apply_price_change_positive (bs : books_t) (msg : dict) :
  books_positive bs -> books_positive (fst (_apply_price_change bs msg)).
Proof.
  intros Hbs t st' Ht.
  destruct (price_change_fold_maps (_iter_levels (get msg "price_changes"))
              (bs, false) t) as [Hb Ha].
  fold (_apply_price_change bs msg) in Hb, Ha. simpl in Hb, Ha.
  rewrite Ht in Hb, Ha. simpl in Hb, Ha.
  destruct (bs !! t) as [st|] eqn:E; [|discriminate].
  simpl in Hb, Ha. injection Hb as Hb. injection Ha as Ha.
  rewrite Hb, Ha. exact (Hbs t st E).
Qed.

Lemma process_msg_positive (acc acc' : books_t * bool) (msg : dict) :
  books_positive (fst acc) -> process_msg acc msg = Ok acc' ->
  books_positive (fst acc').
Proof.
  destruct acc as [bs changed]. unfold process_msg. simpl. intros Hbs H.
  destruct (is_book msg).
  - destruct (bs !! str_field msg "asset_id") as [st|] eqn:E.
    + inv_bind H. injection H as <-. simpl.
      intros t st' Ht.
      destruct (decide (str_field msg "asset_id" = t)) as [<-|Hne].
      * rewrite lookup_insert_eq in Ht. injection Ht as <-.
        eapply apply_snapshot_positive; eassumption.
      * rewrite lookup_insert_ne in Ht by assumption. exact (Hbs t st' Ht).
    + injection H as <-. exact Hbs.
  - destruct (String.eqb (str_field msg "event_type") "price_change").
    + pose proof (apply_price_change_positive bs msg Hbs) as Hp.
      destruct (_apply_price_change bs msg) as [bs' c].
      injection H as <-. exact Hp.
    + injection H as <-. exact Hbs.
Qed.

Lemma process_items_positive (items : list dict) : forall acc acc',
  books_positive (fst acc) -> process_items acc items = Ok acc' ->
  books_positive (fst acc').
Proof.
  induction items as [|msg rest IH]; simpl; intros acc acc' Hacc H.
  - injection H as <-. exact Hacc.
  - inv_bind H. eapply IH; [|exact H].
    eapply process_msg_positive; eassumption.
Qed.

Lemma process_frame_positive (bs : books_t) (raw : frame) (acc' : books_t * bool) :
  books_positive bs -> process_frame bs raw = Ok acc' -> books_positive (fst acc').
Proof.
  intros Hbs H. destruct raw as [|payload]; [discriminate|].
  unfold process_frame, process_payload in H.
  destruct payload;
    try (injection H as <-; exact Hbs);
    eapply (process_items_positive _ (bs, false)); eassumption.
Qed.

Lemma on_exception_positive (st : running) (e : exn) :
  books_positive (books st) -> session_positive (on_exception st e).
Proof. unfold on_exception. destruct (caught e); simpl; auto. Qed.

Lemma step_positive (st : running) (ev : event) (s' : session) :
  books_positive (books st) -> step st ev = Some s' -> session_positive s'.
Proof.
  unfold step. intros Hst H.
  destruct (at_ st), ev; try discriminate;
    try (injection H as <-; first [exact Hst | apply on_exception_positive; exact Hst]).
  destruct (process_frame (books st) raw) as [[bs' c]|e] eqn:E;
    injection H as <-.
  - simpl. exact (process_frame_positive _ _ _ Hst E).
  - apply on_exception_positive. exact Hst.
Qed.

Lemma run_positive (evs : list event) : forall s s',
  session_positive s -> run s evs = Some s' -> session_positive s'.
Proof.
  induction evs as [|ev rest IH]; simpl; intros s s' Hs H.
  - injection H as <-. exact Hs.
  - destruct s as [st|e]; [|discriminate].
    destruct (step st ev) as [s1|] eqn:E; [|discriminate].
    eapply IH; [|exact H]. eapply step_positive; eassumption.
Qed.

Lemma start_positive (token_ids : list string) : session_positive (start token_ids).
Proof.
  simpl. intros t st H.
  apply elem_of_list_to_map_2 in H.
  apply list_elem_of_In, in_map_iff in H as (t' & [= _ <-] & _).
  split; constructor.
Qed.

(** C6: in every state that a run of the stream reaches from its start,
    every size stored in a bids or asks map is greater than 0. A snapshot
    only stores sizes that passed [size > 0], and a price change stores
    nothing in the maps. *)
Theorem stored_sizes_positive (s : session) :
  reachable s -> session_positive s.
Proof.
  intros (token_ids & evs & H).
  eapply run_positive; [apply start_positive | exact H].
Qed.

Lemma stored_sizes_positive_witness :
  books_positive {[ "X"%string := book_state_1 ]}.
Proof.
  apply (stored_sizes_positive (Running (streaming_X book_state_1))).
  exists ["X"%string], [Connected; Sent; Received (Json (VDict book_frame))].
  vm_compute. reflexivity.
Defined.

(** ** The reconnect delay *)

Lemma backoff_succ (k : nat) : Z.min 30 (backoff k * 2) = backoff (S k).
Proof.
  unfold backoff. rewrite Nat2Z.inj_succ, Z.pow_succ_r by lia.
  assert (0 < 2 ^ Z.of_nat k) by (apply Z.pow_pos_nonneg; lia). lia.
Qed.

Lemma backoff_range (k : nat) : 1 <= backoff k <= 30.
Proof.
  unfold backoff.
  assert (0 < 2 ^ Z.of_nat k) by (apply Z.pow_pos_nonneg; lia). lia.
Qed.

Lemma on_exception_delay_ok (st : running) (e : exn) :
  delay_ok (Running st) -> delay_ok (on_exception st e).
Proof.
  unfold on_exception. destruct (caught e); simpl; [|trivial].
  intros (Hd & Hs & _). repeat split; try lia.
  - apply Forall_app_2; [exact Hs | constructor; [exact Hd | constructor]].
  - discriminate.
Qed.

Lemma step_delay_ok (st : running) (ev : event) (s' : session) :
  delay_ok (Running st) -> step st ev = Some s' -> delay_ok s'.
Proof.
  unfold step. intros Hst H. pose proof Hst as (Hd & Hs & Hup).
  destruct (at_ st) eqn:Ephase, ev; try discriminate;
    try (injection H as <-; apply on_exception_delay_ok; exact Hst).
  - injection H as <-. simpl. repeat split; trivial; try lia. discriminate.
  - injection H as <-. simpl. repeat split; trivial; lia.
  - destruct (process_frame (books st) raw) as [[bs' c]|e];
      injection H as <-.
    + simpl. repeat split; trivial; try lia.
    + apply on_exception_delay_ok. exact Hst.
  - injection H as <-. simpl. repeat split; trivial; try lia. discriminate.
Qed.

Lemma run_delay_ok (evs : list event) : forall s s',
  delay_ok s -> run s evs = Some s' -> delay_ok s'.
Proof.
  induction evs as [|ev rest IH]; simpl; intros s s' Hs H.
  - injection H as <-. exact Hs.
  - destruct s as [st|e]; [|discriminate].
    destruct (step st ev) as [s1|] eqn:E; [|discriminate].
    eapply IH; [|exact H]. eapply step_delay_ok; eassumption.
Qed.

Lemma reachable_delay_ok (s : session) : reachable s -> delay_ok s.
Proof.
  intros (token_ids & evs & H). eapply run_delay_ok; [|exact H].
  simpl. split; [lia|]. split; [constructor | discriminate].
Qed.

(** One failed reconnect attempt, from [connect], at the [k]-th delay. *)
Lemma run_attempt (a : bool * exn) (evs : list event) (bs : books_t) (sl : list Z) (k : nat) :
  caught (snd a) = true ->
  run (Running {| at_ := Connecting; reconnect_delay := backoff k;
                  books := bs; sleeps := sl |}) (attempt a ++ evs)
  = run (Running {| at_ := Connecting; reconnect_delay := backoff (S k);
                    books := bs; sleeps := sl ++ [backoff k] |}) evs.
Proof.
  destruct a as [[] e]; simpl; intros He; unfold on_exception; rewrite He; simpl;
    rewrite backoff_succ; reflexivity.
Qed.

Lemma run_attempts (attempts : list (bool * exn)) : forall (bs : books_t) (sl : list Z) (k : nat),
  Forall (fun a => caught (snd a) = true) attempts ->
  run (Running {| at_ := Connecting; reconnect_delay := backoff k;
                  books := bs; sleeps := sl |}) (concat (map attempt attempts))
  = Some (Running {| at_ := Connecting;
                     reconnect_delay := backoff (k + length attempts);
                     books := bs;
                     sleeps := sl ++ map backoff (seq k (length attempts)) |}).
Proof.
  induction attempts as [|a r IH]; intros bs sl k Hc.
  - simpl. rewrite Nat.add_0_r, app_nil_r. reflexivity.
  - inversion Hc as [|? ? Ha Hr]; subst.
    cbn [map concat]. rewrite run_attempt by exact Ha.
    rewrite (IH bs (sl ++ [backoff k]) (S k) Hr).
    cbn [length seq map]. rewrite <- app_assoc, Nat.add_succ_r. reflexivity.
Qed.

(** C7: once the stream is up the delay is 1.0. From there, a failure
    followed by failed reconnect attempts sleeps 1.0, 2.0, 4.0, ...: the
    [k]-th delay is [min 30 (2^k)], each the double of the one before up
    to the cap of 30.0, which no delay exceeds. A successful connect and
    send then brings the stream up with the delay back at 1.0. *)
Theorem backoff_schedule (st : running) (e : exn) (attempts : list (bool * exn)) :
  reachable (Running st) ->
  at_ st = Streaming ->
  caught e = true ->
  Forall (fun a => caught (snd a) = true) attempts ->
  reconnect_delay st = 1
  /\ Forall (fun d => 1 <= d <= 30) (sleeps st)
  /\ run (Running st) (failures e attempts)
     = Some (Running (after_failures st (length attempts)))
  /\ (length attempts = 2%nat ->
      sleeps (after_failures st (length attempts)) = sleeps st ++ [1; 2; 4])
  /\ (forall k, backoff (S k) = Z.min 30 (2 * backoff k) /\ backoff k <= 30)
  /\ run (Running (after_failures st (length attempts))) [Connected; Sent]
     = Some (Running {| at_ := Streaming; reconnect_delay := 1;
                        books := books st;
                        sleeps := sleeps (after_failures st (length attempts)) |}).
Proof.
  intros Hreach Hup He Hatt.
  destruct (reachable_delay_ok _ Hreach) as (_ & Hs & Hone).
  specialize (Hone Hup).
  repeat split; trivial.
  - unfold failures. cbn [run]. unfold step. rewrite Hup.
    unfold on_exception. rewrite He. cbn [at_ reconnect_delay books sleeps].
    rewrite Hone. change (Z.min 30 (1 * 2)) with (backoff 1).
    rewrite (run_attempts attempts (books st) (sleeps st ++ [1]) 1 Hatt).
    unfold after_failures. cbn [seq map]. rewrite <- app_assoc. reflexivity.
  - intros ->. reflexivity.
  - rewrite <- backoff_succ. f_equal. lia.
  - apply backoff_range.
Qed.

Lemma backoff_schedule_witness :
  run (Running (streaming_X empty_state))
    (failures ConnectionClosed [(false, OSError); (true, TimeoutError)])
  = Some (Running (after_failures (streaming_X empty_state) 2))
  /\ sleeps (after_failures (streaming_X empty_state) 2) = [1; 2; 4].
Proof.
  assert (Hreach : reachable (Running (streaming_X empty_state)))
    by (exists ["X"%string], [Connected; Sent]; reflexivity).
  assert (Hatt : Forall (fun a : bool * exn => caught (snd a) = true)
                   [(false, OSError); (true, TimeoutError)])
    by (repeat constructor).
  destruct (backoff_schedule (streaming_X empty_state) ConnectionClosed
              [(false, OSError); (true, TimeoutError)]
              Hreach eq_refl eq_refl Hatt) as (_ & _ & Hrun & H3 & _).
  split; [exact Hrun | exact (H3 eq_refl)].
Defined.

(** ** Canonical price keys *)

Lemma quantize_0001_shape (d q : Decimal) :
  quantize d Decimal_0_0001 = Ok q -> is_nan q = false ->
  exists s c, q = Fin s c (-4).
Proof.
  unfold quantize, Decimal_0_0001.
  destruct d as [s c e|s|s [] p]; try discriminate.
  - cbn [negb andb Z.leb Z.compare Etiny Emax].
    change (negb ((Etiny <=? -4) && (-4 <=? Emax))) with false. cbv iota.
    repeat match goal with
           | |- context [if ?b then _ else _] => destruct b
           end; try discriminate; intros [= <-] _; eauto.
  - intros [= <-]. discriminate.
Qed.

Lemma price_key_quantized (p q : Decimal) :
  quantize p Decimal_0_0001 = Ok q -> _price_key (OfDecimal p) = Ok (format_f q).
Proof. unfold _price_key. simpl. intros ->. reflexivity. Qed.

(** Two rounded prices that are numerically equal and of one sign are the
    same Decimal. *)
Lemma quantized_equal (p1 p2 q1 q2 : Decimal) :
  quantize p1 Decimal_0_0001 = Ok q1 ->
  quantize p2 Decimal_0_0001 = Ok q2 ->
  num_eq q1 q2 -> sign_of q1 = sign_of q2 -> q1 = q2.
Proof.
  intros H1 H2 (N1 & N2 & Hc) Hs.
  destruct (quantize_0001_shape _ _ H1 N1) as (s1 & c1 & ->).
  destruct (quantize_0001_shape _ _ H2 N2) as (s2 & c2 & ->).
  simpl in Hs. subst s2.
  rewrite (fin_cmp_scale s1 c1 (-4) s1 c2 (-4) (-4)) in Hc by lia.
  apply Z.compare_eq in Hc. change (10 ^ (-4 - -4)) with 1 in Hc.
  rewrite !Z.mul_1_r in Hc.
  f_equal. unfold signed in Hc. destruct s1; lia.
Qed.

(** ** Insertion into a side map *)

Lemma getitem_setitem_eq (m : side_map) (k : string) (v : Decimal) :
  getitem (setitem m k v) k = Some v.
Proof.
  induction m as [|[k' x] r IH]; simpl.
  - rewrite String.eqb_refl. reflexivity.
  - destruct (String.eqb k' k) eqn:E; simpl; rewrite E; [reflexivity | exact IH].
Qed.

Lemma getitem_setitem_ne (m : side_map) (k k' : string) (v : Decimal) :
  k <> k' -> getitem (setitem m k v) k' = getitem m k'.
Proof.
  intros Hne. induction m as [|[k0 x] r IH]; simpl.
  - apply String.eqb_neq in Hne. rewrite Hne. reflexivity.
  - destruct (String.eqb k0 k) eqn:E; simpl.
    + apply String.eqb_eq in E. subst k0.
      apply String.eqb_neq in Hne. rewrite Hne. reflexivity.
    + rewrite IH. reflexivity.
Qed.

Lemma setitem_keys (m : side_map) (k k' : string) (v : Decimal) :
  In k' (map fst (setitem m k v)) <-> k' = k \/ In k' (map fst m).
Proof.
  induction m as [|[k0 x] r IH]; simpl.
  - intuition.
  - destruct (String.eqb k0 k) eqn:E; simpl.
    + apply String.eqb_eq in E. subst k0. intuition.
    + rewrite IH. intuition.
Qed.

Lemma setitem_NoDup (m : side_map) (k : string) (v : Decimal) :
  NoDup (map fst m) -> NoDup (map fst (setitem m k v)).
Proof.
  induction m as [|[k0 x] r IH]; simpl; intros Hm.
  - apply NoDup_singleton.
  - apply NoDup_cons in Hm as [Hnot Hr].
    destruct (String.eqb k0 k) eqn:E; simpl.
    + apply NoDup_cons. split; assumption.
    + apply NoDup_cons. split; [|apply IH; exact Hr].
      rewrite list_elem_of_In, setitem_keys. intros [->|Hin].
      * rewrite String.eqb_refl in E. discriminate.
      * apply Hnot, list_elem_of_In. exact Hin.
Qed.

(** One step of [build_side], by the two tests it makes. *)
Lemma build_side_cons (lvl : dict) (rest : list dict) (m m' : side_map) :
  build_side (lvl :: rest) m = Ok m' ->
  (gt_0 (level_size lvl) = Ok false /\ build_side rest m = Ok m')
  \/ (gt_0 (level_size lvl) = Ok true /\
      exists k, _price_key (OfDecimal (level_price lvl)) = Ok k
                /\ build_side rest (setitem m k (level_size lvl)) = Ok m').
Proof.
  cbn [build_side]. fold (level_size lvl) (level_price lvl). intros H.
  inv_bind H. destruct a.
  - inv_bind H. right. eauto.
  - left. auto.
Qed.

Lemma build_side_app (l1 l2 : list dict) : forall m,
  build_side (l1 ++ l2) m = (m1 <-- build_side l1 m; build_side l2 m1).
Proof.
  induction l1 as [|lvl r IH]; intros m; [reflexivity|].
  cbn [app build_side].
  destruct (gt_0 _) as [[]|e]; simpl; [|apply IH|reflexivity].
  destruct (_price_key _) as [k|e]; simpl; [apply IH | reflexivity].
Qed.

Lemma build_side_NoDup (lvls : list dict) : forall m m',
  NoDup (map fst m) -> build_side lvls m = Ok m' -> NoDup (map fst m').
Proof.
  induction lvls as [|lvl rest IH]; intros m m' Hm H.
  - injection H as <-. exact Hm.
  - apply build_side_cons in H as [[_ H]|(_ & k & _ & H)].
    + eapply IH; eassumption.
    + eapply IH; [|exact H]. apply setitem_NoDup. exact Hm.
Qed.

(** Entries that are skipped or go to other keys leave a key's size. *)
Lemma build_side_other_keys (k : string) (lvls : list dict) : forall m m',
  (forall e, In e lvls -> gt_0 (level_size e) = Ok true ->
             _price_key (OfDecimal (level_price e)) <> Ok k) ->
  build_side lvls m = Ok m' -> getitem m' k = getitem m k.
Proof.
  induction lvls as [|lvl rest IH]; intros m m' Hno H.
  - injection H as <-. reflexivity.
  - assert (Hrest : forall e, In e rest -> gt_0 (level_size e) = Ok true ->
                      _price_key (OfDecimal (level_price e)) <> Ok k)
      by (intros e He; apply Hno; right; exact He).
    apply build_side_cons in H as [[_ H]|(Hpos & k' & Hk & H)].
    + exact (IH _ _ Hrest H).
    + rewrite (IH _ _ Hrest H). apply getitem_setitem_ne.
      intros ->. exact (Hno lvl (or_introl eq_refl) Hpos Hk).
Qed.

(** The key of a stored entry holds the size of the last entry with a
    positive size that has this key. *)
Lemma build_side_last (pre post : list dict) (e : dict) (m0 m : side_map) (k : string) :
  build_side (pre ++ e :: post) m0 = Ok m ->
  gt_0 (level_size e) = Ok true ->
  _price_key (OfDecimal (level_price e)) = Ok k ->
  (forall e', In e' post -> gt_0 (level_size e') = Ok true ->
              _price_key (OfDecimal (level_price e')) <> Ok k) ->
  getitem m k = Some (level_size e).
Proof.
  intros H Hpos Hk Hpost. rewrite build_side_app in H. inv_bind H.
  apply build_side_cons in H as [[Hneg _]|(_ & k' & Hk' & H)].
  - rewrite Hpos in Hneg. discriminate.
  - rewrite Hk in Hk'. injection Hk' as <-.
    rewrite (build_side_other_keys k post _ _ Hpost H).
    apply getitem_setitem_eq.
Qed.

(** C8 (as amended): two level entries whose prices, rounded to four
    fractional digits, are numerically equal and have the same sign get the
    same canonical key; the built map has one entry for that key, and it
    holds the size of the later entry when that entry has a positive size
    and no entry after it with a positive size has the same key. *)
Theorem colliding_levels (pre mid post : list dict) (e1 e2 : dict)
    (m : side_map) (q1 q2 : Decimal) :
  build_side (pre ++ e1 :: mid ++ e2 :: post) [] = Ok m ->
  quantize (level_price e1) Decimal_0_0001 = Ok q1 ->
  quantize (level_price e2) Decimal_0_0001 = Ok q2 ->
  num_eq q1 q2 ->
  sign_of q1 = sign_of q2 ->
  gt_0 (level_size e2) = Ok true ->
  (forall e', In e' post -> gt_0 (level_size e') = Ok true ->
              _price_key (OfDecimal (level_price e'))
              <> _price_key (OfDecimal (level_price e2))) ->
  exists k,
    _price_key (OfDecimal (level_price e1)) = Ok k
    /\ _price_key (OfDecimal (level_price e2)) = Ok k
    /\ getitem m k = Some (level_size e2)
    /\ NoDup (map fst m).
Proof.
  intros H H1 H2 Heq Hsign Hpos Hpost.
  pose proof (quantized_equal _ _ _ _ H1 H2 Heq Hsign) as ->.
  pose proof (price_key_quantized _ _ H1) as K1.
  pose proof (price_key_quantized _ _ H2) as K2.
  exists (format_f q2). repeat split; trivial.
  - replace (pre ++ e1 :: mid ++ e2 :: post)
      with ((pre ++ e1 :: mid) ++ e2 :: post) in H
      by (rewrite <- app_assoc; reflexivity).
    apply (build_side_last _ _ _ _ _ _ H Hpos K2).
    intros e' He' Hp. rewrite <- K2. exact (Hpost e' He' Hp).
  - eapply build_side_NoDup; [|exact H]. apply NoDup_nil_2.
Qed.

Lemma colliding_levels_witness :
  exists k,
    _price_key (OfDecimal (level_price (level_entry "0.50" "10"))) = Ok k
    /\ _price_key (OfDecimal (level_price (level_entry "0.5000" "7"))) = Ok k
    /\ getitem [("0.5000"%string, Fin false 7 0); ("0.4000"%string, Fin false 3 0)] k
       = Some (level_size (level_entry "0.5000" "7"))
    /\ NoDup (map fst [("0.5000"%string, Fin false 7 0); ("0.4000"%string, Fin false 3 0)]).
Proof.
  apply (colliding_levels [] [level_entry "0.40" "3"] []
           (level_entry "0.50" "10") (level_entry "0.5000" "7")
           [("0.5000"%string, Fin false 7 0); ("0.4000"%string, Fin false 3 0)]
           (Fin false 5000 (-4)) (Fin false 5000 (-4))).
  - vm_compute. reflexivity.
  - vm_compute. reflexivity.
  - vm_compute. reflexivity.
  - repeat split.
  - reflexivity.
  - vm_compute. reflexivity.
  - intros e' [].
Defined.

(** The keys of the example of the specification. *)
Example price_key_example :
  _price_key (OfValue (VStr "0.50")) = Ok "0.5000"%string
  /\ _price_key (OfValue (VStr "0.5000")) = Ok "0.5000"%string.
Proof. split; vm_compute; reflexivity. Qed.

(** C8, as stated, fails in two ways. The prices 0 and -0 are numerically
    equal after rounding, yet their keys differ and the map gets two
    entries; and of two colliding entries, a later one of size 0 is
    skipped, so the size stored is the earlier one. *)
Lemma colliding_levels_counterexample :
  (quantize (level_price (level_entry "0" "1")) Decimal_0_0001 = Ok (Fin false 0 (-4))
   /\ quantize (level_price (level_entry "-0" "2")) Decimal_0_0001 = Ok (Fin true 0 (-4))
   /\ num_eq (Fin false 0 (-4)) (Fin true 0 (-4))
   /\ _price_key (OfDecimal (level_price (level_entry "0" "1"))) = Ok "0.0000"%string
   /\ _price_key (OfDecimal (level_price (level_entry "-0" "2"))) = Ok "-0.0000"%string
   /\ build_side [level_entry "0" "1"; level_entry "-0" "2"] []
      = Ok [("0.0000"%string, Fin false 1 0); ("-0.0000"%string, Fin false 2 0)])
  /\ (_price_key (OfDecimal (level_price (level_entry "0.50" "10")))
      = _price_key (OfDecimal (level_price (level_entry "0.5000" "0")))
      /\ build_side [level_entry "0.50" "10"; level_entry "0.5000" "0"] []
         = Ok [("0.5000"%string, Fin false 10 0)]
      /\ level_size (level_entry "0.5000" "0") <> Fin false 10 0).
Proof.
  split.
  - repeat split; vm_compute; reflexivity.
  - split; [vm_compute; reflexivity|]. split; [vm_compute; reflexivity|].
    vm_compute. discriminate.
Qed.

(** ** Values that are not numerals *)

Lemma lstrip_snoc (c : ascii) (l : list ascii) :
  is_space c = false -> exists l', lstrip (l ++ [c]) = l' ++ [c].
Proof.
  intros Hc. induction l as [|a r IH]; simpl.
  - rewrite Hc. exists []. reflexivity.
  - destruct (is_space a); [exact IH|]. exists (a :: r). reflexivity.
Qed.

Lemma strip_head (c : ascii) (t : list ascii) :
  is_space c = false -> exists t', strip (c :: t) = c :: t'.
Proof.
  intros Hc. unfold strip. cbn [lstrip]. rewrite Hc.
  change (List.rev (c :: t)) with (List.rev t ++ [c]).
  destruct (lstrip_snoc c (List.rev t) Hc) as (l' & ->).
  exists (List.rev l'). rewrite rev_app_distr. reflexivity.
Qed.

(** A string that opens with a bracket or a brace is no numeral. *)
Lemma bracket_unparsable (c : ascii) (t : list ascii) :
  c = "["%char \/ c = "{"%char ->
  Decimal_of_string (string_of_list_ascii (c :: t)) = None.
Proof.
  intros Hc. unfold Decimal_of_string.
  rewrite list_ascii_of_string_of_list_ascii.
  destruct (strip_head c t) as (t' & ->);
    [destruct Hc as [-> | ->]; reflexivity|].
  destruct Hc as [-> | ->]; reflexivity.
Qed.

Lemma unparsable_default (v : value) :
  unparsable v -> _to_decimal (OfValue v) = Decimal_0.
Proof. unfold unparsable, _to_decimal. intros ->. reflexivity. Qed.

Lemma build_side_skip (lvl : dict) (rest : list dict) (m : side_map) :
  gt_0 (level_size lvl) = Ok false ->
  build_side (lvl :: rest) m = build_side rest m.
Proof.
  cbn [build_side]. fold (level_size lvl). intros ->. reflexivity.
Qed.

(** A text that opens with a character with which no numeral begins is no
    numeral. *)
Lemma no_numeral_unparsable (c : ascii) (t : string) :
  opens_no_numeral c = true -> unparsable (VStr (String c t)).
Proof.
  intros Hc. unfold unparsable, py_str, Decimal_of_string.
  cbn [list_ascii_of_string].
  assert (Hs : is_space c = false).
  { unfold opens_no_numeral in Hc. apply negb_true_iff in Hc.
    apply orb_false_elim in Hc as [Hc _].
    apply orb_false_elim in Hc as [_ Hc]. exact Hc. }
  destruct (strip_head c (list_ascii_of_string t) Hs) as (t' & ->).
  destruct c as [[] [] [] [] [] [] [] []];
    first [discriminate Hc | reflexivity].
Qed.

(** The body of [_to_decimal] never raises: it returns [_to_decimal]. *)
Lemma to_decimal_body_returns (value : any) :
  _to_decimal_body value "0" = Ok (_to_decimal value).
Proof.
  destruct value as [v|d]; [|reflexivity].
  unfold _to_decimal_body, Decimal_str, Decimal_new, _to_decimal.
  destruct (Decimal_of_string (py_str v)); reflexivity.
Qed.

Lemma unparsable_raises (v : value) :
  unparsable v ->
  Decimal_str (OfValue v) = Raise InvalidOperation
  /\ _to_decimal (OfValue v) = Decimal_0.
Proof.
  unfold unparsable, Decimal_str, Decimal_new, _to_decimal. intros ->. auto.
Qed.

(** C10: numeric decoding is total.  The body of [_to_decimal], with
    the exception of its constructor and its [except] clause, returns for
    every value, and what it returns is [_to_decimal]: the Decimal that
    [Decimal(str(value))] reads, and [Decimal("0")] when that raises.
    None (also what a missing field reads as), booleans, lists, dicts, the
    empty text and every text that opens with a character with which no
    numeral begins are such values.  A snapshot level whose size is such a
    value is left out of the map, and a level whose price is such a value,
    with a positive size, is stored under the key ["0.0000"]. *)
Theorem decoding_total :
  (forall value, _to_decimal_body value "0" = Ok (_to_decimal value))
  /\ (forall v, unparsable v ->
        Decimal_str (OfValue v) = Raise InvalidOperation
        /\ _to_decimal (OfValue v) = Decimal_0)
  /\ (forall v d, Decimal_str (OfValue v) = Ok d -> _to_decimal (OfValue v) = d)
  /\ unparsable VNone
  /\ (forall b, unparsable (VBool b))
  /\ (forall xs, unparsable (VList xs))
  /\ (forall items, unparsable (VDict items))
  /\ (forall c t, opens_no_numeral c = true -> unparsable (VStr (String c t)))
  /\ unparsable (VStr "")
  /\ (forall (lvl : dict) key, contains lvl key = false -> unparsable (get lvl key))
  /\ (forall lvl rest m,
        unparsable (get lvl "size") ->
        build_side (lvl :: rest) m = build_side rest m)
  /\ (forall lvl rest m,
        unparsable (get lvl "price") ->
        gt_0 (level_size lvl) = Ok true ->
        build_side (lvl :: rest) m
        = build_side rest (setitem m "0.0000" (level_size lvl))).
Proof.
  split; [exact to_decimal_body_returns|].
  split; [exact unparsable_raises|].
  split.
  { intros v d. unfold Decimal_str, Decimal_new, _to_decimal.
    destruct (Decimal_of_string (py_str v)); [intros [= ->]; reflexivity|discriminate]. }
  split; [reflexivity|].
  split; [intros []; reflexivity|].
  split; [intros xs; apply bracket_unparsable; left; reflexivity|].
  split; [intros items; apply bracket_unparsable; right; reflexivity|].
  split; [exact no_numeral_unparsable|].
  split; [reflexivity|].
  split; [intros lvl key H; rewrite (get_absent _ _ H); reflexivity|].
  split.
  - intros lvl rest m Hsize. apply build_side_skip.
    unfold level_size. rewrite (unparsable_default _ Hsize). reflexivity.
  - intros lvl rest m Hprice Hpos.
    cbn [build_side]. fold (level_size lvl). rewrite Hpos.
    rewrite (unparsable_default _ Hprice). reflexivity.
Qed.

Lemma decoding_total_witness :
  _to_decimal_body (OfValue (VStr "unknown")) "0" = Ok Decimal_0
  /\ _to_decimal_body (OfValue (VStr " 0.45 ")) "0" = Ok (Fin false 45 (-2))
  /\ _to_decimal_body (OfValue (VStr "1e1000000000000000000")) "0" = Ok Decimal_0
  /\ build_side [level_entry "0.45" "unknown"] [] = Ok []
  /\ build_side [level_entry "unknown" "3"] []
     = Ok [("0.0000"%string, Fin false 3 0)].
Proof.
  destruct decoding_total
    as (Hbody & Hrej & _ & _ & _ & _ & _ & Hstr & _ & _ & Hsize & Hprice).
  assert (Hu : unparsable (VStr "unknown")) by (apply Hstr; reflexivity).
  split; [rewrite Hbody; f_equal; exact (proj2 (Hrej _ Hu))|].
  split; [rewrite Hbody; vm_compute; reflexivity|].
  split; [rewrite Hbody; f_equal; apply Hrej; vm_compute; reflexivity|].
  split.
  - rewrite Hsize; [reflexivity | exact Hu].
  - rewrite Hprice; [reflexivity | exact Hu | vm_compute; reflexivity].
Defined.

(** Strings that are no numerals, and strings that are. *)
Example unparsable_strings :
  unparsable (VStr "abc") /\ unparsable (VStr "") /\ unparsable (VStr "1,5")
  /\ unparsable (VStr "0x10") /\ unparsable (VStr "--1")
  /\ _to_decimal (OfValue (VStr " 0.45 ")) = Fin false 45 (-2)
  /\ _to_decimal (OfValue (VInt 3)) = Fin false 3 0
  /\ _to_decimal (OfValue (VFloat "0.5")) = Fin false 5 (-1).
Proof. repeat split; vm_compute; reflexivity. Qed.

(** ** Sorting the levels *)

Lemma ge_price_trans (x y z : row) : ge_price x y -> ge_price y z -> ge_price x z.
Proof.
  unfold ge_price. intros Hxy Hyz.
  apply dec_lt_Ok in Hxy as (Nx & Ny & Hxy).
  apply dec_lt_Ok in Hyz as (_ & Nz & Hyz).
  unfold dec_lt. rewrite ordering_not_nan by assumption. f_equal.
  assert (H : _cmp (fst z) (fst x) <> Gt).
  { apply (cmp_le_trans (fst z) (fst y) (fst x)); trivial.
    - rewrite cmp_antisym. destruct (_cmp (fst y) (fst z)); simpl; try discriminate.
      destruct Hyz as [_ Hyz]. discriminate (Hyz eq_refl).
    - rewrite cmp_antisym. destruct (_cmp (fst x) (fst y)); simpl; try discriminate.
      destruct Hxy as [_ Hxy]. discriminate (Hxy eq_refl). }
  rewrite cmp_antisym in H. destruct (_cmp (fst x) (fst z)); simpl in *; congruence.
Qed.

Lemma le_price_trans (x y z : row) : le_price x y -> le_price y z -> le_price x z.
Proof. unfold le_price. intros Hxy Hyz. exact (ge_price_trans z y x Hyz Hxy). Qed.

(** A row that tests less than another is not greater than it. *)
Lemma lt_le_price (x y : row) : dec_lt (fst x) (fst y) = Ok true -> le_price x y.
Proof.
  unfold le_price. intros H. apply dec_lt_Ok in H as (Nx & Ny & [H _]).
  unfold dec_lt. rewrite ordering_not_nan by assumption.
  rewrite cmp_antisym, (H eq_refl). reflexivity.
Qed.

Lemma insert_desc_perm (x : row) (s : list row) : forall r,
  insert_desc x s = Ok r -> Permutation r (x :: s).
Proof.
  induction s as [|y ys IH]; simpl; intros r H.
  - injection H as <-. reflexivity.
  - inv_bind H. destruct a.
    + inv_bind H. injection H as <-.
      rewrite (IH _ E0). apply perm_swap.
    + injection H as <-. reflexivity.
Qed.

Lemma insert_asc_perm (x : row) (s : list row) : forall r,
  insert_asc x s = Ok r -> Permutation r (x :: s).
Proof.
  induction s as [|y ys IH]; simpl; intros r H.
  - injection H as <-. reflexivity.
  - inv_bind H. destruct a.
    + inv_bind H. injection H as <-.
      rewrite (IH _ E0). apply perm_swap.
    + injection H as <-. reflexivity.
Qed.

Lemma sort_desc_perm (l : list row) : forall r, sort_desc l = Ok r -> Permutation r l.
Proof.
  induction l as [|x t IH]; simpl; intros r H.
  - injection H as <-. reflexivity.
  - inv_bind H. rewrite (insert_desc_perm _ _ _ H), (IH _ E). reflexivity.
Qed.

Lemma sort_asc_perm (l : list row) : forall r, sort_asc l = Ok r -> Permutation r l.
Proof.
  induction l as [|x t IH]; simpl; intros r H.
  - injection H as <-. reflexivity.
  - inv_bind H. rewrite (insert_asc_perm _ _ _ H), (IH _ E). reflexivity.
Qed.

Lemma insert_desc_sorted (x : row) (s : list row) : forall r,
  StronglySorted ge_price s -> insert_desc x s = Ok r -> StronglySorted ge_price r.
Proof.
  induction s as [|y ys IH]; simpl; intros r Hs H.
  - injection H as <-. constructor; constructor.
  - apply StronglySorted_inv in Hs as [Hys Hy].
    inv_bind H. destruct a.
    + inv_bind H. injection H as <-.
      constructor; [exact (IH _ Hys E0)|].
      rewrite (insert_desc_perm _ _ _ E0). constructor; [|exact Hy].
      exact (lt_le_price x y E).
    + injection H as <-.
      assert (Hxy : ge_price x y) by exact E.
      constructor; [constructor; assumption|].
      constructor; [exact Hxy|].
      eapply Forall_impl; [exact Hy|]. intros z Hz. exact (ge_price_trans _ _ _ Hxy Hz).
Qed.

Lemma insert_asc_sorted (x : row) (s : list row) : forall r,
  StronglySorted le_price s -> insert_asc x s = Ok r -> StronglySorted le_price r.
Proof.
  induction s as [|y ys IH]; simpl; intros r Hs H.
  - injection H as <-. constructor; constructor.
  - apply StronglySorted_inv in Hs as [Hys Hy].
    inv_bind H. destruct a.
    + inv_bind H. injection H as <-.
      constructor; [exact (IH _ Hys E0)|].
      rewrite (insert_asc_perm _ _ _ E0). constructor; [|exact Hy].
      exact (lt_le_price y x E).
    + injection H as <-.
      assert (Hxy : le_price x y) by exact E.
      constructor; [constructor; assumption|].
      constructor; [exact Hxy|].
      eapply Forall_impl; [exact Hy|]. intros z Hz. exact (le_price_trans _ _ _ Hxy Hz).
Qed.

Lemma sort_desc_sorted (l : list row) : forall r,
  sort_desc l = Ok r -> StronglySorted ge_price r.
Proof.
  induction l as [|x t IH]; simpl; intros r H.
  - injection H as <-. constructor.
  - inv_bind H. exact (insert_desc_sorted _ _ _ (IH _ E) H).
Qed.

Lemma sort_asc_sorted (l : list row) : forall r,
  sort_asc l = Ok r -> StronglySorted le_price r.
Proof.
  induction l as [|x t IH]; simpl; intros r H.
  - injection H as <-. constructor.
  - inv_bind H. exact (insert_asc_sorted _ _ _ (IH _ E) H).
Qed.

Lemma no_ties_perm (l l' : list Decimal) :
  Permutation l l' -> no_ties l -> no_ties l'.
Proof.
  induction 1 as [|x l l' Hp IH|x y l|l l' l'' _ IH1 _ IH2]; intros H.
  - exact H.
  - inversion H as [|? ? Hx Hl]; subst. constructor; [|exact (IH Hl)].
    intros y Hy. apply Hx. exact (Permutation_in _ (Permutation_sym Hp) Hy).
  - inversion H as [|? ? Hy Hxl]; subst.
    inversion Hxl as [|? ? Hx Hl]; subst.
    constructor; [|constructor; [|exact Hl]].
    + intros z [<-|Hz]; [|exact (Hx z Hz)].
      rewrite cmp_antisym. intros Hc. apply (Hy x (or_introl eq_refl)).
      destruct (_cmp y x); simpl in Hc; congruence.
    + intros z Hz. exact (Hy z (or_intror Hz)).
  - exact (IH2 (IH1 H)).
Qed.

Lemma positive_levels_prices (m : side_map) (y : Decimal) :
  In y (map fst (positive_levels m)) -> In y (parsed_prices m).
Proof.
  unfold positive_levels, parsed_prices.
  induction m as [|kv r IH]; simpl; [tauto|].
  destruct (is_positive (snd kv)); simpl; intuition.
Qed.

Lemma no_ties_positive_levels (m : side_map) :
  no_ties (parsed_prices m) -> no_ties (map fst (positive_levels m)).
Proof.
  induction m as [|kv r IH]; intros H; [constructor|].
  inversion H as [|? ? Hx Hr]; subst.
  unfold positive_levels. simpl.
  destruct (is_positive (snd kv)); simpl; [|exact (IH Hr)].
  constructor; [|exact (IH Hr)].
  intros y Hy. apply Hx. apply positive_levels_prices. exact Hy.
Qed.

Lemma sorted_strict_desc (rows : list row) :
  StronglySorted ge_price rows -> no_ties (map fst rows) ->
  StronglySorted gt_price rows.
Proof.
  induction 1 as [|x l Hl IH Hx]; intros Hn; [constructor|].
  inversion Hn as [|? ? Hne Hnl]; subst.
  constructor; [exact (IH Hnl)|].
  apply List.Forall_forall. intros y Hy.
  pose proof (proj1 (List.Forall_forall _ _) Hx y Hy) as Hge.
  unfold ge_price in Hge. apply dec_lt_Ok in Hge as (Nx & Ny & Hge).
  unfold gt_price, dec_gt. rewrite ordering_not_nan by assumption. f_equal.
  specialize (Hne (fst y) (in_map fst _ _ Hy)).
  destruct (_cmp (fst x) (fst y)); try reflexivity; try congruence.
  destruct Hge as [_ Hge]. discriminate (Hge eq_refl).
Qed.

Lemma sorted_strict_asc (rows : list row) :
  StronglySorted le_price rows -> no_ties (map fst rows) ->
  StronglySorted lt_price rows.
Proof.
  induction 1 as [|x l Hl IH Hx]; intros Hn; [constructor|].
  inversion Hn as [|? ? Hne Hnl]; subst.
  constructor; [exact (IH Hnl)|].
  apply List.Forall_forall. intros y Hy.
  pose proof (proj1 (List.Forall_forall _ _) Hx y Hy) as Hle.
  unfold le_price in Hle. apply dec_lt_Ok in Hle as (Ny & Nx & Hle).
  unfold lt_price, dec_lt. rewrite ordering_not_nan by assumption. f_equal.
  specialize (Hne (fst y) (in_map fst _ _ Hy)).
  rewrite (cmp_antisym (fst x) (fst y)) in Hle.
  destruct (_cmp (fst x) (fst y)); try reflexivity; try congruence.
  destruct Hle as [_ Hle]. discriminate (Hle eq_refl).
Qed.

Lemma StronglySorted_firstn {A} (R : A -> A -> Prop) (n : nat) : forall l,
  StronglySorted R l -> StronglySorted R (firstn n l).
Proof.
  induction n as [|n IH]; intros l H; [constructor|].
  destruct l as [|x t]; [constructor|].
  apply StronglySorted_inv in H as [Ht Hx]. simpl.
  constructor; [exact (IH _ Ht)|].
  apply List.Forall_forall. intros y Hy.
  apply (proj1 (List.Forall_forall _ _) Hx).
  rewrite <- (firstn_skipn n t). apply in_or_app. left. exact Hy.
Qed.

Lemma slice_to_nat {A} (rows : list A) (n : nat) :
  slice_to rows (Z.of_nat n) = firstn n rows.
Proof.
  unfold slice_to. destruct (Z.leb_spec 0 (Z.of_nat n)); [|lia].
  rewrite Nat2Z.id. reflexivity.
Qed.

Lemma level_rows_spec (m : side_map) : forall rows,
  level_rows m = Ok rows -> rows = positive_levels m.
Proof.
  unfold positive_levels.
  induction m as [|[price size] r IH]; simpl; intros rows H.
  - injection H as <-. reflexivity.
  - inv_bind H. inv_bind H. injection H as <-.
    unfold is_positive. rewrite E. rewrite (IH _ E0).
    destruct a; reflexivity.
Qed.

Lemma positive_levels_sizes (m : side_map) :
  Forall (fun r : row => gt_0 (snd r) = Ok true) (positive_levels m).
Proof.
  unfold positive_levels. induction m as [|kv r IH]; simpl; [constructor|].
  unfold is_positive at 1.
  destruct (gt_0 (snd kv)) as [[]|] eqn:E; simpl; try exact IH.
  constructor; [exact E | exact IH].
Qed.

Lemma Forall_perm {A} (P : A -> Prop) (l l' : list A) :
  Permutation l l' -> Forall P l' -> Forall P l.
Proof.
  intros Hp H. apply List.Forall_forall. intros x Hx.
  apply (proj1 (List.Forall_forall _ _) H). exact (Permutation_in _ Hp Hx).
Qed.

Lemma Forall_firstn' {A} (P : A -> Prop) (n : nat) (l : list A) :
  Forall P l -> Forall P (firstn n l).
Proof.
  intros H. apply List.Forall_forall. intros x Hx.
  apply (proj1 (List.Forall_forall _ _) H).
  rewrite <- (firstn_skipn n l). apply in_or_app. left. exact Hx.
Qed.

(** What [_levels_desc] and [_levels_asc] return for a depth [n]. *)
Lemma levels_desc_spec (m : side_map) (n : nat) (rows : list row) :
  _levels_desc m (Z.of_nat n) = Ok rows ->
  exists sorted,
    Permutation sorted (positive_levels m)
    /\ StronglySorted ge_price sorted
    /\ rows = firstn n sorted
    /\ Forall (fun r : row => gt_0 (snd r) = Ok true) rows
    /\ (no_ties (parsed_prices m) -> StronglySorted gt_price sorted).
Proof.
  unfold _levels_desc. intros H. inv_bind H. inv_bind H. injection H as <-.
  rename a0 into sorted. apply level_rows_spec in E. subst a.
  pose proof (sort_desc_perm _ _ E0) as Hp.
  pose proof (sort_desc_sorted _ _ E0) as Hs.
  exists sorted. rewrite slice_to_nat. repeat split; trivial.
  - apply Forall_firstn'. apply (Forall_perm _ _ _ Hp). apply positive_levels_sizes.
  - intros Hn. apply sorted_strict_desc; [exact Hs|].
    apply (no_ties_perm (map fst (positive_levels m))).
    + apply Permutation_map, Permutation_sym, Hp.
    + apply no_ties_positive_levels, Hn.
Qed.

Lemma levels_asc_spec (m : side_map) (n : nat) (rows : list row) :
  _levels_asc m (Z.of_nat n) = Ok rows ->
  exists sorted,
    Permutation sorted (positive_levels m)
    /\ StronglySorted le_price sorted
    /\ rows = firstn n sorted
    /\ Forall (fun r : row => gt_0 (snd r) = Ok true) rows
    /\ (no_ties (parsed_prices m) -> StronglySorted lt_price sorted).
Proof.
  unfold _levels_asc. intros H. inv_bind H. inv_bind H. injection H as <-.
  rename a0 into sorted. apply level_rows_spec in E. subst a.
  pose proof (sort_asc_perm _ _ E0) as Hp.
  pose proof (sort_asc_sorted _ _ E0) as Hs.
  exists sorted. rewrite slice_to_nat. repeat split; trivial.
  - apply Forall_firstn'. apply (Forall_perm _ _ _ Hp). apply positive_levels_sizes.
  - intros Hn. apply sorted_strict_asc; [exact Hs|].
    apply (no_ties_perm (map fst (positive_levels m))).
    + apply Permutation_map, Permutation_sym, Hp.
    + apply no_ties_positive_levels, Hn.
Qed.

(** ** The accessors return when no NaN is stored *)

Lemma level_rows_total (m : side_map) :
  nan_free_map m -> level_rows m = Ok (positive_levels m).
Proof.
  intros H. assert (Hex : exists rows, level_rows m = Ok rows).
  { induction H as [|[price size] r [_ Hsize] _ [rows IH]]; simpl; [eauto|].
    unfold gt_0, dec_gt. rewrite ordering_not_nan by (trivial; reflexivity).
    simpl. rewrite IH. simpl. eauto. }
  destruct Hex as [rows Hrows]. rewrite Hrows.
  f_equal. exact (level_rows_spec _ _ Hrows).
Qed.

Lemma positive_levels_not_nan (m : side_map) :
  nan_free_map m -> Forall (fun r : row => is_nan (fst r) = false) (positive_levels m).
Proof.
  unfold positive_levels.
  induction 1 as [|kv r [Hk _] _ IH]; simpl; [constructor|].
  destruct (is_positive (snd kv)); simpl; [constructor; assumption | exact IH].
Qed.

Lemma insert_desc_total (x : row) (s : list row) :
  is_nan (fst x) = false -> Forall (fun r : row => is_nan (fst r) = false) s ->
  exists r, insert_desc x s = Ok r.
Proof.
  intros Hx. induction 1 as [|y ys Hy _ [r IH]]; simpl; [eauto|].
  unfold dec_lt. rewrite ordering_not_nan by assumption. simpl.
  destruct (_cmp (fst x) (fst y)); eauto. rewrite IH. simpl. eauto.
Qed.

Lemma insert_asc_total (x : row) (s : list row) :
  is_nan (fst x) = false -> Forall (fun r : row => is_nan (fst r) = false) s ->
  exists r, insert_asc x s = Ok r.
Proof.
  intros Hx. induction 1 as [|y ys Hy _ [r IH]]; simpl; [eauto|].
  unfold dec_lt. rewrite ordering_not_nan by assumption. simpl.
  destruct (_cmp (fst y) (fst x)); eauto. rewrite IH. simpl. eauto.
Qed.

Lemma sort_desc_total (l : list row) :
  Forall (fun r : row => is_nan (fst r) = false) l -> exists r, sort_desc l = Ok r.
Proof.
  induction 1 as [|x t Hx Ht [s IH]]; simpl; [eauto|].
  rewrite IH. simpl. apply insert_desc_total; [exact Hx|].
  exact (Forall_perm _ _ _ (sort_desc_perm _ _ IH) Ht).
Qed.

Lemma sort_asc_total (l : list row) :
  Forall (fun r : row => is_nan (fst r) = false) l -> exists r, sort_asc l = Ok r.
Proof.
  induction 1 as [|x t Hx Ht [s IH]]; simpl; [eauto|].
  rewrite IH. simpl. apply insert_asc_total; [exact Hx|].
  exact (Forall_perm _ _ _ (sort_asc_perm _ _ IH) Ht).
Qed.

Lemma levels_desc_total (m : side_map) (depth : Z) :
  nan_free_map m -> exists rows, _levels_desc m depth = Ok rows.
Proof.
  intros H. unfold _levels_desc. rewrite (level_rows_total _ H). simpl.
  destruct (sort_desc_total _ (positive_levels_not_nan _ H)) as [sb ->].
  simpl. eauto.
Qed.

Lemma levels_asc_total (m : side_map) (depth : Z) :
  nan_free_map m -> exists rows, _levels_asc m depth = Ok rows.
Proof.
  intros H. unfold _levels_asc. rewrite (level_rows_total _ H). simpl.
  destruct (sort_asc_total _ (positive_levels_not_nan _ H)) as [sa ->].
  simpl. eauto.
Qed.

Lemma spread_guard_total (state : book_state) :
  nan_free_best (best_bid state) -> nan_free_best (best_ask state) ->
  exists b, spread_guard state = Ok b.
Proof.
  unfold spread_guard. intros Hbb Hba.
  destruct (best_bid state) as [bb|]; [|eauto].
  destruct (best_ask state) as [ba|]; [|eauto].
  simpl in Hbb, Hba. unfold dec_ge. rewrite ordering_not_nan by assumption. eauto.
Qed.

Lemma spread_guard_cases (state : book_state) (b : bool) :
  spread_guard state = Ok b ->
  if b then
    exists bb ba, best_bid state = Some bb /\ best_ask state = Some ba
                  /\ dec_ge ba bb = Ok true
  else
    best_bid state = None \/ best_ask state = None
    \/ exists bb ba, best_bid state = Some bb /\ best_ask state = Some ba
                     /\ dec_ge ba bb = Ok false.
Proof.
  unfold spread_guard.
  destruct (best_bid state) as [bb|]; [|intros [= <-]; auto].
  destruct (best_ask state) as [ba|]; [|intros [= <-]; auto].
  intros H. destruct b; [eauto | right; right; eauto].
Qed.

Lemma spread_guard_nan (state : book_state) (bb ba : Decimal) :
  best_bid state = Some bb -> best_ask state = Some ba ->
  is_nan bb || is_nan ba = true ->
  spread_guard state = Raise InvalidOperation.
Proof.
  unfold spread_guard, dec_ge, ordering. intros -> -> H.
  rewrite orb_comm, H. reflexivity.
Qed.

Lemma build_outcome_panel_guard {T S : Type}
    (texts : Decimal -> Decimal -> result T)
    (table : string -> list row -> list row -> option Decimal -> option Decimal
             -> result S)
    (outcome : string) (state : book_state) (depth : Z) (p : panel T S) :
  _build_outcome_panel texts table outcome state depth = Ok p ->
  exists b, spread_guard state = Ok b.
Proof.
  unfold _build_outcome_panel. intros H.
  destruct (_levels_asc (asks state) depth); [|discriminate].
  destruct (_levels_desc (bids state) depth); [|discriminate].
  destruct (spread_guard state) as [g|]; [eauto | discriminate].
Qed.

Lemma build_outcome_panel_inv {T S : Type}
    (texts : Decimal -> Decimal -> result T)
    (table : string -> list row -> list row -> option Decimal -> option Decimal
             -> result S)
    (outcome : string) (state : book_state) (depth : Z) (p : panel T S) :
  _build_outcome_panel texts table outcome state depth = Ok p ->
  _levels_desc (bids state) depth = Ok (panel_bids p)
  /\ _levels_asc (asks state) depth = Ok (List.rev (panel_asks p))
  /\ panel_best_bid p = best_bid state
  /\ panel_best_ask p = best_ask state
  /\ table outcome (panel_asks p) (panel_bids p) (best_bid state) (best_ask state)
     = Ok (side_table p)
  /\ match spread_mid p with
     | Some t =>
         exists bb ba, best_bid state = Some bb /\ best_ask state = Some ba
                       /\ dec_ge ba bb = Ok true /\ texts ba bb = Ok t
     | None =>
         best_bid state = None \/ best_ask state = None
         \/ exists bb ba, best_bid state = Some bb /\ best_ask state = Some ba
                          /\ dec_ge ba bb = Ok false
     end.
Proof.
  unfold _build_outcome_panel. intros H.
  destruct (_levels_asc (asks state) depth) as [asc|] eqn:Ea; [|discriminate].
  destruct (_levels_desc (bids state) depth) as [desc|] eqn:Ed; [|discriminate].
  destruct (spread_guard state) as [g|] eqn:Eg; [|discriminate].
  cbn [bind] in H. apply spread_guard_cases in Eg.
  destruct g.
  - destruct Eg as (bb & ba & Hbb & Hba & Hge). rewrite Hbb, Hba in H |- *.
    destruct (texts ba bb) as [t|] eqn:Et; [|discriminate]. cbn [bind] in H.
    destruct (table outcome (List.rev asc) desc (Some bb) (Some ba)) as [tb|] eqn:Etb;
      [|discriminate].
    injection H as <-. cbn. rewrite rev_involutive.
    repeat split; trivial. exists bb, ba. auto.
  - assert (H' : (tb <-- table outcome (List.rev asc) desc (best_bid state)
                         (best_ask state);
                  Ok {| panel_asks := List.rev asc; panel_bids := desc;
                        panel_best_bid := best_bid state;
                        panel_best_ask := best_ask state;
                        spread_mid := None; side_table := tb |}) = Ok p).
    { destruct (best_bid state), (best_ask state); exact H. }
    clear H.
    destruct (table outcome (List.rev asc) desc (best_bid state) (best_ask state))
      as [tb|] eqn:Etb; [|discriminate].
    injection H' as <-. cbn. rewrite rev_involutive.
    repeat split; trivial.
Qed.

(** C9 (as amended): for every instrument state and depth [n].  The level
    accessors return unless they have to compare a NaN: they return
    whenever no key and no size of the side map is one.  Whenever they
    return, the bid levels are the first [n] of the levels of positive
    size sorted by descending price and the ask levels the first [n]
    sorted by ascending price, strictly so when no two keys of the side
    map parse to numerically equal prices, and every size is greater than
    0.  A panel that is built carries these levels (the asks reversed) and
    the best prices as stored; spread and mid are derived only when both
    best prices are present and [best_ask >= best_bid], and otherwise none
    is produced; when both are present and one of them is a NaN, no panel
    is built. *)
Theorem read_accessor {T S : Type}
    (texts : Decimal -> Decimal -> result T)
    (table : string -> list row -> list row -> option Decimal -> option Decimal
             -> result S)
    (outcome : string) (state : book_state) (n : nat) :
  (nan_free_map (bids state) ->
   exists rows, _levels_desc (bids state) (Z.of_nat n) = Ok rows)
  /\ (nan_free_map (asks state) ->
      exists rows, _levels_asc (asks state) (Z.of_nat n) = Ok rows)
  /\ (forall rows, _levels_desc (bids state) (Z.of_nat n) = Ok rows ->
      exists sorted,
        Permutation sorted (positive_levels (bids state))
        /\ StronglySorted ge_price sorted
        /\ rows = firstn n sorted
        /\ Forall (fun r : row => gt_0 (snd r) = Ok true) rows
        /\ (no_ties (parsed_prices (bids state)) -> StronglySorted gt_price sorted))
  /\ (forall rows, _levels_asc (asks state) (Z.of_nat n) = Ok rows ->
      exists sorted,
        Permutation sorted (positive_levels (asks state))
        /\ StronglySorted le_price sorted
        /\ rows = firstn n sorted
        /\ Forall (fun r : row => gt_0 (snd r) = Ok true) rows
        /\ (no_ties (parsed_prices (asks state)) -> StronglySorted lt_price sorted))
  /\ (forall p, _build_outcome_panel texts table outcome state (Z.of_nat n) = Ok p ->
      _levels_desc (bids state) (Z.of_nat n) = Ok (panel_bids p)
      /\ _levels_asc (asks state) (Z.of_nat n) = Ok (List.rev (panel_asks p))
      /\ panel_best_bid p = best_bid state
      /\ panel_best_ask p = best_ask state
      /\ match spread_mid p with
         | Some t =>
             exists bb ba, best_bid state = Some bb /\ best_ask state = Some ba
                           /\ dec_ge ba bb = Ok true /\ texts ba bb = Ok t
         | None =>
             best_bid state = None \/ best_ask state = None
             \/ exists bb ba, best_bid state = Some bb /\ best_ask state = Some ba
                              /\ dec_ge ba bb = Ok false
         end)
  /\ (forall bb ba, best_bid state = Some bb -> best_ask state = Some ba ->
      is_nan bb || is_nan ba = true ->
      spread_guard state = Raise InvalidOperation
      /\ forall p, _build_outcome_panel texts table outcome state (Z.of_nat n) <> Ok p).
Proof.
  split; [apply levels_desc_total|].
  split; [apply levels_asc_total|].
  split; [intros rows; apply levels_desc_spec|].
  split; [intros rows; apply levels_asc_spec|].
  split.
  - intros p Hp.
    destruct (build_outcome_panel_inv _ _ _ _ _ _ Hp) as (H1 & H2 & H3 & H4 & _ & H5).
    auto.
  - intros bb ba Hbb Hba Hnan.
    pose proof (spread_guard_nan state bb ba Hbb Hba Hnan) as Hg.
    split; [exact Hg|]. intros p Hp.
    destruct (build_outcome_panel_guard _ _ _ _ _ _ Hp) as [b Hb].
    rewrite Hg in Hb. discriminate.
Qed.

(** The levels of the state that [book_frame] leaves, and its panel when
    the arithmetic of lines 198-201 and the side table return. *)
Lemma read_accessor_witness :
  _levels_desc (bids book_state_1) 16 = Ok [(Fin false 4500 (-4), Fin false 10 0)]
  /\ _build_outcome_panel (fun ba bb => Ok (ba, bb)) (fun _ _ _ _ _ => Ok tt)
       "Yes" book_state_1 16
     = Ok {| panel_asks := [(Fin false 5500 (-4), Fin false 5 0)];
             panel_bids := [(Fin false 4500 (-4), Fin false 10 0)];
             panel_best_bid := Some (Fin false 4500 (-4));
             panel_best_ask := Some (Fin false 5500 (-4));
             spread_mid := Some (Fin false 5500 (-4), Fin false 4500 (-4));
             side_table := tt |}
  /\ exists sorted,
       Permutation sorted (positive_levels (bids book_state_1))
       /\ StronglySorted ge_price sorted
       /\ [(Fin false 4500 (-4), Fin false 10 0)] = firstn 16 sorted.
Proof.
  assert (H : _levels_desc (bids book_state_1) (Z.of_nat 16)
              = Ok [(Fin false 4500 (-4), Fin false 10 0)])
    by (vm_compute; reflexivity).
  split; [exact H|]. split; [vm_compute; reflexivity|].
  destruct (read_accessor (fun ba bb => Ok (ba, bb)) (fun _ _ _ _ _ => Ok tt)
              "Yes" book_state_1 16) as (_ & _ & Hd & _).
  destruct (Hd _ H) as (sorted & Hp & Hs & Hf & _).
  exists sorted. auto.
Defined.

(** C9, as stated, fails in two ways, both in states that a frame leaves.
    After a snapshot with bids at the prices 0 and -0 the bid levels hold
    two numerically equal prices, so they are not strictly descending.
    After a price change that carries a NaN nothing is returned: the
    comparison [best_ask >= best_bid] of line 197 raises
    InvalidOperation. *)
Lemma read_accessor_counterexample :
  (process_payload {[ "X"%string := empty_state ]} (VDict zero_prices_frame)
   = Ok ({[ "X"%string := zero_prices_state ]}, true)
   /\ _levels_desc (bids zero_prices_state) 10
      = Ok [(Fin false 0 (-4), Fin false 1 0); (Fin true 0 (-4), Fin false 2 0)]
   /\ dec_gt (Fin false 0 (-4)) (Fin true 0 (-4)) = Ok false)
  /\ (process_payload {[ "X"%string := empty_state ]} (VDict nan_price_change_frame)
      = Ok ({[ "X"%string := nan_best_state ]}, true)
      /\ spread_guard nan_best_state = Raise InvalidOperation).
Proof.
  split; [split; [|split]|split]; vm_compute; reflexivity.
Qed.

(** Whatever lines 198-201 and the side table do, no panel is built for
    that state. *)
Lemma nan_best_no_panel {T S : Type}
    (texts : Decimal -> Decimal -> result T)
    (table : string -> list row -> list row -> option Decimal -> option Decimal
             -> result S)
    (outcome : string) (depth : Z) :
  _build_outcome_panel texts table outcome nan_best_state depth
  = Raise InvalidOperation.
Proof. reflexivity. Qed.

(** ** Exceptions of the frame path *)

Lemma bind_Raise {A B} (r : result A) (k : A -> result B) (e : exn) :
  bind r k = Raise e -> r = Raise e \/ exists a, r = Ok a /\ k a = Raise e.
Proof. destruct r as [a|e']; simpl; [eauto | intros [= ->]; auto]. Qed.

Lemma ordering_raises test a b e :
  ordering test a b = Raise e -> e = InvalidOperation.
Proof. unfold ordering. destruct (is_nan a || is_nan b); congruence. Qed.

Lemma quantize_raises a b e : quantize a b = Raise e -> e = InvalidOperation.
Proof.
  unfold quantize.
  destruct a as [s c x|s|s [] p], b as [s' c' t|s'|s' [] p']; try congruence.
  repeat match goal with
         | |- context [if ?b then _ else _] => destruct b
         end; congruence.
Qed.

Lemma price_key_raises v e : _price_key v = Raise e -> e = InvalidOperation.
Proof.
  unfold _price_key. intros H. apply bind_Raise in H as [H|(q & _ & H)].
  - exact (quantize_raises _ _ _ H).
  - discriminate.
Qed.

Lemma build_side_raises (lvls : list dict) : forall m e,
  build_side lvls m = Raise e -> e = InvalidOperation.
Proof.
  induction lvls as [|lvl rest IH]; simpl; intros m e H; [discriminate|].
  apply bind_Raise in H as [H|(b & _ & H)]; [exact (ordering_raises _ _ _ _ H)|].
  destruct b; [|exact (IH _ _ H)].
  apply bind_Raise in H as [H|(k & _ & H)];
    [exact (price_key_raises _ _ H) | exact (IH _ _ H)].
Qed.

Lemma max_from_raises (rest : list Decimal) : forall cur e,
  max_from cur rest = Raise e -> e = InvalidOperation.
Proof.
  induction rest as [|x r IH]; simpl; intros cur e H; [discriminate|].
  apply bind_Raise in H as [H|(b & _ & H)];
    [exact (ordering_raises _ _ _ _ H) | exact (IH _ _ H)].
Qed.

Lemma min_from_raises (rest : list Decimal) : forall cur e,
  min_from cur rest = Raise e -> e = InvalidOperation.
Proof.
  induction rest as [|x r IH]; simpl; intros cur e H; [discriminate|].
  apply bind_Raise in H as [H|(b & _ & H)];
    [exact (ordering_raises _ _ _ _ H) | exact (IH _ _ H)].
Qed.

Lemma apply_snapshot_raises (state : book_state) (msg : dict) (e : exn) :
  _apply_book_snapshot state msg = Raise e -> e = InvalidOperation.
Proof.
  unfold _apply_book_snapshot. intros H.
  apply bind_Raise in H as [H|(bm & _ & H)]; [exact (build_side_raises _ _ _ H)|].
  apply bind_Raise in H as [H|(am & _ & H)]; [exact (build_side_raises _ _ _ H)|].
  apply bind_Raise in H as [H|(bb & _ & H)].
  { destruct bm as [|kv r]; [discriminate|].
    apply bind_Raise in H as [H|(m & _ & H)]; [|discriminate].
    exact (max_from_raises _ _ _ H). }
  apply bind_Raise in H as [H|(ba & _ & H)]; [|discriminate].
  destruct am as [|kv r]; [discriminate|].
  apply bind_Raise in H as [H|(m & _ & H)]; [|discriminate].
  exact (min_from_raises _ _ _ H).
Qed.

Lemma process_items_raises (items : list dict) : forall acc e,
  process_items acc items = Raise e -> e = InvalidOperation.
Proof.
  induction items as [|msg rest IH]; simpl; intros acc e H; [discriminate|].
  apply bind_Raise in H as [H|(acc' & _ & H)]; [|exact (IH _ _ H)].
  destruct acc as [bs changed]. unfold process_msg in H.
  destruct (is_book msg).
  - destruct (bs !! str_field msg "asset_id"); [|discriminate].
    apply bind_Raise in H as [H|(st' & _ & H)]; [|discriminate].
    exact (apply_snapshot_raises _ _ _ H).
  - destruct (String.eqb _ _); [|discriminate].
    destruct (_apply_price_change bs msg). discriminate.
Qed.

(** No exception of the processing of a frame is one that the handler of
    line 384 catches: a frame that raises ends the run, and no state that
    a raise left half updated is ever read. *)
Lemma process_frame_raises (bs : books_t) (raw : frame) (e : exn) :
  process_frame bs raw = Raise e -> caught e = false.
Proof.
  destruct raw as [|payload]; simpl; [intros [= <-]; reflexivity|].
  intros H. assert (e = InvalidOperation) as ->; [|reflexivity].
  destruct payload; try discriminate; exact (process_items_raises _ _ _ H).
Qed.

(** ** Digit strings read back *)

Lemma digit_char_val (d : N) : (d < 10)%N -> digit_val (digit_char d) = d.
Proof.
  intros H.
  assert (d = 0 \/ d = 1 \/ d = 2 \/ d = 3 \/ d = 4 \/ d = 5 \/ d = 6
          \/ d = 7 \/ d = 8 \/ d = 9)%N as Hd by lia.
  repeat (destruct Hd as [-> | Hd]; [reflexivity|]). subst. reflexivity.
Qed.

Lemma digit_char_is_digit (d : N) : (d < 10)%N -> is_digit (digit_char d) = true.
Proof.
  intros H.
  assert (d = 0 \/ d = 1 \/ d = 2 \/ d = 3 \/ d = 4 \/ d = 5 \/ d = 6
          \/ d = 7 \/ d = 8 \/ d = 9)%N as Hd by lia.
  repeat (destruct Hd as [-> | Hd]; [reflexivity|]). subst. reflexivity.
Qed.

Lemma digits_to_N_snoc (ds : list ascii) (c : ascii) :
  digits_to_N (ds ++ [c]) = (10 * digits_to_N ds + digit_val c)%N.
Proof. unfold digits_to_N. rewrite fold_left_app. reflexivity. Qed.

Lemma digits_aux_acc (fuel : nat) : forall n acc,
  digits_aux fuel n acc = digits_aux fuel n [] ++ acc.
Proof.
  induction fuel as [|f IH]; intros n acc; [reflexivity|].
  cbn [digits_aux]. destruct (n <? 10)%N; [reflexivity|].
  rewrite (IH _ (_ :: acc)), (IH _ [_]), <- app_assoc. reflexivity.
Qed.

Lemma digits_aux_spec (fuel : nat) : forall n,
  (n < 2 ^ N.of_nat fuel)%N -> (0 < fuel)%nat ->
  digits_to_N (digits_aux fuel n []) = n
  /\ Forall (fun c => is_digit c = true) (digits_aux fuel n [])
  /\ digits_aux fuel n [] <> [].
Proof.
  induction fuel as [|f IH]; intros n Hn Hpos.
  - lia.
  - cbn [digits_aux]. destruct (N.ltb_spec n 10) as [Hlt|Hge].
    + rewrite N.mod_small by exact Hlt. split; [|split].
      * unfold digits_to_N. simpl. rewrite digit_char_val by exact Hlt. lia.
      * constructor; [apply digit_char_is_digit; exact Hlt | constructor].
      * discriminate.
    + rewrite digits_aux_acc.
      rewrite Nat2N.inj_succ, N.pow_succ_r' in Hn.
      assert (Hdiv : (n / 10 < 2 ^ N.of_nat f)%N)
        by (apply N.Div0.div_lt_upper_bound; lia).
      assert (Hf : (0 < f)%nat) by (destruct f; [simpl in Hn; lia | lia]).
      destruct (IH _ Hdiv Hf) as (Hv & Hd & Hne).
      assert (Hm : (n mod 10 < 10)%N) by (apply N.mod_lt; lia).
      split; [|split].
      * rewrite digits_to_N_snoc, Hv, digit_char_val by exact Hm.
        rewrite (N.div_mod n 10) at 3 by lia. reflexivity.
      * apply Forall_app_2; [exact Hd|].
        constructor; [apply digit_char_is_digit; exact Hm | constructor].
      * intros H. apply app_eq_nil in H as [_ H]. discriminate.
Qed.

Lemma N_digits_spec (n : N) :
  digits_to_N (N_digits n) = n
  /\ Forall (fun c => is_digit c = true) (N_digits n)
  /\ N_digits n <> [].
Proof.
  apply digits_aux_spec; [|lia]. rewrite Nat2N.inj_succ, N2Nat.id, N.pow_succ_r'.
  destruct n as [|p]; [simpl; lia|].
  destruct (N.log2_spec (N.pos p)) as [_ H]; [lia|].
  rewrite N.pow_succ_r' in H. exact H.
Qed.

Lemma digits_to_N_zeros (k : nat) (ds : list ascii) :
  digits_to_N (zeros k ++ ds) = digits_to_N ds.
Proof.
  unfold digits_to_N, zeros. rewrite fold_left_app.
  replace (fold_left _ (repeat "0"%char k) 0%N) with 0%N; [reflexivity|].
  induction k as [|k IH]; [reflexivity|]. simpl. exact IH.
Qed.

Lemma zeros_digits (k : nat) : Forall (fun c => is_digit c = true) (zeros k).
Proof. induction k; constructor; [reflexivity | assumption]. Qed.

Lemma span_digits_all (ds rest : list ascii) :
  Forall (fun c => is_digit c = true) ds ->
  match rest with [] => True | c :: _ => is_digit c = false end ->
  span_digits (ds ++ rest) = (ds, rest).
Proof.
  intros Hds Hrest. induction Hds as [|c ds Hc _ IH]; cbn [app span_digits].
  - destruct rest as [|c r]; [reflexivity|].
    cbn [span_digits]. rewrite Hrest. reflexivity.
  - rewrite Hc, IH. reflexivity.
Qed.

(** ** Reading a formatted Decimal back *)

Lemma digit_quiet (c : ascii) :
  is_digit c = true -> quiet c = true /\ lower c = c /\ c <> "-"%char /\ c <> "+"%char.
Proof.
  destruct c as [[] [] [] [] [] [] [] []]; try discriminate; intros _;
    repeat split; discriminate.
Qed.

Lemma lstrip_quiet (l : list ascii) :
  match l with [] => True | c :: _ => is_space c = false end -> lstrip l = l.
Proof. destruct l as [|c r]; [reflexivity|]. simpl. intros ->. reflexivity. Qed.

Lemma strip_quiet (l : list ascii) :
  Forall (fun c => quiet c = true) l -> strip l = l.
Proof.
  intros H. unfold strip.
  assert (Hs : forall l', Forall (fun c => quiet c = true) l' -> lstrip l' = l').
  { intros l' H'. apply lstrip_quiet. destruct H' as [|c r Hc _]; [exact I|].
    unfold quiet in Hc. apply andb_true_iff in Hc as [Hc _].
    destruct (is_space c); [discriminate | reflexivity]. }
  rewrite (Hs l H). rewrite Hs; [apply rev_involutive|].
  apply List.Forall_forall. intros x Hx. apply in_rev in Hx.
  exact (proj1 (List.Forall_forall _ _) H x Hx).
Qed.

Lemma remove_underscores_quiet (l : list ascii) :
  Forall (fun c => quiet c = true) l -> remove_underscores l = l.
Proof.
  unfold remove_underscores. induction 1 as [|c r Hc _ IH]; [reflexivity|].
  simpl. unfold quiet in Hc. apply andb_true_iff in Hc as [_ Hc].
  rewrite Hc, IH. reflexivity.
Qed.

Lemma map_lower_id (l : list ascii) :
  Forall (fun c => lower c = c) l -> map lower l = l.
Proof. induction 1 as [|c r Hc _ IH]; [reflexivity|]. simpl. rewrite Hc, IH. reflexivity. Qed.

Lemma digits_quiet (ds : list ascii) :
  Forall (fun c => is_digit c = true) ds ->
  Forall (fun c => quiet c = true) ds /\ Forall (fun c => lower c = c) ds.
Proof.
  induction 1 as [|c r Hc _ [IH1 IH2]]; [split; constructor|].
  destruct (digit_quiet c Hc) as (? & ? & _). split; constructor; assumption.
Qed.

Lemma parse_unsigned_fixed (neg : bool) (ip fp : list ascii) :
  Forall (fun c => is_digit c = true) ip ->
  Forall (fun c => is_digit c = true) fp ->
  ip <> [] ->
  parse_unsigned neg (ip ++ match fp with [] => [] | _ => "."%char :: fp end)
  = if MAX_PREC <? Z.of_nat (length fp) then None
    else finite neg (digits_to_N (ip ++ fp)) (- Z.of_nat (length fp)).
Proof.
  intros Hip Hfp Hne. unfold parse_unsigned.
  rewrite (span_digits_all ip)
    by first [assumption | destruct fp; [exact I | reflexivity]].
  destruct fp as [|f fp'].
  - rewrite app_nil_r. destruct ip as [|c r]; [contradiction|]. reflexivity.
  - rewrite <- (app_nil_r (f :: fp')) at 1.
    rewrite (span_digits_all (f :: fp') []) by first [assumption | exact I].
    destruct ip as [|c r]; [contradiction|]. reflexivity.
Qed.

Lemma Decimal_of_fixed_text (neg : bool) (ip fp : list ascii) :
  Forall (fun c => is_digit c = true) ip ->
  Forall (fun c => is_digit c = true) fp ->
  ip <> [] ->
  Decimal_of_string (string_of_list_ascii (fixed_text neg ip fp))
  = if MAX_PREC <? Z.of_nat (length fp) then None
    else finite neg (digits_to_N (ip ++ fp)) (- Z.of_nat (length fp)).
Proof.
  intros Hip Hfp Hne. unfold Decimal_of_string.
  rewrite list_ascii_of_string_of_list_ascii.
  destruct (digits_quiet _ Hip) as [Qip Lip].
  destruct (digits_quiet _ Hfp) as [Qfp Lfp].
  assert (Hq : Forall (fun c => quiet c = true) (fixed_text neg ip fp)).
  { unfold fixed_text. apply Forall_app_2; [destruct neg; repeat constructor|].
    apply Forall_app_2; [exact Qip|].
    destruct fp; [constructor|]. constructor; [reflexivity | exact Qfp]. }
  assert (Hl : Forall (fun c => lower c = c) (fixed_text neg ip fp)).
  { unfold fixed_text. apply Forall_app_2; [destruct neg; repeat constructor|].
    apply Forall_app_2; [exact Lip|].
    destruct fp; [constructor|]. constructor; [reflexivity | exact Lfp]. }
  rewrite (strip_quiet _ Hq), (remove_underscores_quiet _ Hq), (map_lower_id _ Hl).
  unfold fixed_text. destruct neg; cbn [sign_text app].
  - apply parse_unsigned_fixed; assumption.
  - rewrite <- (parse_unsigned_fixed false ip fp Hip Hfp Hne).
    destruct ip as [|c r]; [contradiction|].
    inversion Hip as [|? ? Hc _]; subst.
    destruct (digit_quiet c Hc) as (_ & _ & Hm & Hp).
    cbn [app].
    destruct c as [[] [] [] [] [] [] [] []]; try reflexivity; congruence.
Qed.

Lemma Forall_firstn_digits (n : nat) (ds : list ascii) :
  Forall (fun c => is_digit c = true) ds ->
  Forall (fun c => is_digit c = true) (firstn n ds)
  /\ Forall (fun c => is_digit c = true) (skipn n ds).
Proof.
  intros H. rewrite <- (firstn_skipn n ds) in H.
  apply Forall_app in H. exact H.
Qed.

Lemma format_f_fixed (s : bool) (c : N) (e : Z) :
  e <= 0 ->
  exists ip fp,
    format_f (Fin s c e) = string_of_list_ascii (fixed_text s ip fp)
    /\ Forall (fun c => is_digit c = true) ip
    /\ Forall (fun c => is_digit c = true) fp
    /\ ip <> []
    /\ digits_to_N (ip ++ fp) = c
    /\ Z.of_nat (length fp) = - e.
Proof.
  intros He. unfold format_f.
  replace ((c =? 0)%N && (0 <? e)) with false
    by (destruct (Z.ltb_spec 0 e); [lia | rewrite andb_false_r; reflexivity]).
  destruct (N_digits_spec c) as (Hv & Hd & Hne).
  set (ds := N_digits c) in *.
  destruct (Z.ltb_spec (e + Z.of_nat (length ds)) 0) as [Hlt|Hge].
  - exists ["0"%char], (zeros (Z.to_nat (- (e + Z.of_nat (length ds)))) ++ ds).
    split; [|split; [|split; [|split; [|split]]]].
    + unfold fixed_text. f_equal. f_equal.
      destruct (zeros _ ++ ds) as [|x r] eqn:E; [|reflexivity].
      apply app_eq_nil in E as [_ E]. contradiction.
    + repeat constructor.
    + apply Forall_app_2; [apply zeros_digits | exact Hd].
    + discriminate.
    + change (["0"%char] ++ ?z ++ ds) with (zeros 1 ++ z ++ ds).
      rewrite !digits_to_N_zeros. exact Hv.
    + rewrite length_app. unfold zeros. rewrite repeat_length. lia.
  - destruct (Z.ltb_spec (Z.of_nat (length ds)) (e + Z.of_nat (length ds))) as [Hbad|_];
      [lia|].
    set (d := Z.to_nat (e + Z.of_nat (length ds))).
    destruct (Forall_firstn_digits d ds Hd) as [Hip Hfp].
    assert (Hlen : Z.of_nat (length (skipn d ds)) = - e)
      by (rewrite length_skipn; unfold d; lia).
    destruct (firstn d ds) as [|x r] eqn:E.
    + exists ["0"%char], (skipn d ds).
      split; [reflexivity|]. split; [repeat constructor|].
      split; [exact Hfp|]. split; [discriminate|]. split; [|exact Hlen].
      change (["0"%char] ++ ?z) with (zeros 1 ++ z).
      rewrite digits_to_N_zeros.
      assert (Heq : ds = skipn d ds)
        by (rewrite <- (firstn_skipn d ds) at 1; rewrite E; reflexivity).
      rewrite <- Heq. exact Hv.
    + exists (x :: r), (skipn d ds).
      split; [reflexivity|]. split; [exact Hip|].
      split; [exact Hfp|]. split; [discriminate|]. split; [|exact Hlen].
      rewrite <- E, firstn_skipn. exact Hv.
Qed.

(** The number of digits of a number below [10^k]. *)
Lemma digits_aux_length (fuel : nat) : forall (n : N) (k : nat),
  (n < 10 ^ N.of_nat k)%N -> (0 < k)%nat ->
  (length (digits_aux fuel n []) <= k)%nat.
Proof.
  induction fuel as [|f IH]; intros n k Hn Hk; [simpl; lia|].
  cbn [digits_aux]. destruct (N.ltb_spec n 10) as [Hlt|Hge]; [simpl; lia|].
  rewrite digits_aux_acc, length_app. simpl.
  destruct k as [|k]; [lia|].
  rewrite Nat2N.inj_succ, N.pow_succ_r' in Hn.
  assert (Hk' : (0 < k)%nat).
  { destruct k as [|k]; [|lia]. simpl in Hn. lia. }
  assert (Hdiv : (n / 10 < 10 ^ N.of_nat k)%N)
    by (apply N.Div0.div_lt_upper_bound; lia).
  specialize (IH _ _ Hdiv Hk'). lia.
Qed.

Lemma ndigits_bound (n : N) (k : nat) :
  (n < 10 ^ N.of_nat k)%N -> (0 < k)%nat -> ndigits n <= Z.of_nat k.
Proof.
  intros Hn Hk. unfold ndigits, N_digits.
  pose proof (digits_aux_length (S (N.to_nat (N.log2 n))) n k Hn Hk). lia.
Qed.

(** [Decimal] reads [format(d, "f")] back as [d], for a finite [d] with
    no positive exponent, within the limits of the constructor. *)
Lemma format_f_read_back (s : bool) (c : N) (e : Z) :
  - MAX_PREC <= e <= 0 -> ndigits c <= MAX_PREC ->
  Decimal_of_string (format_f (Fin s c e)) = Some (Fin s c e).
Proof.
  intros [Hlo He] Hc'.
  destruct (format_f_fixed s c e He) as (ip & fp & -> & Hip & Hfp & Hne & Hc & Hl).
  rewrite (Decimal_of_fixed_text s ip fp Hip Hfp Hne), Hc, Hl.
  destruct (Z.ltb_spec MAX_PREC (- e)) as [Hbad|_]; [lia|].
  unfold finite. replace (- - e) with e by lia.
  unfold MAX_PREC, MIN_ETINY, MAX_EMAX in *.
  destruct (Z.leb_spec (-1999999999999999997) e); [|lia].
  destruct (Z.leb_spec (e + ndigits c - 1) 999999999999999999); [|lia].
  destruct (Z.leb_spec (ndigits c) 999999999999999999); [reflexivity | lia].
Qed.

Lemma format_f_nan_read_back (s : bool) (p : N) :
  ndigits p <= MAX_PREC ->
  Decimal_of_string (format_f (NaN s false p)) = Some (NaN s false p).
Proof.
  intros Hbound.
  unfold Decimal_of_string, format_f.
  rewrite list_ascii_of_string_of_list_ascii.
  destruct (N_digits_spec p) as (Hv & Hd & _).
  set (ds := if (p =? 0)%N then [] else N_digits p).
  assert (Hds : Forall (fun c => is_digit c = true) ds)
    by (unfold ds; destruct (p =? 0)%N; [constructor | exact Hd]).
  assert (Hp : digits_to_N ds = p).
  { unfold ds. destruct (N.eqb_spec p 0) as [->|_]; [reflexivity | exact Hv]. }
  destruct (digits_quiet _ Hds) as [Qds Lds].
  cbn [app].
  assert (Hq : Forall (fun c => quiet c = true)
                 (sign_text s ++ "N"%char :: "a"%char :: "N"%char :: ds)).
  { apply Forall_app_2; [destruct s; repeat constructor|].
    repeat (constructor; [reflexivity|]). exact Qds. }
  rewrite (strip_quiet _ Hq), (remove_underscores_quiet _ Hq).
  rewrite map_app. cbn [map]. rewrite (map_lower_id _ Lds).
  change (lower "N") with "n"%char. change (lower "a") with "a"%char.
  assert (Hparse : forall neg,
            parse_unsigned neg ("n"%char :: "a"%char :: "n"%char :: ds)
            = Some (NaN neg false p)).
  { intros neg. unfold parse_unsigned. cbn [span_digits is_digit].
    change (is_digit "n") with false. cbv iota. cbn [app].
    rewrite <- (app_nil_r ds) at 1.
    rewrite (span_digits_all ds []) by first [assumption | exact I].
    rewrite Hp. unfold nan.
    destruct (Z.leb_spec (ndigits p) MAX_PREC); [reflexivity | lia]. }
  destruct s; cbn [sign_text map app]; apply Hparse.
Qed.

(** ** Canonical keys *)

Lemma quantize_0001_inv (d q : Decimal) :
  quantize d Decimal_0_0001 = Ok q ->
  (exists s p, q = NaN s false (p mod 10 ^ 28)%N)
  \/ (exists s c, q = Fin s c (-4)
        /\ (c = 0%N \/ ((Emax <? -4 + ndigits c - 1) = false
                        /\ (prec <? ndigits c) = false))).
Proof.
  unfold quantize, Decimal_0_0001.
  destruct d as [s c e|s|s [] p]; try discriminate.
  - change (negb ((Etiny <=? -4) && (-4 <=? Emax))) with false. cbv iota.
    destruct (c =? 0)%N; [intros [= <-]; right; eauto|].
    destruct (Emax <? e + ndigits c - 1); [discriminate|].
    destruct (prec <? e + ndigits c - 1 - -4 + 1); [discriminate|].
    destruct (Emax <? -4 + ndigits (_rescale c e (-4)) - 1) eqn:E1; [discriminate|].
    destruct (prec <? ndigits (_rescale c e (-4))) eqn:E2; [discriminate|].
    intros [= <-]. right. eauto 6.
  - intros [= <-]. left. eauto.
Qed.

Lemma quantize_0001_idem (d q : Decimal) :
  quantize d Decimal_0_0001 = Ok q -> quantize q Decimal_0_0001 = Ok q.
Proof.
  intros H. apply quantize_0001_inv in H as [(s & p & ->)|(s & c & -> & Hc)].
  - unfold quantize, Decimal_0_0001, _fix_nan. rewrite N.Div0.mod_mod. reflexivity.
  - unfold quantize, Decimal_0_0001.
    change (negb ((Etiny <=? -4) && (-4 <=? Emax))) with false. cbv iota.
    destruct (N.eqb_spec c 0) as [->|Hne]; [reflexivity|].
    destruct Hc as [->|[H1 H2]]; [contradiction|].
    assert (Hr : _rescale c (-4) (-4) = c).
    { unfold _rescale. change (-4 <=? -4) with true. cbv iota.
      change (Z.to_N (-4 - -4)) with 0%N. rewrite N.pow_0_r. lia. }
    rewrite Hr, H1, H2.
    replace (-4 + ndigits c - 1 - -4 + 1) with (ndigits c) by lia.
    rewrite H2. reflexivity.
Qed.

Lemma quantized_read_back (d q : Decimal) :
  quantize d Decimal_0_0001 = Ok q -> Decimal_of_string (format_f q) = Some q.
Proof.
  intros H. apply quantize_0001_inv in H as [(s & p & ->)|(s & c & -> & Hc)].
  - apply format_f_nan_read_back.
    assert (Hp : ndigits (p mod 10 ^ 28) <= Z.of_nat 28).
    { apply ndigits_bound; [|lia]. apply N.mod_lt. discriminate. }
    unfold MAX_PREC. lia.
  - apply format_f_read_back; unfold MAX_PREC; [lia|].
    destruct Hc as [->|[_ Hc]]; [vm_compute; discriminate|].
    unfold prec in Hc. apply Z.ltb_ge in Hc. lia.
Qed.

Lemma price_key_reads_back (value : any) (k : string) :
  _price_key value = Ok k ->
  quantize (_to_decimal value) Decimal_0_0001
  = Ok (_to_decimal (OfValue (VStr k))).
Proof.
  unfold _price_key. intros H. inv_bind H. injection H as <-.
  cbn [_to_decimal py_str]. rewrite (quantized_read_back _ _ E). exact E.
Qed.

Lemma price_key_fixed (value : any) (k : string) :
  _price_key value = Ok k -> _price_key (OfValue (VStr k)) = Ok k.
Proof.
  intros H. pose proof (price_key_reads_back _ _ H) as Hq.
  unfold _price_key at 1. rewrite (quantize_0001_idem _ _ Hq). cbn [bind].
  unfold _price_key in H. rewrite Hq in H. exact H.
Qed.

(** X1: a price key reads back as the rounded price.  When [_price_key]
    returns the key [k] for a value, [_to_decimal(k)] is the Decimal that
    quantizing [_to_decimal(value)] to four fractional digits gives: sign,
    digits and exponent, and for a NaN its payload, are recovered from the
    text. *)
Theorem price_key_read_back (value : any) (k : string) :
  _price_key value = Ok k ->
  quantize (_to_decimal value) Decimal_0_0001
  = Ok (_to_decimal (OfValue (VStr k))).
Proof.
  unfold _price_key. intros H.
  destruct (quantize (_to_decimal value) Decimal_0_0001) as [q|e] eqn:E;
    [|discriminate].
  injection H as <-. cbn [_to_decimal py_str].
  rewrite (quantized_read_back _ _ E). reflexivity.
Qed.

Lemma price_key_read_back_witness :
  _price_key (OfValue (VStr "-.12345")) = Ok "-0.1234"%string
  /\ quantize (_to_decimal (OfValue (VStr "-.12345"))) Decimal_0_0001
     = Ok (_to_decimal (OfValue (VStr "-0.1234"))).
Proof.
  assert (H : _price_key (OfValue (VStr "-.12345")) = Ok "-0.1234"%string)
    by (vm_compute; reflexivity).
  split; [exact H|].
  exact (price_key_read_back (OfValue (VStr "-.12345")) "-0.1234" H).
Defined.

(** X2: price keys are canonical.  A key that [_price_key] returns is
    its own key: [_price_key(k) = k]. *)
Theorem price_key_canonical (value : any) (k : string) :
  _price_key value = Ok k -> _price_key (OfValue (VStr k)) = Ok k.
Proof.
  intros H. pose proof (price_key_reads_back _ _ H) as Hq.
  unfold _price_key at 1. rewrite (quantize_0001_idem _ _ Hq). cbn [bind].
  unfold _price_key in H. rewrite Hq in H. exact H.
Qed.

Lemma price_key_canonical_witness :
  _price_key (OfValue (VFloat "0.5")) = Ok "0.5000"%string
  /\ _price_key (OfValue (VStr "0.5000")) = Ok "0.5000"%string.
Proof.
  assert (H : _price_key (OfValue (VFloat "0.5")) = Ok "0.5000"%string)
    by (vm_compute; reflexivity).
  split; [exact H|].
  exact (price_key_canonical (OfValue (VFloat "0.5")) "0.5000" H).
Defined.

(** ** Snapshots, again *)

(** X3: what a snapshot leaves depends on the state it is applied to
    only through the best price of a side whose new map is empty.  If a
    frame applied to one state gives [st1], then applied to any other
    state it returns too, with the maps of [st1], and with the best price
    of [st1] on every side whose map is not empty and the best price of
    that other state on a side whose map is empty. *)
Theorem snapshot_replaces_state (state state' : book_state) (msg : dict) (st1 : book_state) :
  _apply_book_snapshot state msg = Ok st1 ->
  _apply_book_snapshot state' msg
  = Ok {| asks := asks st1; bids := bids st1;
          best_bid := match bids st1 with [] => best_bid state' | _ => best_bid st1 end;
          best_ask := match asks st1 with [] => best_ask state' | _ => best_ask st1 end |}.
Proof.
  unfold _apply_book_snapshot. intros H.
  inv_bind H. inv_bind H. inv_bind H. inv_bind H. injection H as <-.
  rewrite E, E0. cbn [bind asks bids best_bid best_ask].
  destruct a as [|kv r]; destruct a0 as [|kv' r'].
  - reflexivity.
  - rewrite E2. reflexivity.
  - rewrite E1. reflexivity.
  - rewrite E1. cbn [bind]. rewrite E2. reflexivity.
Qed.

Lemma snapshot_replaces_state_witness :
  _apply_book_snapshot empty_state bids_only_frame
  = Ok {| asks := []; bids := [("0.4600"%string, Fin false 7 0)];
          best_bid := Some (Fin false 4600 (-4)); best_ask := None |}
  /\ _apply_book_snapshot book_state_1 bids_only_frame
     = Ok {| asks := []; bids := [("0.4600"%string, Fin false 7 0)];
             best_bid := Some (Fin false 4600 (-4));
             best_ask := Some (Fin false 5500 (-4)) |}.
Proof.
  assert (H : _apply_book_snapshot empty_state bids_only_frame
              = Ok {| asks := []; bids := [("0.4600"%string, Fin false 7 0)];
                      best_bid := Some (Fin false 4600 (-4)); best_ask := None |})
    by (vm_compute; reflexivity).
  split; [exact H|].
  exact (snapshot_replaces_state empty_state book_state_1 bids_only_frame _ H).
Defined.

(** X4: applying a snapshot is idempotent.  The frame that has just been
    applied, applied again to the state it left, leaves that state. *)
Theorem snapshot_idempotent (state : book_state) (msg : dict) (st1 : book_state) :
  _apply_book_snapshot state msg = Ok st1 ->
  _apply_book_snapshot st1 msg = Ok st1.
Proof.
  unfold _apply_book_snapshot. intros H.
  inv_bind H. inv_bind H. inv_bind H. inv_bind H. injection H as <-.
  rewrite E, E0. cbn [bind asks bids best_bid best_ask].
  destruct a as [|kv r]; destruct a0 as [|kv' r'].
  - reflexivity.
  - rewrite E2. reflexivity.
  - rewrite E1. reflexivity.
  - rewrite E1. cbn [bind]. rewrite E2. reflexivity.
Qed.

Lemma snapshot_idempotent_witness :
  _apply_book_snapshot empty_state book_frame = Ok book_state_1
  /\ _apply_book_snapshot book_state_1 book_frame = Ok book_state_1.
Proof.
  assert (H : _apply_book_snapshot empty_state book_frame = Ok book_state_1)
    by (vm_compute; reflexivity).
  split; [exact H|].
  exact (snapshot_idempotent empty_state book_frame book_state_1 H).
Defined.

Lemma build_side_keys (lvls : list dict) : forall (m0 m : side_map) (k : string),
  build_side lvls m0 = Ok m ->
  In k (map fst m) <->
  In k (map fst m0)
  \/ exists lvl, In lvl lvls /\ gt_0 (level_size lvl) = Ok true
                 /\ _price_key (OfDecimal (level_price lvl)) = Ok k.
Proof.
  induction lvls as [|lvl rest IH]; intros m0 m k H.
  - injection H as <-. split; [auto|]. intros [H|(lvl & [] & _)]. exact H.
  - apply build_side_cons in H as [[Hneg H]|(Hpos & k' & Hk' & H)];
      rewrite (IH _ _ k H).
    + split.
      * intros [Hin|(l & Hl & Hp & Hk)]; [auto|]. right. exists l. simpl. auto.
      * intros [Hin|(l & [<-|Hl] & Hp & Hk)]; [auto| |right; eauto].
        rewrite Hneg in Hp. discriminate.
    + rewrite setitem_keys. split.
      * intros [[->|Hin]|(l & Hl & Hp & Hk)]; [right; exists lvl; simpl; auto|auto|].
        right. exists l. simpl. auto.
      * intros [Hin|(l & [<-|Hl] & Hp & Hk)]; [auto| |right; eauto].
        left. left. rewrite Hk' in Hk. injection Hk as ->. reflexivity.
Qed.

Lemma price_key_of_quantized (p q : Decimal) :
  quantize p Decimal_0_0001 = Ok q ->
  _price_key (OfDecimal p) = Ok (format_f q)
  /\ _to_decimal (OfValue (VStr (format_f q))) = q.
Proof.
  intros H. split; [exact (price_key_quantized _ _ H)|].
  cbn [_to_decimal py_str]. rewrite (quantized_read_back _ _ H). reflexivity.
Qed.

(** The parsed prices of a built map are the rounded prices of the levels
    of positive size. *)
Lemma built_prices (lvls : list dict) (m : side_map) (q : Decimal) :
  build_side lvls [] = Ok m ->
  In q (parsed_prices m) <->
  exists lvl, In lvl lvls /\ gt_0 (level_size lvl) = Ok true
              /\ quantize (level_price lvl) Decimal_0_0001 = Ok q.
Proof.
  intros H. unfold parsed_prices. rewrite in_map_iff. split.
  - intros ([k v] & <- & Hin).
    assert (Hk : In k (map fst m)) by (apply in_map_iff; exists (k, v); auto).
    apply (build_side_keys _ _ _ _ H) in Hk as [[]|(lvl & Hl & Hp & Hk)].
    exists lvl. split; [exact Hl|]. split; [exact Hp|].
    exact (price_key_reads_back _ _ Hk).
  - intros (lvl & Hl & Hp & Hq).
    destruct (price_key_of_quantized _ _ Hq) as [Hk Hback].
    assert (Hin : In (format_f q) (map fst m)).
    { apply (build_side_keys _ _ _ _ H). right. eauto. }
    apply in_map_iff in Hin as ([k v] & Hfst & Hin). simpl in Hfst. subst k.
    exists (format_f q, v). split; [exact Hback | exact Hin].
Qed.

(** X5: the best prices that a snapshot leaves are prices of the frame.
    When the new bids map is not empty, the best bid is the price of a
    level of the frame with a size greater than 0, rounded to four
    fractional digits, and no such level has a greater rounded price; when
    the new asks map is not empty, the best ask is such a rounded price and
    no such level has a smaller one. *)
Theorem snapshot_best_of_levels (state : book_state) (msg : dict) (st1 : book_state) :
  _apply_book_snapshot state msg = Ok st1 ->
  (bids st1 <> [] ->
   exists m, best_bid st1 = Some m
     /\ (exists lvl, In lvl (_iter_levels (side_list msg Bid))
           /\ gt_0 (level_size lvl) = Ok true
           /\ quantize (level_price lvl) Decimal_0_0001 = Ok m)
     /\ (forall lvl q, In lvl (_iter_levels (side_list msg Bid)) ->
           gt_0 (level_size lvl) = Ok true ->
           quantize (level_price lvl) Decimal_0_0001 = Ok q ->
           dec_gt q m <> Ok true))
  /\ (asks st1 <> [] ->
      exists m, best_ask st1 = Some m
        /\ (exists lvl, In lvl (_iter_levels (side_list msg Ask))
              /\ gt_0 (level_size lvl) = Ok true
              /\ quantize (level_price lvl) Decimal_0_0001 = Ok m)
        /\ (forall lvl q, In lvl (_iter_levels (side_list msg Ask)) ->
              gt_0 (level_size lvl) = Ok true ->
              quantize (level_price lvl) Decimal_0_0001 = Ok q ->
              dec_lt q m <> Ok true)).
Proof.
  intros H. apply apply_snapshot_inv in H as (Hb & Ha & Hbb & Hba). split.
  - intros Hne. destruct (bids st1) as [|kv r] eqn:Eb; [contradiction|].
    destruct Hbb as (m & Hm & ->). exists m. split; [reflexivity|].
    apply max_from_spec in Hm. destruct Hm as [Hin Hub].
    change (_to_decimal (OfValue (VStr (fst kv))) :: parsed_prices r)
      with (parsed_prices (kv :: r)) in Hin, Hub.
    split.
    + apply (built_prices _ _ _ Hb). exact Hin.
    + intros lvl q Hl Hp Hq. apply Hub. apply (built_prices _ _ _ Hb). eauto.
  - intros Hne. destruct (asks st1) as [|kv r] eqn:Eb; [contradiction|].
    destruct Hba as (m & Hm & ->). exists m. split; [reflexivity|].
    apply min_from_spec in Hm. destruct Hm as [Hin Hlb].
    change (_to_decimal (OfValue (VStr (fst kv))) :: parsed_prices r)
      with (parsed_prices (kv :: r)) in Hin, Hlb.
    split.
    + apply (built_prices _ _ _ Ha). exact Hin.
    + intros lvl q Hl Hp Hq. apply Hlb. apply (built_prices _ _ _ Ha). eauto.
Qed.

Lemma snapshot_best_of_levels_witness :
  _apply_book_snapshot empty_state book_frame = Ok book_state_1
  /\ exists lvl, In lvl (_iter_levels (side_list book_frame Bid))
       /\ quantize (level_price lvl) Decimal_0_0001 = Ok (Fin false 4500 (-4)).
Proof.
  assert (H : _apply_book_snapshot empty_state book_frame = Ok book_state_1)
    by (vm_compute; reflexivity).
  split; [exact H|].
  destruct (snapshot_best_of_levels empty_state book_frame book_state_1 H) as [Hb _].
  destruct Hb as (m & Hm & (lvl & Hl & _ & Hq) & _); [discriminate|].
  simpl in Hm. injection Hm as <-. exists lvl. split; assumption.
Defined.

(** ** What a frame does to the books *)

Lemma price_change_item_flag (bs bs1 : books_t) (ch : bool) (item : dict) :
  price_change_item (bs, ch) item = (bs1, false) -> ch = false /\ bs1 = bs.
Proof.
  unfold price_change_item.
  destruct (bs !! str_field item "asset_id") as [st|] eqn:E.
  - intros [= <- Hch].
    apply orb_false_elim in Hch as [Hch Hask].
    apply orb_false_elim in Hch as [Hch Hbid].
    apply negb_false_iff in Hask, Hbid. rewrite Hask, Hbid.
    split; [exact Hch|]. apply insert_id. exact E.
  - intros [= <- ->]. auto.
Qed.

Lemma price_change_fold_flag (items : list dict) : forall bs bs1 ch,
  fold_left price_change_item items (bs, ch) = (bs1, false) -> ch = false /\ bs1 = bs.
Proof.
  induction items as [|item r IH]; cbn [fold_left]; intros bs bs1 ch H.
  - injection H as <- ->. auto.
  - destruct (price_change_item (bs, ch) item) as [bs2 ch2] eqn:E.
    apply IH in H as [-> ->]. exact (price_change_item_flag _ _ _ _ E).
Qed.

Lemma process_msg_flag (bs bs1 : books_t) (ch : bool) (msg : dict) :
  process_msg (bs, ch) msg = Ok (bs1, false) -> ch = false /\ bs1 = bs.
Proof.
  unfold process_msg. destruct (is_book msg).
  - destruct (bs !! str_field msg "asset_id") as [st|].
    + intros H. inv_bind H. discriminate.
    + intros [= <- ->]. auto.
  - destruct (String.eqb _ _).
    + destruct (_apply_price_change bs msg) as [bs2 c] eqn:E.
      intros [= <- Hch]. apply orb_false_elim in Hch as [-> ->].
      split; [reflexivity|].
      unfold _apply_price_change in E.
      exact (proj2 (price_change_fold_flag _ _ _ _ E)).
    + intros [= <- ->]. auto.
Qed.

Lemma process_items_flag (items : list dict) : forall bs bs1 ch,
  process_items (bs, ch) items = Ok (bs1, false) -> ch = false /\ bs1 = bs.
Proof.
  induction items as [|msg r IH]; simpl; intros bs bs1 ch H.
  - injection H as <- ->. auto.
  - inv_bind H. destruct a as [bs2 ch2].
    apply IH in H as [-> ->]. exact (process_msg_flag _ _ _ _ E).
Qed.

(** X6: the [changed] flag of a frame is sound.  When the processing of
    a payload ends with [changed] still false, so that the dashboard is not
    redrawn, no book has been modified. *)
Theorem unchanged_flag_sound (bs bs' : books_t) (payload : value) :
  process_payload bs payload = Ok (bs', false) -> bs' = bs.
Proof.
  unfold process_payload. destruct payload;
    try (intros [= <-]; reflexivity);
    intros H; exact (proj2 (process_items_flag _ _ _ _ H)).
Qed.

Lemma unchanged_flag_sound_witness :
  exists bs' : books_t,
    process_payload {[ "X"%string := book_state_1 ]}
      (VList [VDict buys_only_frame; VInt 3]) = Ok (bs', false)
    /\ bs' = {[ "X"%string := book_state_1 ]}.
Proof.
  assert (H : process_payload {[ "X"%string := book_state_1 ]}
                (VList [VDict buys_only_frame; VInt 3])
              = Ok ({[ "X"%string := book_state_1 ]}, false))
    by (vm_compute; reflexivity).
  eexists. split; [exact H|].
  exact (unchanged_flag_sound _ _ _ H).
Defined.

(** Each instrument keeps its maps, or takes those of a snapshot. *)
Lemma process_msg_lookup (acc acc' : books_t * bool) (msg : dict) (t : string) :
  process_msg acc msg = Ok acc' ->
  (bids <$> (fst acc' !! t) = bids <$> (fst acc !! t)
   /\ asks <$> (fst acc' !! t) = asks <$> (fst acc !! t))
  \/ exists st st', fst acc !! t = Some st /\ fst acc' !! t = Some st'
                    /\ _apply_book_snapshot st msg = Ok st'.
Proof.
  destruct acc as [bs ch]. unfold process_msg. cbn [fst].
  destruct (is_book msg).
  - destruct (bs !! str_field msg "asset_id") as [st|] eqn:E.
    + intros H. inv_bind H. injection H as <-. cbn [fst].
      destruct (decide (str_field msg "asset_id" = t)) as [<-|Hne].
      * right. exists st, a. rewrite lookup_insert_eq. auto.
      * left. rewrite lookup_insert_ne by exact Hne. auto.
    + intros [= <-]. left. auto.
  - destruct (String.eqb _ _).
    + pose proof (price_change_fold_maps (_iter_levels (get msg "price_changes"))
                    (bs, false) t) as Hm.
      fold (_apply_price_change bs msg) in Hm.
      destruct (_apply_price_change bs msg) as [bs2 c].
      intros [= <-]. left. exact Hm.
    + intros [= <-]. left. auto.
Qed.

Lemma process_msg_all (P : side_map -> Prop) (acc acc' : books_t * bool) (msg : dict) :
  (forall lvls m, build_side lvls [] = Ok m -> P m) ->
  books_all P (fst acc) -> process_msg acc msg = Ok acc' -> books_all P (fst acc').
Proof.
  intros HP Hacc H t st' Ht.
  destruct (process_msg_lookup _ _ _ t H) as [[Hb Ha]|(st & st1 & Hst & Hst1 & Hs)].
  - rewrite Ht in Hb, Ha. destruct (fst acc !! t) as [st|] eqn:E; [|discriminate].
    simpl in Hb, Ha. injection Hb as Hb. injection Ha as Ha. rewrite Hb, Ha.
    exact (Hacc t st E).
  - rewrite Ht in Hst1. injection Hst1 as <-.
    apply apply_snapshot_inv in Hs as (Hb & Ha & _). eauto.
Qed.

Lemma process_msg_tracked (acc acc' : books_t * bool) (msg : dict) (t : string) :
  process_msg acc msg = Ok acc' -> is_Some (fst acc' !! t) <-> is_Some (fst acc !! t).
Proof.
  intros H.
  destruct (process_msg_lookup _ _ _ t H) as [[Hb _]|(st & st1 & -> & -> & _)].
  - destruct (fst acc' !! t), (fst acc !! t); try discriminate; split; eauto;
      intros [x Hx]; discriminate.
  - split; eauto.
Qed.

Lemma process_items_all (P : side_map -> Prop) (items : list dict) : forall acc acc',
  (forall lvls m, build_side lvls [] = Ok m -> P m) ->
  books_all P (fst acc) -> process_items acc items = Ok acc' -> books_all P (fst acc').
Proof.
  induction items as [|msg r IH]; simpl; intros acc acc' HP Hacc H.
  - injection H as <-. exact Hacc.
  - inv_bind H. eapply IH; [exact HP| |exact H].
    eapply process_msg_all; eassumption.
Qed.

Lemma process_items_tracked (items : list dict) (t : string) : forall acc acc',
  process_items acc items = Ok acc' -> is_Some (fst acc' !! t) <-> is_Some (fst acc !! t).
Proof.
  induction items as [|msg r IH]; simpl; intros acc acc' H.
  - injection H as <-. reflexivity.
  - inv_bind H. rewrite (IH _ _ H). exact (process_msg_tracked _ _ _ t E).
Qed.

Lemma process_frame_all (P : side_map -> Prop) (bs : books_t) (raw : frame) (acc' : books_t * bool) :
  (forall lvls m, build_side lvls [] = Ok m -> P m) ->
  books_all P bs -> process_frame bs raw = Ok acc' -> books_all P (fst acc').
Proof.
  intros HP Hbs H. destruct raw as [|payload]; [discriminate|].
  unfold process_frame, process_payload in H.
  destruct payload;
    try (injection H as <-; exact Hbs);
    eapply (process_items_all P _ (bs, false)); eassumption.
Qed.

Lemma process_frame_tracked (bs : books_t) (raw : frame) (acc' : books_t * bool) (t : string) :
  process_frame bs raw = Ok acc' -> is_Some (fst acc' !! t) <-> is_Some (bs !! t).
Proof.
  intros H. destruct raw as [|payload]; [discriminate|].
  unfold process_frame, process_payload in H.
  destruct payload;
    try (injection H as <-; reflexivity);
    exact (process_items_tracked _ t (bs, false) _ H).
Qed.

(** ** What a run keeps *)

Lemma on_exception_books (st : running) (e : exn) (st' : running) :
  on_exception st e = Running st' -> books st' = books st.
Proof.
  unfold on_exception. destruct (caught e); [|discriminate].
  intros [= <-]. reflexivity.
Qed.

Lemma step_all (P : side_map -> Prop) (st : running) (ev : event) (s' : session) :
  (forall lvls m, build_side lvls [] = Ok m -> P m) ->
  books_all P (books st) -> step st ev = Some s' -> session_all P s'.
Proof.
  unfold step. intros HP Hst H.
  assert (Hex : forall e, session_all P (on_exception st e)).
  { intros e. unfold on_exception. destruct (caught e); simpl; auto. }
  destruct (at_ st), ev; try discriminate;
    try (injection H as <-; first [exact Hst | apply Hex]).
  destruct (process_frame (books st) raw) as [[bs' c]|e] eqn:E;
    injection H as <-; [|apply Hex].
  simpl. exact (process_frame_all P _ _ _ HP Hst E).
Qed.

Lemma run_all (P : side_map -> Prop) (evs : list event) : forall s s',
  (forall lvls m, build_side lvls [] = Ok m -> P m) ->
  session_all P s -> run s evs = Some s' -> session_all P s'.
Proof.
  induction evs as [|ev rest IH]; simpl; intros s s' HP Hs H.
  - injection H as <-. exact Hs.
  - destruct s as [st|e]; [|discriminate].
    destruct (step st ev) as [s1|] eqn:E; [|discriminate].
    eapply IH; [exact HP| |exact H]. eapply step_all; eassumption.
Qed.

Lemma step_tracks (token_ids : list string) (st : running) (ev : event) (s' : session) :
  session_tracks token_ids (Running st) -> step st ev = Some s' ->
  session_tracks token_ids s'.
Proof.
  unfold step. intros Hst H.
  assert (Hex : forall e, session_tracks token_ids (on_exception st e)).
  { intros e. unfold on_exception. destruct (caught e); simpl; auto. }
  destruct (at_ st), ev; try discriminate;
    try (injection H as <-; first [exact Hst | apply Hex]).
  destruct (process_frame (books st) raw) as [[bs' c]|e] eqn:E;
    injection H as <-; [|apply Hex].
  simpl. intros t. rewrite <- (Hst t).
  exact (process_frame_tracked _ _ _ t E).
Qed.

Lemma run_tracks (token_ids : list string) (evs : list event) : forall s s',
  session_tracks token_ids s -> run s evs = Some s' -> session_tracks token_ids s'.
Proof.
  induction evs as [|ev rest IH]; simpl; intros s s' Hs H.
  - injection H as <-. exact Hs.
  - destruct s as [st|e]; [|discriminate].
    destruct (step st ev) as [s1|] eqn:E; [|discriminate].
    eapply IH; [|exact H]. eapply step_tracks; eassumption.
Qed.

Lemma start_lookup (token_ids : list string) (t : string) :
  (is_Some ((list_to_map (map (fun t => (t, empty_state)) token_ids) : books_t) !! t)
   <-> In t token_ids)
  /\ (forall st,
        (list_to_map (map (fun t => (t, empty_state)) token_ids) : books_t) !! t
        = Some st -> st = empty_state).
Proof.
  induction token_ids as [|x r [IH1 IH2]].
  - split; [|intros st H; discriminate].
    split; [intros [st H]; discriminate | intros []].
  - cbn [map list_to_map foldr].
    destruct (decide (x = t)) as [->|Hne].
    + rewrite lookup_insert_eq. split; [|intros st [= <-]; reflexivity].
      split; [left; reflexivity | eauto].
    + rewrite lookup_insert_ne by exact Hne. split; [|exact IH2].
      rewrite IH1. simpl. tauto.
Qed.

(** X7: the set of tracked instruments never changes.  In every running
    state of a stream started on [token_ids], the tokens that have a book
    are exactly those of [token_ids]: no frame adds or removes one. *)
Theorem tracked_instruments_fixed (token_ids : list string) (evs : list event) (st : running) :
  stream_market_orderbook token_ids evs = Some (Running st) ->
  forall t, is_Some (books st !! t) <-> In t token_ids.
Proof.
  intros H. apply (run_tracks token_ids evs _ _) in H; [exact H|].
  simpl. intros t. exact (proj1 (start_lookup token_ids t)).
Qed.

Lemma tracked_instruments_fixed_witness :
  stream_market_orderbook ["X"%string]
    [Connected; Sent; Received (Json (VDict book_frame))]
  = Some (Running (streaming_X book_state_1))
  /\ forall t, is_Some (books (streaming_X book_state_1) !! t) <-> In t ["X"%string].
Proof.
  assert (H : stream_market_orderbook ["X"%string]
                [Connected; Sent; Received (Json (VDict book_frame))]
              = Some (Running (streaming_X book_state_1)))
    by (vm_compute; reflexivity).
  split; [exact H|].
  exact (tracked_instruments_fixed _ _ _ H).
Defined.

Lemma built_canonical (lvls : list dict) (m : side_map) :
  build_side lvls [] = Ok m -> canonical_keys m.
Proof.
  intros H. split.
  - eapply build_side_NoDup; [|exact H]. apply NoDup_nil_2.
  - apply List.Forall_forall. intros [k v] Hin.
    assert (Hk : In k (map fst m)) by (apply in_map_iff; exists (k, v); auto).
    apply (build_side_keys _ _ _ _ H) in Hk as [[]|(lvl & _ & _ & Hk)].
    exact (price_key_fixed _ _ Hk).
Qed.

(** X8: in every state that a run of the stream reaches, the keys of
    every bids and asks map are distinct and canonical: each key is the
    text that [_price_key] returns for it. *)
Theorem reachable_keys_canonical (s : session) :
  reachable s -> session_all canonical_keys s.
Proof.
  intros (token_ids & evs & H).
  eapply run_all; [exact built_canonical| |exact H].
  simpl. intros t st Ht. apply (proj2 (start_lookup token_ids t)) in Ht.
  subst st. split; (split; [apply NoDup_nil_2 | constructor]).
Qed.

Lemma reachable_keys_canonical_witness :
  session_all canonical_keys (Running (streaming_X book_state_1)).
Proof.
  apply (reachable_keys_canonical (Running (streaming_X book_state_1))).
  exists ["X"%string], [Connected; Sent; Received (Json (VDict book_frame))].
  vm_compute. reflexivity.
Defined.

(** X9: the stream only ends with an exception that its [except] clause
    does not name.  Whatever the awaited operations answer, a run never
    ends with [ConnectionClosed], [OSError] or [TimeoutError]. *)
Theorem stream_ends_uncaught (evs : list event) : forall (st : running) (e : exn),
  run (Running st) evs = Some (Terminated e) -> caught e = false.
Proof.
  induction evs as [|ev rest IH]; intros st e H; [discriminate|].
  cbn [run] in H. destruct (step st ev) as [s1|] eqn:E; [|discriminate].
  destruct s1 as [st1|e1]; [exact (IH _ _ H)|].
  assert (He : e1 = e).
  { destruct rest; [injection H as ->; reflexivity | discriminate]. }
  subst e1. clear H IH.
  assert (Hex : forall x, on_exception st x = Terminated e -> caught e = false).
  { intros x. unfold on_exception. destruct (caught x) eqn:Ex; [discriminate|].
    intros [= <-]. exact Ex. }
  unfold step in E. destruct (at_ st), ev; try discriminate;
    try (injection E as E; exact (Hex _ E)).
  destruct (process_frame (books st) raw) as [[bs' c]|x] eqn:Ef;
    injection E as E; [discriminate|].
  exact (Hex _ E).
Qed.

Lemma stream_ends_uncaught_witness :
  run (Running (streaming_X book_state_1)) [Received Malformed]
  = Some (Terminated JSONDecodeError)
  /\ caught JSONDecodeError = false.
Proof.
  assert (H : run (Running (streaming_X book_state_1)) [Received Malformed]
              = Some (Terminated JSONDecodeError))
    by (vm_compute; reflexivity).
  split; [exact H|].
  exact (stream_ends_uncaught _ _ _ H).
Defined.

(** X10: the books survive reconnects.  Over any run in which no frame
    is received (connects, sends, failures, sleeps) the books are
    unchanged: a reconnect does not reset them. *)
Theorem connection_events_keep_books (evs : list event) : forall (st st' : running),
  Forall connection_event evs ->
  run (Running st) evs = Some (Running st') -> books st' = books st.
Proof.
  induction evs as [|ev rest IH]; intros st st' Hevs H.
  - injection H as <-. reflexivity.
  - inversion Hevs as [|? ? Hev Hrest]; subst.
    cbn [run] in H. destruct (step st ev) as [s1|] eqn:E; [|discriminate].
    destruct s1 as [st1|e1]; [|destruct rest; discriminate].
    rewrite (IH _ _ Hrest H).
    unfold step in E. destruct (at_ st), ev; try discriminate;
      try contradiction;
      try (injection E as <-; reflexivity);
      injection E as E; exact (on_exception_books _ _ _ E).
Qed.

Lemma connection_events_keep_books_witness :
  Forall connection_event [Failed OSError; Woke; Connected; Sent]
  /\ exists st',
       run (Running (streaming_X book_state_1)) [Failed OSError; Woke; Connected; Sent]
       = Some (Running st')
       /\ sleeps st' = [1]
       /\ books st' = books (streaming_X book_state_1).
Proof.
  assert (HF : Forall connection_event [Failed OSError; Woke; Connected; Sent])
    by (repeat (constructor; [exact I|]); constructor).
  assert (H : run (Running (streaming_X book_state_1))
                [Failed OSError; Woke; Connected; Sent]
              = Some (Running {| at_ := Streaming; reconnect_delay := 1;
                                 books := {[ "X"%string := book_state_1 ]};
                                 sleeps := [1] |}))
    by (vm_compute; reflexivity).
  split; [exact HF|]. eexists. split; [exact H|]. split; [reflexivity|].
  exact (connection_events_keep_books _ _ _ HF H).
Defined.

(** ** Depth and the top level *)

Lemma slice_to_length {A} (rows : list A) (depth : Z) :
  Z.of_nat (length (slice_to rows depth))
  = if 0 <=? depth then Z.min depth (Z.of_nat (length rows))
    else Z.max 0 (Z.of_nat (length rows) + depth).
Proof.
  unfold slice_to. destruct (Z.leb_spec 0 depth); rewrite length_firstn; lia.
Qed.

(** X11: how many levels an accessor returns.  With [n] levels of
    positive size in the map, [_levels_desc] and [_levels_asc] return
    [min depth n] rows for a depth of 0 or more, and for a negative depth
    all but the last [-depth] rows: [max 0 (n + depth)]. *)
Theorem levels_length (m : side_map) (depth : Z) (rows : list row) :
  _levels_desc m depth = Ok rows \/ _levels_asc m depth = Ok rows ->
  Z.of_nat (length rows)
  = if 0 <=? depth then Z.min depth (Z.of_nat (length (positive_levels m)))
    else Z.max 0 (Z.of_nat (length (positive_levels m)) + depth).
Proof.
  unfold _levels_desc, _levels_asc. intros [H|H];
    inv_bind H; inv_bind H; injection H as <-;
    apply level_rows_spec in E; subst a;
    rewrite slice_to_length.
  - rewrite (Permutation_length (sort_desc_perm _ _ E0)). reflexivity.
  - rewrite (Permutation_length (sort_asc_perm _ _ E0)). reflexivity.
Qed.

Lemma levels_length_witness :
  _levels_desc (bids zero_prices_state) (-1)
  = Ok [(Fin false 0 (-4), Fin false 1 0)]
  /\ Z.of_nat (length [(Fin false 0 (-4), Fin false 1 0)]) = 1.
Proof.
  assert (H : _levels_desc (bids zero_prices_state) (-1)
              = Ok [(Fin false 0 (-4), Fin false 1 0)])
    by (vm_compute; reflexivity).
  split; [exact H|].
  exact (levels_length (bids zero_prices_state) (-1) _ (or_introl H)).
Defined.

Lemma slice_to_head {A} (rows : list A) (depth : Z) (r : A) (rest : list A) :
  slice_to rows depth = r :: rest -> exists tail, rows = r :: tail.
Proof.
  unfold slice_to. destruct (0 <=? depth);
    (destruct rows as [|x t]; [rewrite firstn_nil; discriminate|]);
    match goal with |- firstn ?n _ = _ -> _ => destruct n end;
    try discriminate; cbn [firstn]; intros [= -> _]; eauto.
Qed.

Lemma positive_levels_all (m : side_map) :
  sizes_positive m -> map fst (positive_levels m) = parsed_prices m.
Proof.
  unfold positive_levels, parsed_prices, sizes_positive.
  induction 1 as [|kv r Hkv _ IH]; [reflexivity|].
  cbn [List.filter]. unfold is_positive at 1. rewrite Hkv.
  cbn [map fst]. f_equal. exact IH.
Qed.

Lemma prices_of_sorted (m : side_map) (sorted : list row) (x : Decimal) :
  sizes_positive m -> Permutation sorted (positive_levels m) ->
  In x (map fst sorted) <-> In x (parsed_prices m).
Proof.
  intros Hm Hp. rewrite <- (positive_levels_all m Hm).
  split; apply Permutation_in, Permutation_map;
    [exact Hp | exact (Permutation_sym Hp)].
Qed.

(** X12: after a snapshot the first row of [_levels_desc] on the bids
    carries the best bid, and the first row of [_levels_asc] on the asks
    the best ask: the same Decimal, or one numerically equal. *)
Theorem top_level_is_best (state : book_state) (msg : dict) (st1 : book_state) :
  _apply_book_snapshot state msg = Ok st1 ->
  (forall depth r rows, _levels_desc (bids st1) depth = Ok (r :: rows) ->
     exists m, best_bid st1 = Some m /\ (fst r = m \/ num_eq (fst r) m))
  /\ (forall depth r rows, _levels_asc (asks st1) depth = Ok (r :: rows) ->
       exists m, best_ask st1 = Some m /\ (fst r = m \/ num_eq (fst r) m)).
Proof.
  intros H. destruct (apply_snapshot_positive _ _ _ H) as [Pb Pa].
  apply apply_snapshot_inv in H as (_ & _ & Hbb & Hba). split.
  - intros depth r rows Hl. unfold _levels_desc in Hl.
    inv_bind Hl. inv_bind Hl. injection Hl as Hl.
    apply level_rows_spec in E. subst a. rename a0 into sorted.
    apply slice_to_head in Hl as [tail ->].
    pose proof (sort_desc_perm _ _ E0) as Hp.
    pose proof (sort_desc_sorted _ _ E0) as Hs.
    apply StronglySorted_inv in Hs as [_ Hs].
    destruct (bids st1) as [|kv rest] eqn:Eb.
    { apply Permutation_length in Hp. discriminate. }
    destruct Hbb as (m & Hm & ->). exists m. split; [reflexivity|].
    apply max_from_spec in Hm. destruct Hm as [Hin Hub].
    change (_to_decimal (OfValue (VStr (fst kv))) :: parsed_prices rest)
      with (parsed_prices (kv :: rest)) in Hin, Hub.
    assert (Hr : dec_gt (fst r) m <> Ok true).
    { apply Hub. apply (prices_of_sorted _ _ _ Pb Hp). left. reflexivity. }
    apply (prices_of_sorted _ _ _ Pb Hp) in Hin.
    apply in_map_iff in Hin as (r' & Hfst & [<-|Hin]); [left; exact Hfst|].
    right. pose proof (proj1 (List.Forall_forall _ _) Hs r' Hin) as Hge.
    unfold ge_price in Hge. rewrite Hfst in Hge.
    apply dec_lt_Ok in Hge as (Nr & Nm & Hge).
    repeat split; trivial.
    unfold dec_gt in Hr. rewrite ordering_not_nan in Hr by assumption.
    destruct (_cmp (fst r) m); [reflexivity| |congruence].
    destruct Hge as [_ Hge]. discriminate (Hge eq_refl).
  - intros depth r rows Hl. unfold _levels_asc in Hl.
    inv_bind Hl. inv_bind Hl. injection Hl as Hl.
    apply level_rows_spec in E. subst a. rename a0 into sorted.
    apply slice_to_head in Hl as [tail ->].
    pose proof (sort_asc_perm _ _ E0) as Hp.
    pose proof (sort_asc_sorted _ _ E0) as Hs.
    apply StronglySorted_inv in Hs as [_ Hs].
    destruct (asks st1) as [|kv rest] eqn:Eb.
    { apply Permutation_length in Hp. discriminate. }
    destruct Hba as (m & Hm & ->). exists m. split; [reflexivity|].
    apply min_from_spec in Hm. destruct Hm as [Hin Hlb].
    change (_to_decimal (OfValue (VStr (fst kv))) :: parsed_prices rest)
      with (parsed_prices (kv :: rest)) in Hin, Hlb.
    assert (Hr : dec_lt (fst r) m <> Ok true).
    { apply Hlb. apply (prices_of_sorted _ _ _ Pa Hp). left. reflexivity. }
    apply (prices_of_sorted _ _ _ Pa Hp) in Hin.
    apply in_map_iff in Hin as (r' & Hfst & [<-|Hin]); [left; exact Hfst|].
    right. pose proof (proj1 (List.Forall_forall _ _) Hs r' Hin) as Hle.
    unfold le_price in Hle. rewrite Hfst in Hle.
    apply dec_lt_Ok in Hle as (Nm & Nr & Hle).
    repeat split; trivial.
    unfold dec_lt in Hr. rewrite ordering_not_nan in Hr by assumption.
    rewrite (cmp_antisym (fst r) m) in Hle.
    destruct (_cmp (fst r) m); [reflexivity|congruence|].
    destruct Hle as [_ Hle]. discriminate (Hle eq_refl).
Qed.

Lemma top_level_is_best_witness :
  _apply_book_snapshot empty_state book_frame = Ok book_state_1
  /\ _levels_desc (bids book_state_1) 5 = Ok [(Fin false 4500 (-4), Fin false 10 0)]
  /\ exists m, best_bid book_state_1 = Some m
       /\ (Fin false 4500 (-4) = m \/ num_eq (Fin false 4500 (-4)) m).
Proof.
  assert (H : _apply_book_snapshot empty_state book_frame = Ok book_state_1)
    by (vm_compute; reflexivity).
  assert (Hd : _levels_desc (bids book_state_1) 5
               = Ok [(Fin false 4500 (-4), Fin false 10 0)])
    by (vm_compute; reflexivity).
  split; [exact H|]. split; [exact Hd|].
  exact (proj1 (top_level_is_best empty_state book_frame book_state_1 H) 5 _ _ Hd).
Defined.

(** ** The depth of the display *)

(** X13: the depth that [main] hands to the stream.  It is at least 1,
    at most [max(1, --depth)] and at most [max(4, (rows - 14) // 2)];
    a requested depth of 4 or less is kept whatever the height of the
    terminal.  Being positive, it makes every slice [rows[:depth]] of the
    accessors the first [depth] rows. *)
Theorem main_depth_bounds (rows depth_arg : Z) :
  1 <= main_depth rows depth_arg
  /\ main_depth rows depth_arg <= Z.max 1 depth_arg
  /\ main_depth rows depth_arg <= Z.max 4 ((rows - 14) / 2)
  /\ (depth_arg <= 4 -> main_depth rows depth_arg = Z.max 1 depth_arg)
  /\ (forall (A : Type) (l : list A),
        slice_to l (main_depth rows depth_arg)
        = firstn (Z.to_nat (main_depth rows depth_arg)) l).
Proof.
  unfold main_depth, _fit_depth_to_terminal.
  generalize ((rows - 14) / 2). intros q.
  repeat split; try lia.
  intros A l. unfold slice_to.
  destruct (Z.leb_spec 0 (Z.max 1 (Z.min (Z.max 1 depth_arg) (Z.max 4 q))));
    [reflexivity | lia].
Qed.

(** ** The slug of an event URL *)

Lemma list_ascii_of_append (a b : string) :
  list_ascii_of_string (String.append a b)
  = list_ascii_of_string a ++ list_ascii_of_string b.
Proof. induction a as [|c a IH]; simpl; [reflexivity | rewrite IH; reflexivity]. Qed.

Lemma before_char_absent (c : ascii) (s : list ascii) : ~ In c (before_char c s).
Proof.
  induction s as [|x r IH]; simpl; [tauto|].
  destruct (Ascii.eqb_spec x c) as [->|Hne]; simpl; [tauto|].
  intros [H|H]; [contradiction | exact (IH H)].
Qed.

Lemma before_char_app (c : ascii) (l t : list ascii) :
  ~ In c l -> before_char c (l ++ c :: t) = l.
Proof.
  induction l as [|x r IH]; simpl; intros H.
  - rewrite Ascii.eqb_refl. reflexivity.
  - destruct (Ascii.eqb_spec x c) as [->|Hne]; [tauto|].
    rewrite IH by tauto. reflexivity.
Qed.

Lemma before_char_none (c : ascii) (l : list ascii) :
  ~ In c l -> before_char c l = l.
Proof.
  induction l as [|x r IH]; simpl; intros H; [reflexivity|].
  destruct (Ascii.eqb_spec x c) as [->|Hne]; [tauto|].
  rewrite IH by tauto. reflexivity.
Qed.

Lemma lstrip_char_head (c : ascii) (s : list ascii) :
  match s with [] => True | x :: _ => x <> c end -> lstrip_char c s = s.
Proof.
  destruct s as [|x r]; [reflexivity|]. simpl. intros H.
  destruct (Ascii.eqb_spec x c); [contradiction | reflexivity].
Qed.

Lemma lstrip_char_stops (c x : ascii) (l t : list ascii) :
  x <> c -> exists l', lstrip_char c (l ++ x :: t) = l' ++ x :: t.
Proof.
  intros Hx. induction l as [|a r IH]; simpl.
  - destruct (Ascii.eqb_spec x c); [contradiction|]. exists []. reflexivity.
  - destruct (Ascii.eqb a c); [exact IH|]. exists (a :: r). reflexivity.
Qed.

Lemma strip_char_clean (c : ascii) (s : list ascii) :
  ~ In c s -> strip_char c s = s.
Proof.
  intros H. unfold strip_char.
  rewrite (lstrip_char_head c s) by (destruct s; [exact I | simpl in H; tauto]).
  rewrite lstrip_char_head; [apply rev_involutive|].
  destruct (List.rev s) as [|x r] eqn:E; [exact I|].
  intros ->. apply H. apply in_rev. rewrite E. left. reflexivity.
Qed.

(** Stripping slashes from [slug?query] leaves the slug and the mark. *)
Lemma strip_char_query (slug q : list ascii) :
  ~ In "/"%char slug ->
  exists q', strip_char "/" (slug ++ "?"%char :: q) = slug ++ "?"%char :: q'.
Proof.
  intros H. unfold strip_char.
  rewrite (lstrip_char_head "/" (slug ++ "?"%char :: q)).
  2:{ destruct slug as [|x r]; simpl; [discriminate|]. simpl in H. tauto. }
  assert (Hrev : List.rev (slug ++ "?"%char :: q)
                 = List.rev q ++ "?"%char :: List.rev slug).
  { rewrite rev_app_distr. simpl. rewrite <- app_assoc. reflexivity. }
  rewrite Hrev.
  destruct (lstrip_char_stops "/" "?" (List.rev q) (List.rev slug)) as [l' ->];
    [discriminate|].
  exists (List.rev l'). rewrite rev_app_distr. simpl.
  rewrite rev_involutive, <- app_assoc. reflexivity.
Qed.

Lemma after_first_found (base rest : list ascii) :
  contains_sub ["/"; "e"]%char base = false ->
  after_first (list_ascii_of_string "/event/")
    (base ++ list_ascii_of_string "/event/" ++ rest)
  = Some rest.
Proof.
  induction base as [|c b IH]; intros H.
  - reflexivity.
  - cbn [contains_sub] in H. apply orb_false_elim in H as [Hc Hb].
    cbn [app after_first].
    assert (E : starts_with (list_ascii_of_string "/event/")
                  (c :: b ++ list_ascii_of_string "/event/" ++ rest) = false).
    { change (list_ascii_of_string "/event/")
        with ("/"%char :: "e"%char :: list_ascii_of_string "vent/").
      cbn [starts_with] in Hc |- *.
      destruct (Ascii.eqb "/" c); [|reflexivity]. cbn [andb] in Hc |- *.
      destruct b as [|d b']; [reflexivity|].
      cbn [app starts_with] in Hc |- *.
      rewrite andb_true_r in Hc. rewrite Hc. reflexivity. }
    rewrite E. exact (IH Hb).
Qed.

(** X14: the slug that [_event_slug_from_url] returns never contains a
    question mark, whatever the text of the URL. *)
Theorem event_slug_has_no_query (url : string) :
  ~ In "?"%char (list_ascii_of_string (_event_slug_from_url url)).
Proof.
  unfold _event_slug_from_url. rewrite list_ascii_of_string_of_list_ascii.
  apply before_char_absent.
Qed.

(** X15: the slug is read back from an event URL.  For a URL made of a
    base without ["/e"], then ["/event/"], a slug without ["/"] and
    ["?"], and nothing more or a query that starts with ["?"],
    [_event_slug_from_url] returns the slug. *)
Theorem event_slug_of_url (base slug query : string) :
  contains_sub ["/"; "e"]%char (list_ascii_of_string base) = false ->
  ~ In "/"%char (list_ascii_of_string slug) ->
  ~ In "?"%char (list_ascii_of_string slug) ->
  query = ""%string \/ (exists q, query = String "?" q) ->
  _event_slug_from_url
    (String.append base (String.append "/event/" (String.append slug query)))
  = slug.
Proof.
  intros Hbase Hslash Hmark Hq. unfold _event_slug_from_url.
  rewrite !list_ascii_of_append.
  rewrite (after_first_found _ _ Hbase).
  destruct Hq as [->|[q ->]].
  - cbn [list_ascii_of_string]. rewrite app_nil_r.
    rewrite (strip_char_clean _ _ Hslash), (before_char_none _ _ Hmark).
    apply string_of_list_ascii_of_string.
  - cbn [list_ascii_of_string].
    destruct (strip_char_query (list_ascii_of_string slug)
                (list_ascii_of_string q) Hslash) as [q' ->].
    rewrite (before_char_app _ _ _ Hmark).
    apply string_of_list_ascii_of_string.
Qed.

Lemma event_slug_of_url_witness :
  _event_slug_from_url "https://polymarket.com/event/us-strikes-iran-by?tid=1"
  = "us-strikes-iran-by"%string.
Proof.
  apply (event_slug_of_url "https://polymarket.com" "us-strikes-iran-by" "?tid=1").
  - reflexivity.
  - vm_compute. intuition discriminate.
  - vm_compute. intuition discriminate.
  - right. exists "tid=1"%string. reflexivity.
Defined.

(** ** The choice of a market *)

Lemma first_with_slug_spec (needle : string) (xs : list value) (m : value) :
  first_with_slug needle xs = Selected m ->
  exists pre market post,
    xs = pre ++ VDict market :: post
    /\ m = VDict market
    /\ py_lower (str_field market "slug") = needle
    /\ Forall (fun x => exists mk, x = VDict mk
                        /\ py_lower (str_field mk "slug") <> needle) pre.
Proof.
  induction xs as [|x r IH]; [discriminate|].
  cbn [first_with_slug]. destruct x as [| | | | | |mk]; try discriminate.
  destruct (String.eqb_spec (py_lower (str_field mk "slug")) needle) as [He|Hne].
  - intros [= <-]. exists [], mk, r. repeat split; trivial.
  - intros H. destruct (IH H) as (pre & market & post & -> & -> & Hk & Hpre).
    exists (VDict mk :: pre), market, post. repeat split; trivial.
    constructor; [eauto | exact Hpre].
Qed.

Lemma first_with_question_spec (needle : string) (xs : list value) (m : value) :
  first_with_question needle xs = Selected m ->
  exists pre market post,
    xs = pre ++ VDict market :: post
    /\ m = VDict market
    /\ contains_sub (list_ascii_of_string needle)
         (list_ascii_of_string (py_lower (str_field market "question"))) = true
    /\ Forall (fun x => exists mk, x = VDict mk
                        /\ contains_sub (list_ascii_of_string needle)
                             (list_ascii_of_string (py_lower (str_field mk "question")))
                           = false) pre.
Proof.
  induction xs as [|x r IH]; [discriminate|].
  cbn [first_with_question]. destruct x as [| | | | | |mk]; try discriminate.
  destruct (contains_sub _ _) eqn:Ec.
  - intros [= <-]. exists [], mk, r. repeat split; trivial.
  - intros H. destruct (IH H) as (pre & market & post & -> & -> & Hk & Hpre).
    exists (VDict mk :: pre), market, post. repeat split; trivial.
    constructor; [eauto | exact Hpre].
Qed.

Lemma given_Some (s : string) : s <> ""%string -> given (Some s) = Some s.
Proof.
  intros H. unfold given. destruct (String.eqb_spec s ""); [contradiction | reflexivity].
Qed.

Lemma markets_list (event : dict) :
  truthy (py_or (get event "markets") (VList [])) = true ->
  py_or (get event "markets") (VList []) = get event "markets".
Proof.
  unfold py_or. destruct (truthy (get event "markets")); [reflexivity | discriminate].
Qed.

(** X16: selection by slug.  With a market slug that is not empty the
    date text is not looked at, and a market that is returned is the first
    market of the event whose slug, lowercased, is the argument stripped of
    surrounding white space and lowercased; the markets before it are
    dicts with another slug. *)
Theorem select_market_by_slug (event : dict) (date_text : option string)
    (slug : string) (m : value) :
  slug <> ""%string ->
  _select_market event date_text (Some slug) = Selected m ->
  exists xs pre market post,
    get event "markets" = VList xs
    /\ xs = pre ++ VDict market :: post
    /\ m = VDict market
    /\ py_lower (str_field market "slug") = py_lower (py_strip slug)
    /\ Forall (fun x => exists mk, x = VDict mk
                        /\ py_lower (str_field mk "slug")
                           <> py_lower (py_strip slug)) pre.
Proof.
  intros Hs. unfold _select_market. rewrite (given_Some _ Hs).
  destruct (truthy (py_or (get event "markets") (VList []))) eqn:Et;
    [|discriminate].
  rewrite (markets_list event Et). cbn [negb].
  destruct (get event "markets") as [| | | | |xs|]; try discriminate.
  intros H. apply first_with_slug_spec in H as (pre & market & post & H).
  exists xs, pre, market, post. tauto.
Qed.

Lemma select_market_by_slug_witness :
  _select_market sample_event (Some "june 15"%string) (Some " strikes-by-JUNE-5 "%string)
  = Selected (sample_market "Strikes-by-June-5" "Strikes by June 5?")
  /\ exists market,
       sample_market "Strikes-by-June-5" "Strikes by June 5?" = VDict market
       /\ py_lower (str_field market "slug") = "strikes-by-june-5"%string.
Proof.
  assert (H : _select_market sample_event (Some "june 15"%string)
                (Some " strikes-by-JUNE-5 "%string)
              = Selected (sample_market "Strikes-by-June-5" "Strikes by June 5?"))
    by (vm_compute; reflexivity).
  split; [exact H|].
  destruct (select_market_by_slug sample_event (Some "june 15"%string)
              " strikes-by-JUNE-5 " _ ltac:(discriminate) H)
    as (xs & pre & market & post & _ & _ & Hm & Hs & _).
  exists market. split; [exact Hm | exact Hs].
Defined.

(** X17: selection by date text.  Without a market slug and with a date
    text that is not empty, a market that is returned is the first market
    of the event whose question, lowercased, contains the lowercased date
    text; the markets before it are dicts whose question does not. *)
Theorem select_market_by_date (event : dict) (date_text : string)
    (market_slug : option string) (m : value) :
  given market_slug = None ->
  date_text <> ""%string ->
  _select_market event (Some date_text) market_slug = Selected m ->
  exists xs pre market post,
    get event "markets" = VList xs
    /\ xs = pre ++ VDict market :: post
    /\ m = VDict market
    /\ contains_sub (list_ascii_of_string (py_lower date_text))
         (list_ascii_of_string (py_lower (str_field market "question"))) = true
    /\ Forall (fun x => exists mk, x = VDict mk
                        /\ contains_sub (list_ascii_of_string (py_lower date_text))
                             (list_ascii_of_string (py_lower (str_field mk "question")))
                           = false) pre.
Proof.
  intros Hms Hd. unfold _select_market. rewrite Hms, (given_Some _ Hd).
  destruct (truthy (py_or (get event "markets") (VList []))) eqn:Et;
    [|discriminate].
  rewrite (markets_list event Et). cbn [negb].
  destruct (get event "markets") as [| | | | |xs|]; try discriminate.
  intros H. apply first_with_question_spec in H as (pre & market & post & H).
  exists xs, pre, market, post. tauto.
Qed.

Lemma select_market_by_date_witness :
  _select_market sample_event (Some "JUNE 1"%string) None
  = Selected (sample_market "strikes-by-june-15" "Strikes by June 15?")
  /\ exists pre market post,
       get sample_event "markets" = VList (pre ++ VDict market :: post)
       /\ length pre = 1%nat
       /\ sample_market "strikes-by-june-15" "Strikes by June 15?" = VDict market.
Proof.
  assert (H : _select_market sample_event (Some "JUNE 1"%string) None
              = Selected (sample_market "strikes-by-june-15" "Strikes by June 15?"))
    by (vm_compute; reflexivity).
  split; [exact H|].
  destruct (select_market_by_date sample_event "JUNE 1" None _ eq_refl
              ltac:(discriminate) H)
    as (xs & pre & market & post & Hg & Hx & Hm & Hc & Hpre).
  exists pre, market, post. rewrite Hg, Hx. split; [reflexivity|].
  split; [|exact Hm].
  injection Hm as <-.
  destruct pre as [|a [|b pre]].
  - exfalso. subst xs. injection Hg as Hg _. discriminate Hg.
  - reflexivity.
  - exfalso. subst xs. injection Hg as _ _ Hg.
    destruct pre; discriminate Hg.
Defined.

(** X18: the market that [_select_market] returns is one of the event.
    Whatever the filters, a returned market is an element of the
    [markets] list of the event; the one other case is a [markets] value
    that is a string of one character, which is returned as it is. *)
Theorem select_market_member (event : dict) (date_text market_slug : option string)
    (m : value) :
  _select_market event date_text market_slug = Selected m ->
  (exists xs, get event "markets" = VList xs /\ In m xs)
  \/ (exists s, get event "markets" = VStr s /\ m = VStr s /\ String.length s = 1%nat).
Proof.
  unfold _select_market.
  destruct (truthy (py_or (get event "markets") (VList []))) eqn:Et;
    [|discriminate].
  rewrite (markets_list event Et). cbn [negb].
  destruct (given market_slug) as [ms|].
  { destruct (get event "markets") as [| | | | |xs|]; try discriminate.
    intros H. apply first_with_slug_spec in H as (pre & mk & post & -> & -> & _).
    left. eexists. split; [reflexivity|]. apply in_or_app. right. left. reflexivity. }
  destruct (given date_text) as [dt|].
  { destruct (get event "markets") as [| | | | |xs|]; try discriminate.
    intros H. apply first_with_question_spec in H as (pre & mk & post & -> & -> & _).
    left. eexists. split; [reflexivity|]. apply in_or_app. right. left. reflexivity. }
  destruct (get event "markets") as [| | | |s|xs|]; try discriminate.
  - destruct (Nat.eqb_spec (String.length s) 1); [|discriminate].
    intros [= <-]. right. eauto.
  - destruct xs as [|x [|y r]].
    + discriminate.
    + intros [= <-]. left. exists [x]. split; [reflexivity | left; reflexivity].
    + destruct (forallb _ _); discriminate.
Qed.

Lemma select_market_member_witness :
  _select_market [("markets"%string, VList [sample_market "only" "Only one?"])] None None
  = Selected (sample_market "only" "Only one?")
  /\ ((exists xs, get [("markets"%string, VList [sample_market "only" "Only one?"])] "markets"
                  = VList xs
                  /\ In (sample_market "only" "Only one?") xs)
      \/ (exists s, get [("markets"%string, VList [sample_market "only" "Only one?"])] "markets"
                    = VStr s
                    /\ sample_market "only" "Only one?" = VStr s
                    /\ String.length s = 1%nat)).
Proof.
  assert (H : _select_market
                [("markets"%string, VList [sample_market "only" "Only one?"])] None None
              = Selected (sample_market "only" "Only one?"))
    by (vm_compute; reflexivity).
  split; [exact H|].
  exact (select_market_member _ None None _ H).
Defined.

(** ** The labels of the tokens *)

Lemma set_outcome_keys (m : outcome_map) (key v : string) :
  map fst (set_outcome m key v)
  = if existsb (String.eqb key) (map fst m) then map fst m else map fst m ++ [key].
Proof.
  induction m as [|[k x] r IH]; [reflexivity|].
  cbn [set_outcome map fst existsb].
  rewrite (String.eqb_sym key k).
  destruct (String.eqb k key); cbn [orb map fst]; [reflexivity|].
  rewrite IH. destruct (existsb _ _); reflexivity.
Qed.

Lemma existsb_eqb_In (key : string) (l : list string) :
  existsb (String.eqb key) l = true <-> In key l.
Proof.
  rewrite existsb_exists. split.
  - intros (x & Hx & E). apply String.eqb_eq in E. subst. exact Hx.
  - intros H. exists key. split; [exact H | apply String.eqb_refl].
Qed.

Lemma set_outcome_In_keys (m : outcome_map) (key v t : string) :
  In t (map fst (set_outcome m key v)) <-> In t (map fst m) \/ t = key.
Proof.
  rewrite set_outcome_keys.
  destruct (existsb (String.eqb key) (map fst m)) eqn:E.
  - apply existsb_eqb_In in E. split; [tauto | intros [H| ->]; assumption].
  - rewrite in_app_iff. simpl. intuition.
Qed.

Lemma set_outcome_NoDup (m : outcome_map) (key v : string) :
  List.NoDup (map fst m) -> List.NoDup (map fst (set_outcome m key v)).
Proof.
  intros H. rewrite set_outcome_keys.
  destruct (existsb (String.eqb key) (map fst m)) eqn:E; [exact H|].
  apply List.NoDup_app; [exact H | repeat constructor; simpl; tauto |].
  intros x Hx [<-|[]]. apply existsb_eqb_In in Hx. congruence.
Qed.

(** With distinct keys, the items after an assignment. *)
Lemma set_outcome_items (m : outcome_map) (key v t l : string) :
  List.NoDup (map fst m) ->
  In (t, l) (set_outcome m key v) ->
  (t = key /\ l = v) \/ (t <> key /\ In (t, l) m).
Proof.
  induction m as [|[k x] r IH]; cbn [set_outcome map fst]; intros Hnd H.
  - destruct H as [[= <- <-]|[]]. left. split; reflexivity.
  - inversion Hnd as [|? ? Hk Hr]; subst.
    destruct (String.eqb_spec k key) as [->|Hne].
    + destruct H as [[= <- <-]|H]; [left; split; reflexivity|].
      right. split; [|right; exact H].
      intros ->. apply Hk. apply (in_map fst) in H. exact H.
    + destruct H as [[= <- <-]|H]; [right; split; [exact Hne | left; reflexivity]|].
      destruct (IH Hr H) as [?|[? ?]]; [left; assumption|].
      right. split; [assumption | right; assumption].
Qed.

Lemma set_outcome_holds (m : outcome_map) (key v : string) :
  In (key, v) (set_outcome m key v).
Proof.
  induction m as [|[k x] r IH]; cbn [set_outcome]; [left; reflexivity|].
  destruct (String.eqb_spec k key) as [->|Hne]; [left; reflexivity | right; exact IH].
Qed.

Lemma set_outcome_keeps (m : outcome_map) (key v t l : string) :
  t <> key -> In (t, l) m -> In (t, l) (set_outcome m key v).
Proof.
  intros Hne. induction m as [|[k x] r IH]; cbn [set_outcome]; [intros []|].
  destruct (String.eqb_spec k key) as [->|Hk]; intros [E|H].
  - injection E as <- <-. contradiction.
  - right. exact H.
  - left. exact E.
  - right. exact (IH H).
Qed.

(** The loop, from any index and any map with distinct keys. *)
Lemma label_tokens_spec (token_ids outcomes : list string) :
  forall (i : nat) (acc : outcome_map),
    List.NoDup (map fst acc) ->
    List.NoDup (map fst (label_tokens i token_ids outcomes acc))
    /\ (forall t, In t (map fst (label_tokens i token_ids outcomes acc))
                  <-> In t (map fst acc) \/ In t token_ids)
    /\ (forall t l, In (t, l) (label_tokens i token_ids outcomes acc) <->
          (In (t, l) acc /\ ~ In t token_ids)
          \/ exists k, nth_error token_ids k = Some t
                       /\ l = label_at outcomes (i + k)
                       /\ forall j, (k < j)%nat -> nth_error token_ids j <> Some t).
Proof.
  induction token_ids as [|x r IH]; intros i acc Hnd; cbn [label_tokens].
  - split; [exact Hnd|]. split; [simpl; tauto|].
    intros t l. split.
    + intros H. left. split; [exact H | intros []].
    + intros [[H _]|(k & Hk & _)]; [exact H|]. destruct k; discriminate.
  - destruct (IH (S i) (set_outcome acc x (label_at outcomes i))
                (set_outcome_NoDup _ _ _ Hnd)) as (H1 & H2 & H3).
    split; [exact H1|]. split.
    + intros t. rewrite H2, set_outcome_In_keys. simpl. intuition.
    + intros t l. rewrite H3. split.
      * intros [[Hin Hnot]|(k & Hk & Hl & Hlast)].
        -- destruct (set_outcome_items _ _ _ _ _ Hnd Hin) as [[-> ->]|[Hne Hacc]].
           ++ right. exists 0%nat. split; [reflexivity|].
              split; [f_equal; lia|].
              intros j Hj E. destruct j as [|j]; [lia|]. simpl in E.
              apply Hnot. eapply nth_error_In. exact E.
           ++ left. split; [exact Hacc|]. simpl. intros [E|E]; [congruence | tauto].
        -- right. exists (S k). split; [exact Hk|].
           split; [rewrite Hl; f_equal; lia|].
           intros j Hj. destruct j as [|j]; [lia|]. simpl. apply Hlast. lia.
      * intros [[Hacc Hnot]|(k & Hk & Hl & Hlast)].
        -- left. simpl in Hnot. split; [|tauto].
           apply set_outcome_keeps; [|exact Hacc]. intros ->. tauto.
        -- destruct k as [|k].
           ++ simpl in Hk. injection Hk as ->. left.
              replace (i + 0)%nat with i in Hl by lia. subst l.
              split; [apply set_outcome_holds|].
              intros Hin. apply In_nth_error in Hin as [j Hj].
              apply (Hlast (S j)); [lia | exact Hj].
           ++ right. exists k. split; [exact Hk|].
              split; [rewrite Hl; f_equal; lia|].
              intros j Hj. apply (Hlast (S j)). lia.
Qed.

(** X19: the labels that [main] gives the tokens.  The keys of
    [token_to_outcome] are the token ids, each once; the label of a token
    is the outcome at the index of its last occurrence among the token
    ids, or ["token_<index>"] when the outcomes are fewer. *)
Theorem token_labels (token_ids outcomes : list string) :
  List.NoDup (map fst (token_to_outcome token_ids outcomes))
  /\ (forall t, In t (map fst (token_to_outcome token_ids outcomes)) <-> In t token_ids)
  /\ (forall t l, In (t, l) (token_to_outcome token_ids outcomes) <->
        exists k, nth_error token_ids k = Some t
                  /\ l = label_at outcomes k
                  /\ forall j, (k < j)%nat -> nth_error token_ids j <> Some t).
Proof.
  destruct (label_tokens_spec token_ids outcomes 0 [] (List.NoDup_nil _))
    as (H1 & H2 & H3).
  split; [exact H1|]. split.
  - intros t. rewrite (H2 t). simpl. tauto.
  - intros t l. unfold token_to_outcome. rewrite (H3 t l). simpl. split.
    + intros [[[] _]|H]. exact H.
    + intros H. right. exact H.
Qed.

(** ** The lookups of the dashboard *)

Lemma ltb_asym (a b : string) : String.ltb a b = true -> String.ltb b a = false.
Proof.
  unfold String.ltb. rewrite (String.compare_antisym a b).
  destruct (String.compare b a); simpl; congruence.
Qed.

Lemma ltb_irrefl (a : string) : String.ltb a a = false.
Proof.
  destruct (String.ltb a a) eqn:E; [|reflexivity].
  rewrite (ltb_asym _ _ E) in E. discriminate.
Qed.

Lemma ltb_trans (a b c : string) :
  String.ltb a b = true -> String.ltb b c = true -> String.ltb a c = true.
Proof.
  unfold String.ltb. intros H1 H2.
  assert (L1 : String.compare a b = Lt) by (destruct (String.compare a b); congruence).
  assert (L2 : String.compare b c = Lt) by (destruct (String.compare b c); congruence).
  apply OrderedTypeEx.String_as_OT.cmp_lt in L1, L2.
  pose proof (OrderedTypeEx.String_as_OT.lt_trans _ _ _ L1 L2) as L.
  apply OrderedTypeEx.String_as_OT.cmp_lt in L.
  unfold OrderedTypeEx.String_as_OT.cmp in L. rewrite L. reflexivity.
Qed.

(** [a <= b] and [b <= c] give [a <= c], for [x <= y] read as "not
    [y < x]". *)
Lemma not_ltb_trans (a b c : string) :
  String.ltb b a = false -> String.ltb c b = false -> String.ltb c a = false.
Proof.
  intros H1 H2. destruct (String.ltb c a) eqn:E; [|reflexivity].
  destruct (String.compare a b) eqn:C.
  - apply String.compare_eq_iff in C. subst b. congruence.
  - assert (L : String.ltb a b = true) by (unfold String.ltb; rewrite C; reflexivity).
    rewrite (ltb_trans _ _ _ E L) in H2. discriminate.
  - unfold String.ltb in H1. rewrite (String.compare_antisym b a), C in H1.
    discriminate.
Qed.

Lemma outcome_le_trans (a b c : string * string) :
  outcome_le a b -> outcome_le b c -> outcome_le a c.
Proof. unfold outcome_le. apply not_ltb_trans. Qed.

Lemma insert_by_outcome_perm (x : string * string) (l : list (string * string)) :
  Permutation (insert_by_outcome x l) (x :: l).
Proof.
  induction l as [|y r IH]; cbn [insert_by_outcome]; [reflexivity|].
  destruct (String.ltb _ _); [|reflexivity].
  rewrite IH. apply perm_swap.
Qed.

Lemma sorted_by_outcome_perm (l : list (string * string)) :
  Permutation (sorted_by_outcome l) l.
Proof.
  induction l as [|x r IH]; cbn [sorted_by_outcome]; [reflexivity|].
  rewrite insert_by_outcome_perm, IH. reflexivity.
Qed.

Lemma insert_by_outcome_sorted (x : string * string) (l : list (string * string)) :
  StronglySorted outcome_le l -> StronglySorted outcome_le (insert_by_outcome x l).
Proof.
  induction 1 as [|y r Hr IH Hy]; cbn [insert_by_outcome].
  - constructor; constructor.
  - destruct (String.ltb (py_lower (snd y)) (py_lower (snd x))) eqn:E.
    + constructor; [exact IH|].
      apply List.Forall_forall. intros z Hz.
      apply (Permutation_in _ (insert_by_outcome_perm x r)) in Hz.
      destruct Hz as [<-|Hz].
      * unfold outcome_le. apply ltb_asym. exact E.
      * exact (proj1 (List.Forall_forall _ _) Hy z Hz).
    + constructor; [constructor; assumption|].
      constructor; [exact E|].
      apply List.Forall_forall. intros z Hz.
      apply (outcome_le_trans x y z); [exact E|].
      exact (proj1 (List.Forall_forall _ _) Hy z Hz).
Qed.

Lemma sorted_by_outcome_sorted (l : list (string * string)) :
  StronglySorted outcome_le (sorted_by_outcome l).
Proof.
  induction l as [|x r IH]; cbn [sorted_by_outcome]; [constructor|].
  apply insert_by_outcome_sorted. exact IH.
Qed.

(** The sort is stable: items with one lowercased outcome keep their
    order. *)
Lemma insert_by_outcome_stable (k x : string * string) (l : list (string * string)) :
  same_outcome k (insert_by_outcome x l) = same_outcome k (x :: l).
Proof.
  unfold same_outcome.
  induction l as [|y r IH]; cbn [insert_by_outcome]; [reflexivity|].
  destruct (String.ltb (py_lower (snd y)) (py_lower (snd x))) eqn:E; [|reflexivity].
  cbn [List.filter] in IH |- *. rewrite IH.
  destruct (String.eqb_spec (py_lower (snd y)) (py_lower (snd k))) as [Hy|Hy];
    [|reflexivity].
  destruct (String.eqb_spec (py_lower (snd x)) (py_lower (snd k))) as [Hx|Hx];
    [|reflexivity].
  rewrite Hy, Hx, ltb_irrefl in E. discriminate.
Qed.

Lemma sorted_by_outcome_stable (k : string * string) (l : list (string * string)) :
  same_outcome k (sorted_by_outcome l) = same_outcome k l.
Proof.
  induction l as [|x r IH]; cbn [sorted_by_outcome]; [reflexivity|].
  rewrite insert_by_outcome_stable. unfold same_outcome in *.
  cbn [List.filter]. rewrite IH. reflexivity.
Qed.

Lemma lookup_states_all (bs : books_t) (ordered : list (string * string)) :
  (forall t o, In (t, o) ordered -> is_Some (bs !! t)) ->
  exists states,
    lookup_states bs ordered = Found states
    /\ Forall2 (fun to os => fst os = snd to /\ bs !! fst to = Some (snd os))
         ordered states.
Proof.
  induction ordered as [|[t o] r IH]; intros H.
  - exists []. split; [reflexivity | constructor].
  - destruct IH as (states & E & Hf).
    { intros t' o' Hin. apply (H t' o'). right. exact Hin. }
    destruct (H t o (or_introl eq_refl)) as [state Hs].
    exists ((o, state) :: states). cbn [lookup_states]. rewrite Hs, E.
    split; [reflexivity|]. constructor; [split; [reflexivity | exact Hs] | exact Hf].
Qed.

(** X20: the dashboard finds a book for every token it shows.  In every
    running state of a stream started on the token ids, with the labels
    that [main] made from them, no lookup [books[token_id]] of
    [_render_dashboard] raises KeyError.  The panels are those of the
    labelled tokens, each with the book of its token, sorted by lowercased
    label: none is followed by one of a smaller lowercased label, and
    tokens with one lowercased label keep the order of the labels. *)
Theorem dashboard_finds_every_book (token_ids outcomes : list string)
    (evs : list event) (st : running) :
  stream_market_orderbook token_ids evs = Some (Running st) ->
  exists ordered states,
    dashboard_states (books st) (token_to_outcome token_ids outcomes) = Found states
    /\ Permutation ordered (token_to_outcome token_ids outcomes)
    /\ StronglySorted outcome_le ordered
    /\ (forall k, same_outcome k ordered
                  = same_outcome k (token_to_outcome token_ids outcomes))
    /\ Forall2 (fun to os => fst os = snd to /\ books st !! fst to = Some (snd os))
         ordered states.
Proof.
  intros H. apply (run_tracks token_ids evs _ _) in H.
  2:{ simpl. intros t. exact (proj1 (start_lookup token_ids t)). }
  simpl in H.
  destruct (lookup_states_all (books st)
              (sorted_by_outcome (token_to_outcome token_ids outcomes)))
    as (states & E & Hf).
  { intros t o Hin. apply H.
    apply (Permutation_in _ (sorted_by_outcome_perm _)) in Hin.
    apply (in_map fst) in Hin.
    apply (proj1 (proj2 (label_tokens_spec token_ids outcomes 0 []
                           (List.NoDup_nil _))) t) in Hin.
    destruct Hin as [[]|Hin]. exact Hin. }
  exists (sorted_by_outcome (token_to_outcome token_ids outcomes)), states.
  split; [exact E|].
  split; [apply sorted_by_outcome_perm|].
  split; [apply sorted_by_outcome_sorted|].
  split; [intros k; apply sorted_by_outcome_stable | exact Hf].
Qed.

Lemma dashboard_finds_every_book_witness :
  stream_market_orderbook ["X"; "Y"]%string
    [Connected; Sent; Received (Json (VDict book_frame))]
  = Some (Running {| at_ := Streaming; reconnect_delay := 1;
                     books := <["X"%string := book_state_1]>
                                {[ "Y"%string := empty_state ]};
                     sleeps := [] |})
  /\ dashboard_states
       (<["X"%string := book_state_1]> {[ "Y"%string := empty_state ]})
       (token_to_outcome ["X"; "Y"]%string ["Yes"; "No"]%string)
     = Found [("No"%string, empty_state); ("Yes"%string, book_state_1)]
  /\ exists ordered,
       Permutation ordered (token_to_outcome ["X"; "Y"]%string ["Yes"; "No"]%string)
       /\ StronglySorted outcome_le ordered.
Proof.
  assert (H : stream_market_orderbook ["X"; "Y"]%string
                [Connected; Sent; Received (Json (VDict book_frame))]
              = Some (Running {| at_ := Streaming; reconnect_delay := 1;
                                 books := <["X"%string := book_state_1]>
                                            {[ "Y"%string := empty_state ]};
                                 sleeps := [] |}))
    by (vm_compute; reflexivity).
  split; [exact H|]. split; [vm_compute; reflexivity|].
  destruct (dashboard_finds_every_book _ ["Yes"; "No"]%string _ _ H)
    as (ordered & states & _ & Hp & Hs & _).
  exists ordered. split; [exact Hp | exact Hs].
Defined.
